(** * Sanctuary MCP bridge: record model, store and insight engine

    A shallow embedding of [schemas.py], [db.py] and [patterns.py] of the
    [sanctuary_mcp_bridge] package, with the parts of the Python runtime
    they rest on (insertion-ordered dictionaries, stable sorting, binary64
    floats, [datetime] and [json]), and the properties the specification
    states about them. *)

From Stdlib Require Import ZArith List String Ascii Bool Lia.
From Stdlib Require Import Floats DecimalString.
From Stdlib Require Import Permutation Sorted.
Import ListNotations.

Set Implicit Arguments.
#[local] Set Warnings "-inexact-float,-register-all".

Local Open Scope string_scope.
Local Open Scope Z_scope.

(* ================================================================== *)
(** * The Python runtime the package relies on *)
(* ================================================================== *)

Module Py.

(** Exceptions that the modelled code can raise.  [ValidationError] is
    pydantic's; the others are built-in. *)
Inductive exn : Set :=
| ValidationError
| ValueError
| TypeError
| OverflowError
| OSError
| RecursionError
| JSONDecodeError.

(** A computation that returns a value or raises. *)
Inductive result (A : Type) : Type :=
| Ok (a : A)
| Raise (e : exn).
Arguments Ok {A} a.
Arguments Raise {A} e.

Definition bind {A B} (m : result A) (k : A -> result B) : result B :=
  match m with
  | Ok a => k a
  | Raise e => Raise e
  end.

Notation "x <- m ;; k" := (bind m (fun x => k))
  (at level 61, m at next level, right associativity).
Notation "' pat <- m ;; k" := (bind m (fun x => let 'pat := x in k))
  (at level 61, pat pattern, m at next level, right associativity).

(** [[f(x) for x in l]] where [f] may raise: the first exception stops
    the comprehension. *)
Fixpoint mapM {A B} (f : A -> result B) (l : list A) : result (list B) :=
  match l with
  | [] => Ok []
  | x :: l' => y <- f x ;; ys <- mapM f l' ;; Ok (y :: ys)
  end.

(** ** Dictionaries

    A [dict] keeps its keys in insertion order, and the code below reads
    that order ([sorted] is stable, [max] returns the first maximum), so
    a dictionary is an association list with unique keys, oldest first. *)
Definition dict (V : Type) : Type := list (string * V).

Fixpoint get {V} (d : dict V) (k : string) : option V :=
  match d with
  | [] => None
  | (k', v) :: d' => if String.eqb k k' then Some v else get d' k
  end.

(** [d[k] = f(d[k])] on a [defaultdict] (or a [Counter]) with default
    [dflt]: an existing key keeps its place, a new key goes last. *)
Fixpoint modify {V} (d : dict V) (k : string) (dflt : V) (f : V -> V) : dict V :=
  match d with
  | [] => [(k, f dflt)]
  | (k', v) :: d' =>
      if String.eqb k k' then (k', f v) :: d'
      else (k', v) :: modify d' k dflt f
  end.

Definition keys {V} (d : dict V) : list string := map fst d.

(** [{k: f(v) for k, v in d.items()}] *)
Definition map_values {V W} (f : V -> W) (d : dict V) : dict W :=
  map (fun kv => (fst kv, f (snd kv))) d.

(** ** Integers and floats *)

(** [str(n)] for an [int]. *)
Definition str_of_int (n : Z) : string := NilZero.string_of_int (Z.to_int n).

(** [float(n)] for an [int]: the nearest binary64 value, ties to even.
    (Python raises [OverflowError] where this is an infinity; the
    integers converted below are list lengths and occurrence counts.) *)
Definition float_of_int (n : Z) : float :=
  SF2Prim (binary_normalize prec emax n 0 false).

(** [a / b] for two [int]s with [b <> 0]: true division, the correctly
    rounded quotient (for operands below [2^53] it is the binary64
    quotient of the two conversions). *)
Definition int_truediv (a b : Z) : float :=
  PrimFloat.div (float_of_int a) (float_of_int b).

(** ** [sorted(..., key=..., reverse=True)] and [max(..., key=...)]

    [sorted] is stable, also with [reverse=True]: items with equal keys
    keep their original order.  [lt] is [<] on keys. *)
Section Sorting.
Variables (A K : Type) (key : A -> K) (lt : K -> K -> bool).

Fixpoint insert_desc (x : A) (l : list A) : list A :=
  match l with
  | [] => [x]
  | y :: l' => if lt (key x) (key y) then y :: insert_desc x l' else x :: l
  end.

Definition sorted_reverse (l : list A) : list A :=
  fold_right insert_desc [] l.

(** [max(l, key=key)] for a non-empty [l]: the first item whose key is
    maximal. *)
Definition max_by (x0 : A) (l : list A) : A :=
  fold_left (fun best x => if lt (key best) (key x) then x else best) l x0.

End Sorting.

(** ** Fixed-point formatting of floats: [format(x, '.{prec}f')]

    The decimal with [prec] digits after the point nearest to the exact
    binary value, ties to even. *)
Definition round_half_even_div (n d : Z) : Z :=
  let q := n / d in
  let r := n mod d in
  if 2 * r <? d then q
  else if d <? 2 * r then q + 1
  else if Z.even q then q else q + 1.

Fixpoint zeros (n : nat) : string :=
  match n with
  | O => ""
  | S n' => "0" ++ zeros n'
  end.

(** ['%0{width}d' % n] for a digit string [s]. *)
Definition zero_pad (width : nat) (s : string) : string :=
  zeros (width - String.length s) ++ s.

Definition fixed_digits (prec : nat) (scaled : Z) : string :=
  let p := 10 ^ Z.of_nat prec in
  let ip := str_of_int (scaled / p) in
  match prec with
  | O => ip
  | _ => ip ++ "." ++ zero_pad prec (str_of_int (scaled mod p))
  end.

Definition format_float_f (prec : nat) (x : float) : string :=
  match Prim2SF x with
  | S754_nan => "nan"
  | S754_infinity s => if s then "-inf" else "inf"
  | S754_zero s => (if s then "-" else "") ++ fixed_digits prec 0
  | S754_finite s m e =>
      let num := Z.pos m * 10 ^ Z.of_nat prec in
      let scaled :=
        if 0 <=? e then num * 2 ^ e
        else round_half_even_div num (2 ^ (- e)) in
      (if s then "-" else "") ++ fixed_digits prec scaled
  end.


(** ** Strings

    A [str] is modelled by its UTF-8 bytes.  Slices clamp at the end of
    the string as Python's do. *)
Fixpoint drop (n : nat) (s : string) : string :=
  match n, s with
  | O, _ => s
  | S n', String _ s' => drop n' s'
  | S _, EmptyString => EmptyString
  end.

Fixpoint take (n : nat) (s : string) : string :=
  match n, s with
  | O, _ => EmptyString
  | S n', String c s' => String c (take n' s')
  | S _, EmptyString => EmptyString
  end.

(** [s[a:b]] *)
Definition slice (a b : nat) (s : string) : string := take (b - a) (drop a s).

(** [s.find(c)]: the index of the first [c], if there is one (Python
    returns [-1] when there is none). *)
Fixpoint find (c : ascii) (s : string) : option nat :=
  match s with
  | EmptyString => None
  | String c' s' =>
      if Ascii.eqb c' c then Some O
      else match find c s' with
           | Some i => Some (S i)
           | None => None
           end
  end.

(** The decimal digit [d mod 10] as a character. *)
Definition digit_char (d : Z) : ascii :=
  nth (Z.to_nat (d mod 10))
    ["0"; "1"; "2"; "3"; "4"; "5"; "6"; "7"; "8"; "9"]%char "0"%char.

(** [c in "0123456789"], and the digit's value. *)
Definition digit_val (c : ascii) : option Z :=
  let n := Z.of_N (N_of_ascii c) in
  if (48 <=? n) && (n <=? 57) then Some (n - 48) else None.

Definition is_ascii_digit (c : ascii) : bool :=
  match digit_val c with
  | Some _ => true
  | None => false
  end.

(** ['%0{w}d' % n] for [0 <= n < 10^w]: the [w] low decimal digits of
    [n], most significant first. *)
Fixpoint fmt_digits (w : nat) (n : Z) : string :=
  match w with
  | O => EmptyString
  | S w' => String (digit_char (n / 10 ^ Z.of_nat w')) (fmt_digits w' n)
  end.

(** The value of a non-empty string of ASCII digits; anything else is
    the [ValueError] of a failed field parse. *)
Fixpoint parse_digits_from (acc : Z) (s : string) : result Z :=
  match s with
  | EmptyString => Ok acc
  | String c s' =>
      match digit_val c with
      | Some d => parse_digits_from (10 * acc + d) s'
      | None => Raise ValueError
      end
  end.

Definition parse_digits (s : string) : result Z :=
  match s with
  | EmptyString => Raise ValueError
  | _ => parse_digits_from 0 s
  end.

Fixpoint all_digits (s : string) : bool :=
  match s with
  | EmptyString => true
  | String c s' => is_ascii_digit c && all_digits s'
  end.

End Py.

Import Py.

(* ================================================================== *)
(** * [datetime]: the instants the records carry *)
(* ================================================================== *)

Module Datetime.

(** A [datetime.datetime].  Of its [tzinfo] the code only ever reads the
    UTC offset ([isoformat] prints it, comparison subtracts it), so a
    time zone is its offset in microseconds, [None] for a naive value.
    [fold] is neither printed nor compared and is left out. *)
Record datetime := mkdatetime {
  year : Z;
  month : Z;
  day : Z;
  hour : Z;
  minute : Z;
  second : Z;
  microsecond : Z;
  tzinfo : option Z
}.

(** A [timedelta] is its length in microseconds. *)
Definition timedelta (days hours minutes seconds microseconds : Z) : Z :=
  (((days * 24 + hours) * 60 + minutes) * 60 + seconds) * 1000000 + microseconds.

(** ** Calendar arithmetic *)

Definition MINYEAR : Z := 1.
Definition MAXYEAR : Z := 9999.

Definition _DAYS_IN_MONTH : list Z :=
  [-1; 31; 28; 31; 30; 31; 30; 31; 31; 30; 31; 30; 31].

Definition _DAYS_BEFORE_MONTH : list Z :=
  [-1; 0; 31; 59; 90; 120; 151; 181; 212; 243; 273; 304; 334].

Definition item (l : list Z) (i : Z) : Z := nth (Z.to_nat i) l 0.

Definition _is_leap (year : Z) : bool :=
  (year mod 4 =? 0) && (negb (year mod 100 =? 0) || (year mod 400 =? 0)).

Definition _days_before_year (year : Z) : Z :=
  let y := year - 1 in
  y * 365 + y / 4 - y / 100 + y / 400.

Definition _days_in_month (year month : Z) : Z :=
  if (month =? 2) && _is_leap year then 29 else item _DAYS_IN_MONTH month.

Definition _days_before_month (year month : Z) : Z :=
  item _DAYS_BEFORE_MONTH month
  + (if (2 <? month) && _is_leap year then 1 else 0).

Definition _ymd2ord (year month day : Z) : Z :=
  _days_before_year year + _days_before_month year month + day.

Definition _DI400Y : Z := _days_before_year 401.
Definition _DI100Y : Z := _days_before_year 101.
Definition _DI4Y : Z := _days_before_year 5.

Definition _ord2ymd (n : Z) : Z * Z * Z :=
  let n := n - 1 in
  let n400 := n / _DI400Y in
  let n := n mod _DI400Y in
  let year := n400 * 400 + 1 in
  let n100 := n / _DI100Y in
  let n := n mod _DI100Y in
  let n4 := n / _DI4Y in
  let n := n mod _DI4Y in
  let n1 := n / 365 in
  let n := n mod 365 in
  let year := year + (n100 * 100 + n4 * 4 + n1) in
  if (n1 =? 4) || (n100 =? 4) then (year - 1, 12, 31)
  else
    let leapyear := (n1 =? 3) && (negb (n4 =? 24) || (n100 =? 3)) in
    let month := Z.shiftr (n + 50) 5 in
    let preceding :=
      item _DAYS_BEFORE_MONTH month
      + (if (2 <? month) && leapyear then 1 else 0) in
    let '(month, preceding) :=
      if n <? preceding then
        (month - 1,
         preceding
         - (item _DAYS_IN_MONTH (month - 1)
            + (if (month - 1 =? 2) && leapyear then 1 else 0)))
      else (month, preceding) in
    let n := n - preceding in
    (year, month, n + 1).

Definition _isoweek1monday (year : Z) : Z :=
  let THURSDAY := 3 in
  let firstday := _ymd2ord year 1 1 in
  let firstweekday := (firstday + 6) mod 7 in
  let week1monday := firstday - firstweekday in
  if THURSDAY <? firstweekday then week1monday + 7 else week1monday.

Definition _isoweek_to_gregorian (year week day : Z) : result (Z * Z * Z) :=
  if negb ((MINYEAR <=? year) && (year <=? MAXYEAR)) then Raise ValueError
  else
    let out_of_range :=
      if negb ((0 <? week) && (week <? 53)) then
        if week =? 53 then
          let first_weekday := _ymd2ord year 1 1 mod 7 in
          negb ((first_weekday =? 4)
                || ((first_weekday =? 3) && _is_leap year))
        else true
      else false in
    if out_of_range then Raise ValueError
    else if negb ((0 <? day) && (day <? 8)) then Raise ValueError
    else
      let day_offset := (week - 1) * 7 + (day - 1) in
      let day_1 := _isoweek1monday year in
      Ok (_ord2ymd (day_1 + day_offset)).

(** ** Construction *)

Definition _check_date_fields (year month day : Z) : result unit :=
  if negb ((MINYEAR <=? year) && (year <=? MAXYEAR)) then Raise ValueError
  else if negb ((1 <=? month) && (month <=? 12)) then Raise ValueError
  else if negb ((1 <=? day) && (day <=? _days_in_month year month))
  then Raise ValueError
  else Ok tt.

Definition _check_time_fields (hour minute second microsecond : Z) : result unit :=
  if negb ((0 <=? hour) && (hour <=? 23)) then Raise ValueError
  else if negb ((0 <=? minute) && (minute <=? 59)) then Raise ValueError
  else if negb ((0 <=? second) && (second <=? 59)) then Raise ValueError
  else if negb ((0 <=? microsecond) && (microsecond <=? 999999))
  then Raise ValueError
  else Ok tt.

(** [datetime(year, month, day, hour, minute, second, microsecond, tzinfo)] *)
Definition new (year month day hour minute second microsecond : Z)
  (tzinfo : option Z) : result datetime :=
  _ <- _check_date_fields year month day ;;
  _ <- _check_time_fields hour minute second microsecond ;;
  Ok (mkdatetime year month day hour minute second microsecond tzinfo).

(** [timezone(offset)]: the offset lies strictly between -24 h and 24 h. *)
Definition timezone (offset : Z) : result Z :=
  if (- timedelta 0 24 0 0 (-1) <=? offset) && (offset <=? timedelta 0 24 0 0 (-1))
  then Ok offset
  else Raise ValueError.

(** What every [datetime] object satisfies. *)
Definition valid (dt : datetime) : Prop :=
  new (year dt) (month dt) (day dt) (hour dt) (minute dt) (second dt)
    (microsecond dt) (tzinfo dt) = Ok dt
  /\ match tzinfo dt with
     | Some off => timezone off = Ok off
     | None => True
     end.

(** ** isoformat *)

(** [_format_time] with [timespec='auto']. *)
Definition _format_time (hh mm ss us : Z) : string :=
  if us =? 0 then
    fmt_digits 2 hh ++ ":" ++ fmt_digits 2 mm ++ ":" ++ fmt_digits 2 ss
  else
    fmt_digits 2 hh ++ ":" ++ fmt_digits 2 mm ++ ":" ++ fmt_digits 2 ss
    ++ "." ++ fmt_digits 6 us.

Definition _format_offset (off : option Z) : string :=
  match off with
  | None => ""
  | Some off =>
      let '(sign, off) := if off <? 0 then ("-", - off) else ("+", off) in
      let hh := off / timedelta 0 1 0 0 0 in
      let mm := off mod timedelta 0 1 0 0 0 in
      let ss := mm mod timedelta 0 0 1 0 0 in
      let mm := mm / timedelta 0 0 1 0 0 in
      let s := sign ++ fmt_digits 2 hh ++ ":" ++ fmt_digits 2 mm in
      if negb (ss =? 0) then
        let s := s ++ ":" ++ fmt_digits 2 (ss / 1000000) in
        if negb (ss mod 1000000 =? 0)
        then s ++ "." ++ fmt_digits 6 (ss mod 1000000)
        else s
      else s
  end.

(** [dt.isoformat()] *)
Definition isoformat (dt : datetime) : string :=
  fmt_digits 4 (year dt) ++ "-" ++ fmt_digits 2 (month dt) ++ "-"
  ++ fmt_digits 2 (day dt) ++ "T"
  ++ _format_time (hour dt) (minute dt) (second dt) (microsecond dt)
  ++ _format_offset (tzinfo dt).

(** ** fromisoformat

    The parsing functions of the reference implementation
    ([Lib/datetime.py], Python 3.11), on the UTF-8 bytes of the string.
    A numeric field is read from ASCII digits only, as the interpreter's
    built-in implementation reads it. *)

Definition is_char (s : string) (i : nat) (c : ascii) : bool :=
  match String.get i s with
  | Some c' => Ascii.eqb c' c
  | None => false
  end.

Definition digit_at (s : string) (i : nat) : bool :=
  match String.get i s with
  | Some c => is_ascii_digit c
  | None => false
  end.

Fixpoint count_leading_digits (s : string) : nat :=
  match s with
  | String c s' => if is_ascii_digit c then S (count_leading_digits s') else O
  | EmptyString => O
  end.

Definition _find_isoformat_datetime_separator (dtstr : string) : result nat :=
  let len_dtstr := String.length dtstr in
  if (len_dtstr =? 7)%nat then Ok 7%nat
  else if is_char dtstr 4 "-" then
    if is_char dtstr 5 "W" then
      if (len_dtstr <? 8)%nat then Raise ValueError
      else if (8 <? len_dtstr)%nat && is_char dtstr 8 "-" then
        if (len_dtstr =? 9)%nat then Raise ValueError
        else if (10 <? len_dtstr)%nat && digit_at dtstr 10 then Ok 8%nat
        else Ok 10%nat
      else Ok 8%nat
    else Ok 10%nat
  else if is_char dtstr 4 "W" then
    let idx := (7 + count_leading_digits (drop 7 dtstr))%nat in
    if (idx <? 9)%nat then Ok idx
    else if Nat.even idx then Ok 7%nat
    else Ok 8%nat
  else Ok 8%nat.

Definition sep_width (has_sep : bool) : nat := if has_sep then 1%nat else 0%nat.

Definition _parse_isoformat_date (dtstr : string) : result (Z * Z * Z) :=
  let n := String.length dtstr in
  if negb ((n =? 7)%nat || (n =? 8)%nat || (n =? 10)%nat) then Raise ValueError
  else
    year <- parse_digits (slice 0 4 dtstr) ;;
    let has_sep := is_char dtstr 4 "-" in
    let pos := (4 + sep_width has_sep)%nat in
    if is_char dtstr pos "W" then
      let pos := (pos + 1)%nat in
      weekno <- parse_digits (slice pos (pos + 2) dtstr) ;;
      let pos := (pos + 2)%nat in
      dayno <-
        (if (pos <? n)%nat then
           if negb (Bool.eqb (is_char dtstr pos "-") has_sep)
           then Raise ValueError
           else
             let pos := (pos + sep_width has_sep)%nat in
             parse_digits (slice pos (pos + 1) dtstr)
         else Ok 1) ;;
      _isoweek_to_gregorian year weekno dayno
    else
      month <- parse_digits (slice pos (pos + 2) dtstr) ;;
      let pos := (pos + 2)%nat in
      if negb (Bool.eqb (is_char dtstr pos "-") has_sep) then Raise ValueError
      else
        let pos := (pos + sep_width has_sep)%nat in
        day <- parse_digits (slice pos (pos + 2) dtstr) ;;
        Ok (year, month, day).

Definition _FRACTION_CORRECTION : list Z := [100000; 10000; 1000; 100; 10].

(** The [for comp in range(0, 3)] loop of [_parse_hh_mm_ss_ff]: the
    components still to read, the position, [has_sep] and the
    components read so far. *)
Fixpoint hh_mm_ss_loop (comps : list nat) (tstr : string) (pos : nat)
  (has_sep : bool) (time_comps : list Z) : result (nat * list Z) :=
  match comps with
  | [] => Ok (pos, time_comps)
  | comp :: comps' =>
      if (String.length tstr - pos <? 2)%nat then Raise ValueError
      else
        v <- parse_digits (slice pos (pos + 2) tstr) ;;
        let time_comps := (time_comps ++ [v])%list in
        let pos := (pos + 2)%nat in
        let at_end := (String.length tstr <=? pos)%nat in
        let has_sep := if (comp =? 0)%nat then is_char tstr pos ":" else has_sep in
        if at_end || (2 <=? comp)%nat then Ok (pos, time_comps)
        else if has_sep && negb (is_char tstr pos ":") then Raise ValueError
        else hh_mm_ss_loop comps' tstr (pos + sep_width has_sep) has_sep time_comps
  end.

(** The components not reached by the loop stay [0]. *)
Definition comp_at (time_comps : list Z) (i : nat) : Z := nth i time_comps 0.

Definition _parse_hh_mm_ss_ff (tstr : string) : result (Z * Z * Z * Z) :=
  let len_str := String.length tstr in
  '(pos, time_comps) <- hh_mm_ss_loop [0; 1; 2]%nat tstr 0 false [] ;;
  let hh := comp_at time_comps 0 in
  let mm := comp_at time_comps 1 in
  let ss := comp_at time_comps 2 in
  if (pos <? len_str)%nat then
    if negb (is_char tstr pos "." || is_char tstr pos ",") then Raise ValueError
    else
      let pos := (pos + 1)%nat in
      let len_remainder := (len_str - pos)%nat in
      let to_parse := if (6 <=? len_remainder)%nat then 6%nat else len_remainder in
      ff <- parse_digits (slice pos (pos + to_parse) tstr) ;;
      let ff :=
        if (to_parse <? 6)%nat
        then ff * nth (to_parse - 1) _FRACTION_CORRECTION 0
        else ff in
      if (to_parse <? len_remainder)%nat
         && negb (all_digits (drop (pos + to_parse) tstr))
      then Raise ValueError
      else Ok (hh, mm, ss, ff)
  else Ok (hh, mm, ss, 0).

(** [tstr.find('-') + 1 or tstr.find('+') + 1 or tstr.find('Z') + 1] *)
Definition find_tz_pos (tstr : string) : nat :=
  match find "-" tstr with
  | Some i => S i
  | None =>
      match find "+" tstr with
      | Some i => S i
      | None =>
          match find "Z" tstr with
          | Some i => S i
          | None => O
          end
      end
  end.

Definition _parse_isoformat_time (tstr : string)
  : result (Z * Z * Z * Z * option Z) :=
  let len_str := String.length tstr in
  if (len_str <? 2)%nat then Raise ValueError
  else
    let tz_pos := find_tz_pos tstr in
    let timestr := if (0 <? tz_pos)%nat then take (tz_pos - 1) tstr else tstr in
    time_comps <- _parse_hh_mm_ss_ff timestr ;;
    tzi <-
      (if (tz_pos =? len_str)%nat && is_char tstr (len_str - 1) "Z"
       then Ok (Some 0)
       else if (0 <? tz_pos)%nat then
         let tzstr := drop tz_pos tstr in
         let n := String.length tzstr in
         if (n =? 0)%nat || (n =? 1)%nat || (n =? 3)%nat then Raise ValueError
         else
           '(h, m, sec, us) <- _parse_hh_mm_ss_ff tzstr ;;
           if (h =? 0) && (m =? 0) && (sec =? 0) && (us =? 0) then Ok (Some 0)
           else
             let tzsign := if is_char tstr (tz_pos - 1) "-" then -1 else 1 in
             off <- timezone (tzsign * timedelta 0 h m sec us) ;;
             Ok (Some off)
       else Ok None) ;;
    let '(hh, mm, ss, ff) := time_comps in
    Ok (hh, mm, ss, ff, tzi).

(** The bytes after the separator character, which may be any single
    character: one to four bytes, by its leading byte. *)
Definition skip_char (s : string) : string :=
  match s with
  | EmptyString => EmptyString
  | String c _ =>
      let n := Z.of_N (N_of_ascii c) in
      if n <? 128 then drop 1 s
      else if n <? 224 then drop 2 s
      else if n <? 240 then drop 3 s
      else drop 4 s
  end.

(** [datetime.fromisoformat(date_string)] *)
Definition fromisoformat (date_string : string) : result datetime :=
  if (String.length date_string <? 7)%nat then Raise ValueError
  else
    separator_location <- _find_isoformat_datetime_separator date_string ;;
    let dstr := slice 0 separator_location date_string in
    let tstr := skip_char (drop separator_location date_string) in
    '(y, m, d) <- _parse_isoformat_date dstr ;;
    '(hh, mm, ss, ff, tzi) <-
      (match tstr with
       | EmptyString => Ok (0, 0, 0, 0, None)
       | _ => _parse_isoformat_time tstr
       end) ;;
    new y m d hh mm ss ff tzi.

(** ** utcfromtimestamp *)

(** The round-half-even integer nearest to a finite float. *)
Definition round_float (x : float) : Z :=
  match Prim2SF x with
  | S754_finite s m e =>
      let r :=
        if 0 <=? e then Z.pos m * 2 ^ e
        else round_half_even_div (Z.pos m) (2 ^ (- e)) in
      if s then - r else r
  | _ => 0
  end.

(** The integral part of a finite float (towards zero), as [math.modf]
    splits it off. *)
Definition trunc_float (x : float) : Z :=
  match Prim2SF x with
  | S754_finite s m e =>
      let r := if 0 <=? e then Z.pos m * 2 ^ e else Z.pos m / 2 ^ (- e) in
      if s then - r else r
  | _ => 0
  end.

(** [time.gmtime(t)] made into a naive [datetime] with [us]
    microseconds: the C library gives up ([OSError]) on a year that does
    not fit its [int], and [datetime] refuses a year outside 1..9999. *)
Definition from_epoch (t us : Z) : result datetime :=
  let days := t / 86400 in
  let rem := t mod 86400 in
  let '(y, m, d) := _ord2ymd (719163 + days) in
  if negb ((- 2 ^ 31 <=? y - 1900) && (y - 1900 <? 2 ^ 31)) then Raise OSError
  else new y m d (rem / 3600) (rem mod 3600 / 60) (rem mod 60) us None.

(** Whether a number of seconds fits the platform's 64-bit [time_t]. *)
Definition in_time_t (t : Z) : bool := (- 2 ^ 63 <=? t) && (t <? 2 ^ 63).

(** [datetime.utcfromtimestamp(t)] for an [int]. *)
Definition utcfromtimestamp_int (t : Z) : result datetime :=
  if in_time_t t then from_epoch t 0 else Raise OverflowError.

(** [datetime.utcfromtimestamp(t)] for a [float]: the fraction is
    rounded half-even to microseconds. *)
Definition utcfromtimestamp_float (t : float) : result datetime :=
  match Prim2SF t with
  | S754_nan => Raise ValueError
  | S754_infinity _ => Raise OverflowError
  | S754_zero _ => from_epoch 0 0
  | S754_finite _ _ _ =>
      let intpart := trunc_float t in
      let frac := PrimFloat.sub t (float_of_int intpart) in
      let us := round_float (PrimFloat.mul frac 1000000) in
      let '(intpart, us) :=
        if 1000000 <=? us then (intpart + 1, us - 1000000)
        else if us <? 0 then (intpart - 1, us + 1000000)
        else (intpart, us) in
      if in_time_t intpart then from_epoch intpart us else Raise OverflowError
  end.

(** ** Comparison *)

Definition cmpZ (x y : Z) : Z := if x =? y then 0 else if y <? x then 1 else -1.

(** [_cmp] of two tuples of integers. *)
Fixpoint cmp_tuple (xs ys : list Z) : Z :=
  match xs, ys with
  | x :: xs', y :: ys' => if x =? y then cmp_tuple xs' ys' else cmpZ x y
  | [], [] => 0
  | [], _ :: _ => -1
  | _ :: _, [] => 1
  end.

Definition fields (dt : datetime) : list Z :=
  [year dt; month dt; day dt; hour dt; minute dt; second dt; microsecond dt].

Definition toordinal (dt : datetime) : Z := _ymd2ord (year dt) (month dt) (day dt).

(** [self - other] without the offsets. *)
Definition base_difference (self other : datetime) : Z :=
  let secs1 := second self + minute self * 60 + hour self * 3600 in
  let secs2 := second other + minute other * 60 + hour other * 3600 in
  timedelta (toordinal self - toordinal other) 0 0 (secs1 - secs2)
    (microsecond self - microsecond other).

(** [self._cmp(other)]: values with the same offset (or both naive)
    compare by their fields; a naive and an aware value do not compare;
    otherwise the offsets are subtracted. *)
Definition _cmp (self other : datetime) : result Z :=
  match tzinfo self, tzinfo other with
  | None, None => Ok (cmp_tuple (fields self) (fields other))
  | Some myoff, Some otoff =>
      if myoff =? otoff then Ok (cmp_tuple (fields self) (fields other))
      else
        let diff := base_difference self other + otoff - myoff in
        Ok (if diff <? 0 then -1 else if diff =? 0 then 0 else 1)
  | _, _ => Raise TypeError
  end.

(** [self <= other] and [self >= other] *)
Definition le (self other : datetime) : result bool :=
  c <- _cmp self other ;; Ok (c <=? 0).

Definition ge (self other : datetime) : result bool :=
  c <- _cmp self other ;; Ok (0 <=? c).

End Datetime.

(* ================================================================== *)
(** * Python objects and [json] *)
(* ================================================================== *)

(** The objects the code handles before they are validated: what
    [json.loads] returns, and what a caller may pass as a timestamp. *)
Inductive value : Type :=
| VNone
| VBool (b : bool)
| VInt (n : Z)
| VFloat (x : float)
| VStr (s : string)
| VBytes (s : string)
| VDatetime (d : Datetime.datetime)
| VList (l : list value)
| VDict (d : dict value).

Module Json.

Definition quote : ascii := "034"%char.
Definition backslash : ascii := "092"%char.

Definition code (c : ascii) : Z := Z.of_N (N_of_ascii c).
Definition chr (n : Z) : ascii := ascii_of_N (Z.to_N n).

Definition hex_char (n : Z) : ascii :=
  nth (Z.to_nat n)
    ["0"; "1"; "2"; "3"; "4"; "5"; "6"; "7"; "8"; "9";
     "a"; "b"; "c"; "d"; "e"; "f"]%char "0"%char.

Definition hex_val (c : ascii) : option Z :=
  let n := code c in
  if (48 <=? n) && (n <=? 57) then Some (n - 48)
  else if (97 <=? n) && (n <=? 102) then Some (n - 87)
  else if (65 <=? n) && (n <=? 70) then Some (n - 55)
  else None.

(** ** Encoding ([ensure_ascii=False]) *)

(** [ESCAPE_DCT]: the quote, the backslash and the control characters
    below [0x20] are escaped; every other byte stands for itself. *)
Definition escape_char (c : ascii) : string :=
  let n := code c in
  if n =? 92 then String backslash (String backslash "")
  else if n =? 34 then String backslash (String quote "")
  else if n =? 8 then String backslash "b"
  else if n =? 12 then String backslash "f"
  else if n =? 10 then String backslash "n"
  else if n =? 13 then String backslash "r"
  else if n =? 9 then String backslash "t"
  else if n <? 32 then
    String backslash
      (String "u" (String "0" (String "0"
         (String (hex_char (n / 16)) (String (hex_char (n mod 16)) "")))))
  else String c "".

Fixpoint escape (s : string) : string :=
  match s with
  | EmptyString => EmptyString
  | String c s' => escape_char c ++ escape s'
  end.

(** [py_encode_basestring] *)
Definition encode_basestring (s : string) : string :=
  String quote (escape s ++ String quote "").

Section Codec.

(** [float.__repr__] and [float(str)] convert between a binary64 value
    and its shortest decimal text; they are taken as given. *)
Variable float_repr : float -> string.
Variable float_of_str : string -> option float.

(** [floatstr] with [allow_nan=True]. *)
Definition floatstr (o : float) : string :=
  if negb (PrimFloat.eqb o o) then "NaN"
  else if PrimFloat.eqb o infinity then "Infinity"
  else if PrimFloat.eqb o neg_infinity then "-Infinity"
  else float_repr o.

(** [', '.join(items)] *)
Definition join_items (items : list string) : string := String.concat ", " items.

(** [json.dumps(o, ensure_ascii=False)]; objects that are not JSON
    serializable are a [TypeError]. *)
Fixpoint dumps (o : value) : result string :=
  match o with
  | VNone => Ok "null"
  | VBool b => Ok (if b then "true" else "false")
  | VInt n => Ok (str_of_int n)
  | VFloat x => Ok (floatstr x)
  | VStr s => Ok (encode_basestring s)
  | VBytes _ => Raise TypeError
  | VDatetime _ => Raise TypeError
  | VList l =>
      items <-
        (fix dumps_items (l : list value) : result (list string) :=
           match l with
           | [] => Ok []
           | v :: l' =>
               t <- dumps v ;; ts <- dumps_items l' ;; Ok (t :: ts)
           end) l ;;
      Ok ("[" ++ join_items items ++ "]")
  | VDict d =>
      items <-
        (fix dumps_pairs (d : dict value) : result (list string) :=
           match d with
           | [] => Ok []
           | (k, v) :: d' =>
               t <- dumps v ;; ts <- dumps_pairs d' ;;
               Ok ((encode_basestring k ++ ": " ++ t) :: ts)
           end) d ;;
      Ok ("{" ++ join_items items ++ "}")
  end.

(** ** Decoding *)

Definition is_ws (c : ascii) : bool :=
  let n := code c in
  (n =? 32) || (n =? 9) || (n =? 10) || (n =? 13).

Fixpoint skip_ws (s : string) : string :=
  match s with
  | String c s' => if is_ws c then skip_ws s' else s
  | EmptyString => EmptyString
  end.

(** [chr(uni)] as UTF-8 bytes. *)
Definition utf8_encode (uni : Z) : string :=
  if uni <? 128 then String (chr uni) ""
  else if uni <? 2048 then
    String (chr (192 + uni / 64)) (String (chr (128 + uni mod 64)) "")
  else if uni <? 65536 then
    String (chr (224 + uni / 4096))
      (String (chr (128 + (uni / 64) mod 64))
         (String (chr (128 + uni mod 64)) ""))
  else
    String (chr (240 + uni / 262144))
      (String (chr (128 + (uni / 4096) mod 64))
         (String (chr (128 + (uni / 64) mod 64))
            (String (chr (128 + uni mod 64)) ""))).

(** [_decode_uXXXX]: four hexadecimal digits. *)
Definition _decode_uXXXX (s : string) : result (Z * string) :=
  match s with
  | String a (String b (String c (String d rest))) =>
      match hex_val a, hex_val b, hex_val c, hex_val d with
      | Some x, Some y, Some z, Some w =>
          Ok (((x * 16 + y) * 16 + z) * 16 + w, rest)
      | _, _, _, _ => Raise JSONDecodeError
      end
  | _ => Raise JSONDecodeError
  end.

(** The text after a backslash: the bytes it stands for and the rest. *)
Definition scan_escape (s : string) : result (string * string) :=
  match s with
  | EmptyString => Raise JSONDecodeError
  | String esc s' =>
      let n := code esc in
      if n =? 117 then
        '(uni, rest) <- _decode_uXXXX s' ;;
        if (55296 <=? uni) && (uni <=? 56319) then
          match rest with
          | String b (String u rest') =>
              if (code b =? 92) && (code u =? 117) then
                '(uni2, rest2) <- _decode_uXXXX rest' ;;
                if (56320 <=? uni2) && (uni2 <=? 57343) then
                  Ok (utf8_encode
                        (65536 + ((uni - 55296) * 1024 + (uni2 - 56320))),
                      rest2)
                else Ok (utf8_encode uni, rest)
              else Ok (utf8_encode uni, rest)
          | _ => Ok (utf8_encode uni, rest)
          end
        else Ok (utf8_encode uni, rest)
      else if n =? 34 then Ok (String quote "", s')
      else if n =? 92 then Ok (String backslash "", s')
      else if n =? 47 then Ok ("/", s')
      else if n =? 98 then Ok (String (chr 8) "", s')
      else if n =? 102 then Ok (String (chr 12) "", s')
      else if n =? 110 then Ok (String (chr 10) "", s')
      else if n =? 114 then Ok (String (chr 13) "", s')
      else if n =? 116 then Ok (String (chr 9) "", s')
      else Raise JSONDecodeError
  end.

(** [scanstring] in strict mode, from the character after the opening
    quote: the decoded string and the text after the closing quote.
    One unit of [fuel] is spent per decoded character. *)
Fixpoint scanstring_fuel (fuel : nat) (s : string) : result (string * string) :=
  match fuel with
  | O => Raise JSONDecodeError
  | S fuel' =>
      match s with
      | EmptyString => Raise JSONDecodeError
      | String c s' =>
          let n := code c in
          if n =? 34 then Ok ("", s')
          else if n =? 92 then
            '(char, rest) <- scan_escape s' ;;
            '(str, rest') <- scanstring_fuel fuel' rest ;;
            Ok (char ++ str, rest')
          else if n <? 32 then Raise JSONDecodeError
          else
            '(str, rest) <- scanstring_fuel fuel' s' ;;
            Ok (String c str, rest)
      end
  end.

Definition scanstring (s : string) : result (string * string) :=
  scanstring_fuel (S (String.length s)) s.

(** The longest prefix of digits, and what follows it. *)
Fixpoint span_digits (s : string) : string * string :=
  match s with
  | String c s' =>
      if is_ascii_digit c then
        let '(ds, rest) := span_digits s' in (String c ds, rest)
      else (EmptyString, s)
  | EmptyString => (EmptyString, EmptyString)
  end.

(** [NUMBER_RE.match].  A number is an integer group (an optional
    minus sign, then a single 0 or a non-zero digit and more digits), an
    optional fraction (a point and digits) and an optional exponent
    (e or E, an optional sign, digits).  The result is the three groups
    and the text after the match. *)
Definition match_integer (s : string) : option (string * string) :=
  let '(sign, s1) :=
    match s with
    | String "-" s' => ("-", s')
    | _ => ("", s)
    end in
  match s1 with
  | String "0" rest => Some (sign ++ "0", rest)
  | String c _ =>
      if is_ascii_digit c then
        let '(ds, rest) := span_digits s1 in Some (sign ++ ds, rest)
      else None
  | EmptyString => None
  end.

Definition match_frac (s : string) : string * string :=
  match s with
  | String "." (String c _ as s') =>
      if is_ascii_digit c then
        let '(ds, rest) := span_digits s' in (String "." ds, rest)
      else (EmptyString, s)
  | _ => (EmptyString, s)
  end.

Definition match_exp (s : string) : string * string :=
  match s with
  | String e s' =>
      if Ascii.eqb e "e" || Ascii.eqb e "E" then
        let '(sign, s'') :=
          match s' with
          | String "-" t => ("-", t)
          | String "+" t => ("+", t)
          | _ => ("", s')
          end in
        match s'' with
        | String c _ =>
            if is_ascii_digit c then
              let '(ds, rest) := span_digits s'' in
              (String e (sign ++ ds), rest)
            else (EmptyString, s)
        | EmptyString => (EmptyString, s)
        end
      else (EmptyString, s)
  | EmptyString => (EmptyString, s)
  end.

Definition match_number (s : string)
  : option (string * string * string * string) :=
  match match_integer s with
  | None => None
  | Some (integer, s1) =>
      let '(frac, s2) := match_frac s1 in
      let '(exp, s3) := match_exp s2 in
      Some (integer, frac, exp, s3)
  end.

(** [int(integer)] for a matched integer group. *)
Definition parse_int (integer : string) : result Z :=
  match integer with
  | String "-" ds => n <- parse_digits ds ;; Ok (- n)
  | _ => parse_digits integer
  end.

(** The number at the head of [s], if there is one. *)
Definition scan_number (s : string) : option (result (value * string)) :=
  match match_number s with
  | None => None
  | Some (integer, frac, exp, rest) =>
      Some
        match frac, exp with
        | EmptyString, EmptyString =>
            n <- parse_int integer ;; Ok (VInt n, rest)
        | _, _ =>
            match float_of_str (integer ++ frac ++ exp) with
            | Some x => Ok (VFloat x, rest)
            | None => Raise ValueError
            end
        end
  end.

Fixpoint starts_with (prefix s : string) : option string :=
  match prefix, s with
  | EmptyString, _ => Some s
  | String c p', String c' s' =>
      if Ascii.eqb c c' then starts_with p' s' else None
  | String _ _, EmptyString => None
  end.

(** [dict(pairs)]: a repeated key keeps its first place and takes the
    last value. *)
Definition dict_of_pairs (pairs : list (string * value)) : dict value :=
  fold_left (fun d kv => modify d (fst kv) (snd kv) (fun _ => snd kv)) pairs [].

(** [scan_once], [JSONArray] and [JSONObject].  [fuel] bounds the number
    of nested calls; running out of it is Python's [RecursionError]. *)
Fixpoint scan_once (fuel : nat) (s : string) : result (value * string) :=
  match fuel with
  | O => Raise RecursionError
  | S fuel' =>
      match s with
      | EmptyString => Raise JSONDecodeError
      | String c s' =>
          let n := code c in
          if n =? 34 then
            '(str, rest) <- scanstring s' ;; Ok (VStr str, rest)
          else if n =? 123 then
            match skip_ws s' with
            | String c1 rest =>
                if code c1 =? 125 then Ok (VDict [], rest)
                else if code c1 =? 34 then object_loop fuel' rest []
                else Raise JSONDecodeError
            | EmptyString => Raise JSONDecodeError
            end
          else if n =? 91 then
            match skip_ws s' with
            | String c1 rest as s1 =>
                if code c1 =? 93 then Ok (VList [], rest)
                else array_loop fuel' s1 []
            | EmptyString => Raise JSONDecodeError
            end
          else
            match starts_with "null" s, starts_with "true" s,
                  starts_with "false" s with
            | Some rest, _, _ => Ok (VNone, rest)
            | _, Some rest, _ => Ok (VBool true, rest)
            | _, _, Some rest => Ok (VBool false, rest)
            | None, None, None =>
                match scan_number s with
                | Some r => r
                | None =>
                    match starts_with "NaN" s, starts_with "Infinity" s,
                          starts_with "-Infinity" s with
                    | Some rest, _, _ => Ok (VFloat nan, rest)
                    | _, Some rest, _ => Ok (VFloat infinity, rest)
                    | _, _, Some rest => Ok (VFloat neg_infinity, rest)
                    | None, None, None => Raise JSONDecodeError
                    end
                end
            end
      end
  end

(** The [while True] loop of [JSONArray], at the start of a value;
    [values] holds the values read so far, last first. *)
with array_loop (fuel : nat) (s : string) (values : list value)
  : result (value * string) :=
  match fuel with
  | O => Raise RecursionError
  | S fuel' =>
      '(v, rest) <- scan_once fuel' s ;;
      match skip_ws rest with
      | String c rest' =>
          if code c =? 93 then Ok (VList (rev (v :: values)), rest')
          else if code c =? 44 then array_loop fuel' (skip_ws rest') (v :: values)
          else Raise JSONDecodeError
      | EmptyString => Raise JSONDecodeError
      end
  end

(** The [while True] loop of [JSONObject], after the opening quote of a
    key; [pairs] holds the pairs read so far, last first. *)
with object_loop (fuel : nat) (s : string) (pairs : list (string * value))
  : result (value * string) :=
  match fuel with
  | O => Raise RecursionError
  | S fuel' =>
      '(key, rest) <- scanstring s ;;
      match skip_ws rest with
      | String c rest1 =>
          if code c =? 58 then
            '(v, rest2) <- scan_once fuel' (skip_ws rest1) ;;
            match skip_ws rest2 with
            | String c2 rest3 =>
                if code c2 =? 125
                then Ok (VDict (dict_of_pairs (rev ((key, v) :: pairs))), rest3)
                else if code c2 =? 44 then
                  match skip_ws rest3 with
                  | String c3 rest4 =>
                      if code c3 =? 34
                      then object_loop fuel' rest4 ((key, v) :: pairs)
                      else Raise JSONDecodeError
                  | EmptyString => Raise JSONDecodeError
                  end
                else Raise JSONDecodeError
            | EmptyString => Raise JSONDecodeError
            end
          else Raise JSONDecodeError
      | EmptyString => Raise JSONDecodeError
      end
  end.

(** [json.loads(s)] for a [str]: one value, with white space around it
    and nothing else.  A text of [n] bytes needs fewer than [n + 2]
    nested calls. *)
Definition loads (s : string) : result value :=
  match starts_with (String (chr 239) (String (chr 187) (String (chr 191) ""))) s with
  | Some _ => Raise JSONDecodeError
  | None =>
      '(obj, rest) <- scan_once (String.length s + 2) (skip_ws s) ;;
      match skip_ws rest with
      | EmptyString => Ok obj
      | String _ _ => Raise JSONDecodeError
      end
  end.

End Codec.

End Json.

(* ================================================================== *)
(** * schemas.py *)
(* ================================================================== *)

(** pydantic turns a [ValueError] or [TypeError] raised while a field is
    validated into a [ValidationError]; other exceptions pass. *)
Definition validation (A : Type) (r : result A) : result A :=
  match r with
  | Raise ValueError | Raise TypeError | Raise JSONDecodeError =>
      Raise ValidationError
  | _ => r
  end.

Module EmotionIntensity.

Record t := mk {
  name : string;
  intensity : float
}.

(** The constraints [ge=0.0] and [le=1.0] of [intensity], checked with
    the float comparisons [>=] and [<=]. *)
Definition check_intensity (intensity : float) : result float :=
  if negb (PrimFloat.leb 0 intensity) then Raise ValidationError
  else if negb (PrimFloat.leb intensity 1) then Raise ValidationError
  else Ok intensity.

(** [EmotionIntensity(name=..., intensity=...)] for a [str] and a
    [float]. *)
Definition new (name : string) (intensity : float) : result t :=
  intensity <- check_intensity intensity ;;
  Ok (mk name intensity).

Section Codec.
Variable float_repr : float -> string.
Variable float_of_str : string -> option float.

(** pydantic's validator of a [str] field: a number is turned into its
    text, anything but a string, a number or bytes is refused. *)
Definition str_validator (v : value) : result string :=
  match v with
  | VStr s => Ok s
  | VInt n => Ok (str_of_int n)
  | VBool b => Ok (if b then "True" else "False")
  | VFloat x => Ok (float_repr x)
  | VBytes b => Ok b
  | _ => Raise ValidationError
  end.

(** pydantic's validator of a [float] field: [float(v)], refused when
    that raises [TypeError] or [ValueError]. *)
Definition float_validator (v : value) : result float :=
  match v with
  | VFloat x => Ok x
  | VInt n =>
      let x := float_of_int n in
      if PrimFloat.eqb (PrimFloat.abs x) infinity then Raise OverflowError
      else Ok x
  | VBool b => Ok (if b then 1%float else 0%float)
  | VStr s | VBytes s =>
      match float_of_str s with
      | Some x => Ok x
      | None => Raise ValidationError
      end
  | _ => Raise ValidationError
  end.

(** [EmotionIntensity] built from the keywords of a mapping [item]
    (the call with two stars before [item]): both fields are
    required, other keys are ignored, and every field is validated
    before the errors are reported. *)
Definition from_kwargs (item : dict value) : result t :=
  let name :=
    match get item "name" with
    | Some v => str_validator v
    | None => Raise ValidationError
    end in
  let intensity :=
    match get item "intensity" with
    | Some v => x <- float_validator v ;; check_intensity x
    | None => Raise ValidationError
    end in
  match intensity with
  | Raise OverflowError => Raise OverflowError
  | _ => n <- name ;; x <- intensity ;; Ok (mk n x)
  end.

(** [e.dict()] *)
Definition to_dict (e : t) : value :=
  VDict [("name", VStr (name e)); ("intensity", VFloat (intensity e))].

End Codec.

End EmotionIntensity.

(** The [timestamp] validator that both record classes declare
    ([@validator("timestamp", pre=True)]).  [bool] is a subclass of
    [int]. *)
Definition parse_timestamp (v : value) : result value :=
  match v with
  | VInt n => d <- Datetime.utcfromtimestamp_int n ;; Ok (VDatetime d)
  | VBool b =>
      d <- Datetime.utcfromtimestamp_int (if b then 1 else 0) ;;
      Ok (VDatetime d)
  | VFloat x => d <- Datetime.utcfromtimestamp_float x ;; Ok (VDatetime d)
  | VStr s => d <- Datetime.fromisoformat s ;; Ok (VDatetime d)
  | _ => Ok v
  end.

(** The [timestamp] field of a record under construction: the
    validator above runs first, and the field's own datetime validation
    [datetime_field] (pydantic's) receives what it returns. *)
Definition timestamp_field (datetime_field : value -> result Datetime.datetime)
  (v : value) : result Datetime.datetime :=
  v' <- validation (parse_timestamp v) ;;
  datetime_field v'.

Module FamiliarInteraction.

Record t := mk {
  timestamp : Datetime.datetime;
  familiar_id : string;
  interaction_type : string;
  emotions : list EmotionIntensity.t;
  notes : option string;
  model_id : option string
}.

Definition parse_timestamp := parse_timestamp.

End FamiliarInteraction.

Module RitualOutcome.

Record t := mk {
  timestamp : Datetime.datetime;
  ritual_name : string;
  success : bool;
  outcome_description : option string;
  emotions : list EmotionIntensity.t;
  notes : option string;
  model_id : option string
}.

Definition parse_timestamp := parse_timestamp.

End RitualOutcome.

Module PatternInsight.

Record t := mk {
  description : string;
  metrics : dict float;
  related_entities : option (dict (list string))
}.

End PatternInsight.

(* ================================================================== *)
(** * patterns.py *)
(* ================================================================== *)

Module Patterns.

(** [for e in emotions: counter[e.name] += 1] *)
Definition count_names (counter : dict Z) (emotions : list EmotionIntensity.t)
  : dict Z :=
  fold_left
    (fun c e => modify c (EmotionIntensity.name e) 0 (fun n => n + 1))
    emotions counter.

Definition aggregate_emotion_counts
  (interactions : list FamiliarInteraction.t) (rituals : list RitualOutcome.t)
  : dict Z :=
  let counter : dict Z := [] in
  let counter :=
    fold_left (fun c inter => count_names c (FamiliarInteraction.emotions inter))
      interactions counter in
  let counter :=
    fold_left (fun c rit => count_names c (RitualOutcome.emotions rit))
      rituals counter in
  counter.

(** The loop keeps the pair [(total, successes)]. *)
Definition compute_success_rate (rituals : list RitualOutcome.t) : float :=
  let '(total, successes) :=
    fold_left
      (fun '(total, successes) r =>
         let total := total + 1 in
         let successes :=
           if RitualOutcome.success r then successes + 1 else successes in
         (total, successes))
      rituals (0, 0) in
  if 0 <? total then int_truediv successes total else 0%float.

(** [model_id or "unknown"]: [None] and the empty string are both
    falsy. *)
Definition model_key (model_id : option string) : string :=
  match model_id with
  | None => "unknown"
  | Some "" => "unknown"
  | Some m => m
  end.

(** [for e in emotions: result[key][e.name] += 1] on a
    [defaultdict(lambda: defaultdict(int))]: the entry for [key] is
    created by the first emotion counted under it. *)
Definition count_names_under (key : string) (result : dict (dict Z))
  (emotions : list EmotionIntensity.t) : dict (dict Z) :=
  fold_left
    (fun res e =>
       modify res key []
         (fun inner => modify inner (EmotionIntensity.name e) 0 (fun n => n + 1)))
    emotions result.

Definition emotion_counts_by_model
  (interactions : list FamiliarInteraction.t) (rituals : list RitualOutcome.t)
  : dict (dict Z) :=
  let result : dict (dict Z) := [] in
  let result :=
    fold_left
      (fun res inter =>
         let key := model_key (FamiliarInteraction.model_id inter) in
         count_names_under key res (FamiliarInteraction.emotions inter))
      interactions result in
  let result :=
    fold_left
      (fun res rit =>
         let key := model_key (RitualOutcome.model_id rit) in
         count_names_under key res (RitualOutcome.emotions rit))
      rituals result in
  map_values (fun v => v) result.

(** [stats[e.name][0] += 1] or [stats[e.name][1] += 1] on a
    [defaultdict(lambda: [0, 0])]; the two-element lists are pairs. *)
Definition ritual_success_by_emotion (rituals : list RitualOutcome.t)
  : dict (Z * Z) :=
  let stats : dict (Z * Z) := [] in
  let stats :=
    fold_left
      (fun st r =>
         fold_left
           (fun st e =>
              if RitualOutcome.success r then
                modify st (EmotionIntensity.name e) (0, 0)
                  (fun c => (fst c + 1, snd c))
              else
                modify st (EmotionIntensity.name e) (0, 0)
                  (fun c => (fst c, snd c + 1)))
           (RitualOutcome.emotions r) st)
      rituals stats in
  map_values (fun counts => (fst counts, snd counts)) stats.

Definition len {A} (l : list A) : Z := Z.of_nat (List.length l).

Definition generate_insights
  (interactions : list FamiliarInteraction.t) (rituals : list RitualOutcome.t)
  : list PatternInsight.t :=
  let insights : list PatternInsight.t := [] in
  (* Overall emotion frequency *)
  let emotion_counts := aggregate_emotion_counts interactions rituals in
  let insights :=
    match emotion_counts with
    | [] => insights
    | _ =>
        let top_emotions :=
          firstn 3 (sorted_reverse (@snd string Z) Z.ltb emotion_counts) in
        let description :=
          "The most frequently experienced emotions across all interactions and rituals "
          ++ "are: "
          ++ String.concat ", "
               (map (fun nc => fst nc ++ " (" ++ str_of_int (snd nc) ++ ")")
                  top_emotions)
          ++ "." in
        let metrics := map_values float_of_int emotion_counts in
        let related_entities := [("emotions", map fst top_emotions)] in
        (insights ++ [PatternInsight.mk description metrics (Some related_entities)])%list
    end in
  (* Ritual success rate *)
  let success_rate := compute_success_rate rituals in
  let description :=
    "Overall ritual success rate is "
    ++ format_float_f 1 (success_rate * 100)%float
    ++ "% across " ++ str_of_int (len rituals) ++ " rituals." in
  let metrics :=
    [("success_rate", success_rate); ("ritual_count", float_of_int (len rituals))] in
  let insights :=
    (insights ++
     [PatternInsight.mk description metrics
        (Some [("rituals", map RitualOutcome.ritual_name rituals)])])%list in
  (* Emotion by model *)
  let by_model := emotion_counts_by_model interactions rituals in
  let insights :=
    if 1 <? len by_model then
      let model_stats := map_values (fun counts : dict Z => len counts) by_model in
      let best_model :=
        match model_stats with
        | x :: l => fst (max_by (@snd string Z) Z.ltb x l)
        | [] => ""
        end in
      let description :=
        "Model '" ++ best_model ++ "' exhibited the broadest range of emotions ("
        ++ str_of_int (match get model_stats best_model with Some n => n | None => 0 end)
        ++ " unique emotions)." in
      let metrics :=
        map_values (fun counts : dict Z => float_of_int (len counts)) by_model in
      (insights ++
       [PatternInsight.mk description metrics (Some [("models", keys by_model)])])%list
    else insights in
  (* Success by emotion *)
  let success_by_emotion := ritual_success_by_emotion rituals in
  let insights :=
    match success_by_emotion with
    | [] => insights
    | _ =>
        let success_ratio :=
          map_values
            (fun sf : Z * Z =>
               let '(succ, fail) := sf in
               if 0 <? succ + fail then int_truediv succ (succ + fail)
               else 0%float)
            success_by_emotion in
        let top_positive :=
          firstn 3 (sorted_reverse (@snd string float) PrimFloat.ltb success_ratio) in
        let description :=
          "Emotions most correlated with successful rituals: "
          ++ String.concat ", "
               (map (fun nr =>
                       fst nr ++ " (" ++ format_float_f 0 (snd nr * 100)%float ++ "%)")
                  top_positive)
          ++ "." in
        let metrics := map_values (fun ratio : float => ratio) success_ratio in
        let related_entities := [("emotions", map fst top_positive)] in
        (insights ++ [PatternInsight.mk description metrics (Some related_entities)])%list
    end in
  insights.

End Patterns.


(* ================================================================== *)
(** * db.py *)
(* ================================================================== *)

Module Db.

(** ** The SQLite file

    Two tables with an [INTEGER PRIMARY KEY AUTOINCREMENT] each; a table
    is its rows in rowid order together with the largest rowid it has
    ever held (SQLite's [sqlite_sequence]).  [TEXT] columns hold
    strings, nullable columns an [option]. *)
Record interaction_row := mk_interaction_row {
  i_id : Z;
  i_timestamp : string;
  i_familiar_id : string;
  i_interaction_type : string;
  i_emotions : string;
  i_notes : option string;
  i_model_id : option string
}.

Record ritual_row := mk_ritual_row {
  r_id : Z;
  r_timestamp : string;
  r_ritual_name : string;
  r_success : Z;
  r_outcome_description : option string;
  r_emotions : string;
  r_notes : option string;
  r_model_id : option string
}.

Record database := mk_database {
  interactions : list interaction_row;
  interactions_seq : Z;
  rituals : list ritual_row;
  rituals_seq : Z
}.

(** The file after [init_db] has created the tables. *)
Definition empty : database := mk_database [] 0 [] 0.

(** [init_db]: [CREATE TABLE IF NOT EXISTS] leaves existing tables and
    their rows as they are. *)
Definition init_db (db : option database) : database :=
  match db with
  | Some db => db
  | None => empty
  end.

(** The [WHERE] clause built by [get_interactions] and [get_rituals]:
    [1=1], then [AND model_id = ?], [AND timestamp >= ?] and
    [AND timestamp <= ?] for the filters given.  A [NULL] [model_id]
    equals nothing; text is compared byte by byte. *)
Definition where_clause (model_id : option string)
  (start end_ : option Datetime.datetime)
  (row_model_id : option string) (row_timestamp : string) : bool :=
  true
  && match model_id with
     | Some m =>
         match row_model_id with
         | Some m' => String.eqb m' m
         | None => false
         end
     | None => true
     end
  && match start with
     | Some d => String.leb (Datetime.isoformat d) row_timestamp
     | None => true
     end
  && match end_ with
     | Some d => String.leb row_timestamp (Datetime.isoformat d)
     | None => true
     end.

Section Codec.
Variable float_repr : float -> string.
Variable float_of_str : string -> option float.

(** ** Serialization of the emotion list *)

Definition _serialize_emotions (emotions : list EmotionIntensity.t) : result string :=
  Json.dumps float_repr (VList (map EmotionIntensity.to_dict emotions)).

(** The items of [for item in raw]: a list yields its elements, a
    dictionary its keys, a string its characters; nothing else can be
    iterated.  Only the emptiness of a string matters below, so its
    characters are given byte by byte. *)
Definition iterate (raw : value) : result (list value) :=
  match raw with
  | VList l => Ok l
  | VDict d => Ok (map (fun k => VStr k) (keys d))
  | VStr s | VBytes s =>
      Ok (map (fun c => VStr (String c "")) (list_ascii_of_string s))
  | _ => Raise TypeError
  end.

(** The call of [EmotionIntensity] with two stars before [item]: the
    argument must be a mapping. *)
Definition emotion_of_item (item : value) : result EmotionIntensity.t :=
  match item with
  | VDict d => EmotionIntensity.from_kwargs float_repr float_of_str d
  | _ => Raise TypeError
  end.

Definition _deserialize_emotions (data : string) : result (list EmotionIntensity.t) :=
  match data with
  | EmptyString => Ok []
  | _ =>
      match Json.loads float_of_str data with
      | Raise _ => Ok []
      | Ok raw =>
          items <- iterate raw ;;
          mapM emotion_of_item items
      end
  end.

(** ** Inserts *)

Definition add_interaction (interaction : FamiliarInteraction.t) (db : database)
  : result (Z * database) :=
  emotions_json <- _serialize_emotions (FamiliarInteraction.emotions interaction) ;;
  let lastrowid := interactions_seq db + 1 in
  let row :=
    mk_interaction_row lastrowid
      (Datetime.isoformat (FamiliarInteraction.timestamp interaction))
      (FamiliarInteraction.familiar_id interaction)
      (FamiliarInteraction.interaction_type interaction)
      emotions_json
      (FamiliarInteraction.notes interaction)
      (FamiliarInteraction.model_id interaction) in
  Ok (lastrowid,
      mk_database (interactions db ++ [row])%list lastrowid
        (rituals db) (rituals_seq db)).

Definition add_ritual (outcome : RitualOutcome.t) (db : database)
  : result (Z * database) :=
  emotions_json <- _serialize_emotions (RitualOutcome.emotions outcome) ;;
  let lastrowid := rituals_seq db + 1 in
  let row :=
    mk_ritual_row lastrowid
      (Datetime.isoformat (RitualOutcome.timestamp outcome))
      (RitualOutcome.ritual_name outcome)
      (if RitualOutcome.success outcome then 1 else 0)
      (RitualOutcome.outcome_description outcome)
      emotions_json
      (RitualOutcome.notes outcome)
      (RitualOutcome.model_id outcome) in
  Ok (lastrowid,
      mk_database (interactions db) (interactions_seq db)
        (rituals db ++ [row])%list lastrowid).

(** ** Queries *)

(** The body of the [for row in rows] loop of [get_interactions]. *)
Definition interaction_of_row (row : interaction_row) : result FamiliarInteraction.t :=
  emotions <- _deserialize_emotions (i_emotions row) ;;
  timestamp <- Datetime.fromisoformat (i_timestamp row) ;;
  Ok (FamiliarInteraction.mk timestamp (i_familiar_id row)
        (i_interaction_type row) emotions (i_notes row) (i_model_id row)).

Definition get_interactions (model_id : option string)
  (start end_ : option Datetime.datetime) (db : database)
  : result (list FamiliarInteraction.t) :=
  let rows :=
    filter
      (fun row => where_clause model_id start end_ (i_model_id row) (i_timestamp row))
      (interactions db) in
  mapM interaction_of_row rows.

(** The body of the [for row in rows] loop of [get_rituals];
    [bool(row["success"])] is true for every integer but 0. *)
Definition ritual_of_row (row : ritual_row) : result RitualOutcome.t :=
  emotions <- _deserialize_emotions (r_emotions row) ;;
  timestamp <- Datetime.fromisoformat (r_timestamp row) ;;
  Ok (RitualOutcome.mk timestamp (r_ritual_name row)
        (negb (r_success row =? 0)) (r_outcome_description row)
        emotions (r_notes row) (r_model_id row)).

Definition get_rituals (model_id : option string)
  (start end_ : option Datetime.datetime) (db : database)
  : result (list RitualOutcome.t) :=
  let rows :=
    filter
      (fun row => where_clause model_id start end_ (r_model_id row) (r_timestamp row))
      (rituals db) in
  mapM ritual_of_row rows.

End Codec.

End Db.

(* ================================================================== *)
(** * server.py *)
(* ================================================================== *)

(** The resources and tools that [create_mcp_server] registers, as
    functions of the database file (which [init_db] has created).  Their
    arguments arrive typed as declared, and building a record from typed
    values returns these values as its fields. *)
Module Server.

Section Codec.
Variable float_repr : float -> string.
Variable float_of_str : string -> option float.

(** [datetime.fromisoformat(s) if s else None]: a bound that is absent
    and the empty string are both falsy. *)
Definition bound_of (s : option string) : result (option Datetime.datetime) :=
  match s with
  | None => Ok None
  | Some EmptyString => Ok None
  | Some s => d <- Datetime.fromisoformat s ;; Ok (Some d)
  end.

(** The resource [sanctuary://interactions]. *)
Definition get_interactions (model_id start end_ : option string)
  (db : Db.database) : result (list FamiliarInteraction.t) :=
  start_dt <- bound_of start ;;
  end_dt <- bound_of end_ ;;
  Db.get_interactions float_repr float_of_str model_id start_dt end_dt db.

(** The resource [sanctuary://rituals]. *)
Definition get_rituals (model_id start end_ : option string)
  (db : Db.database) : result (list RitualOutcome.t) :=
  start_dt <- bound_of start ;;
  end_dt <- bound_of end_ ;;
  Db.get_rituals float_repr float_of_str model_id start_dt end_dt db.

(** The resource [sanctuary://insights]. *)
Definition get_insights (db : Db.database) : result (list PatternInsight.t) :=
  interactions <- Db.get_interactions float_repr float_of_str None None None db ;;
  rituals <- Db.get_rituals float_repr float_of_str None None None db ;;
  Ok (Patterns.generate_insights interactions rituals).

(** [datetime.fromisoformat(timestamp) if timestamp else
    datetime.utcnow()]; [utcnow] is what the clock gives at the call. *)
Definition timestamp_or_now (utcnow : Datetime.datetime)
  (timestamp : option string) : result Datetime.datetime :=
  match timestamp with
  | None => Ok utcnow
  | Some EmptyString => Ok utcnow
  | Some s => Datetime.fromisoformat s
  end.

(** [emotions or []] *)
Definition emotions_or_empty (emotions : option (list EmotionIntensity.t))
  : list EmotionIntensity.t :=
  match emotions with
  | Some l => l
  | None => []
  end.

(** The tool [log_interaction]. *)
Definition log_interaction (utcnow : Datetime.datetime)
  (familiar_id interaction_type : string)
  (emotions : option (list EmotionIntensity.t))
  (notes model_id timestamp : option string)
  (db : Db.database) : result (Z * Db.database) :=
  ts <- timestamp_or_now utcnow timestamp ;;
  let interaction :=
    FamiliarInteraction.mk ts familiar_id interaction_type
      (emotions_or_empty emotions) notes model_id in
  Db.add_interaction float_repr interaction db.

(** The tool [log_ritual]. *)
Definition log_ritual (utcnow : Datetime.datetime)
  (ritual_name : string) (success : bool)
  (emotions : option (list EmotionIntensity.t))
  (outcome_description notes model_id timestamp : option string)
  (db : Db.database) : result (Z * Db.database) :=
  ts <- timestamp_or_now utcnow timestamp ;;
  let outcome :=
    RitualOutcome.mk ts ritual_name success outcome_description
      (emotions_or_empty emotions) notes model_id in
  Db.add_ritual float_repr outcome db.

(** The tool [query_emotions_by_model]. *)
Definition query_emotions_by_model (db : Db.database) : result (dict (dict Z)) :=
  interactions <- Db.get_interactions float_repr float_of_str None None None db ;;
  rituals <- Db.get_rituals float_repr float_of_str None None None db ;;
  Ok (Patterns.emotion_counts_by_model interactions rituals).

(** The tool [query_ritual_insights]. *)
Definition query_ritual_insights (ritual_name : string)
  (model_id : option string) (db : Db.database)
  : result (list PatternInsight.t) :=
  all <- Db.get_rituals float_repr float_of_str model_id None None db ;;
  let rituals :=
    filter (fun r => String.eqb (RitualOutcome.ritual_name r) ritual_name) all in
  match rituals with
  | [] => Ok []
  | _ => Ok (Patterns.generate_insights [] rituals)
  end.

End Codec.

End Server.

(* ================================================================== *)
(** * Facts about dictionaries *)
(* ================================================================== *)

Module DictFacts.

Definition get_default {V} (d : dict V) (k : string) (dflt : V) : V :=
  match get d k with
  | Some v => v
  | None => dflt
  end.

Lemma get_modify_same V (d : dict V) k dflt f :
  get (modify d k dflt f) k = Some (f (get_default d k dflt)).
Proof.
  unfold get_default.
  induction d as [|[k' v] d IH]; simpl.
  - now rewrite String.eqb_refl.
  - destruct (String.eqb k k') eqn:E; simpl; rewrite E; auto.
Qed.

Lemma get_modify_other V (d : dict V) k k' dflt f :
  k' <> k -> get (modify d k dflt f) k' = get d k'.
Proof.
  intros Hne. apply String.eqb_neq in Hne.
  induction d as [|[k0 v] d IH]; simpl.
  - now rewrite Hne.
  - destruct (String.eqb k k0) eqn:E; simpl.
    + apply String.eqb_eq in E. subst k0. now rewrite Hne.
    + now rewrite IH.
Qed.

Lemma modify_not_nil V (d : dict V) k dflt f : modify d k dflt f <> [].
Proof.
  destruct d as [|[k' v] d]; simpl; [discriminate|].
  destruct (String.eqb k k'); discriminate.
Qed.

Lemma keys_modify V (d : dict V) k dflt f :
  keys (modify d k dflt f) =
  if existsb (String.eqb k) (keys d) then keys d else (keys d ++ [k])%list.
Proof.
  induction d as [|[k' v] d IH]; simpl; [reflexivity|].
  destruct (String.eqb k k') eqn:E; simpl.
  - apply String.eqb_eq in E. now subst.
  - unfold keys in *. rewrite IH.
    now destruct (existsb (String.eqb k) (map fst d)).
Qed.

Lemma get_None_iff V (d : dict V) k : get d k = None <-> ~ In k (keys d).
Proof.
  induction d as [|[k' v] d IH]; simpl; [tauto|].
  destruct (String.eqb k k') eqn:E.
  - apply String.eqb_eq in E. subst. split; [discriminate|tauto].
  - apply String.eqb_neq in E. rewrite IH. intuition congruence.
Qed.

Lemma get_Some_In V (d : dict V) k : get d k <> None <-> In k (keys d).
Proof.
  rewrite get_None_iff. split; [|tauto].
  intros H. destruct (in_dec string_dec k (keys d)); tauto.
Qed.

Lemma map_values_id V (d : dict V) : map_values (fun v => v) d = d.
Proof.
  unfold map_values. induction d as [|[k v] d IH]; simpl; congruence.
Qed.

Lemma get_map_values V W (f : V -> W) (d : dict V) k :
  get (map_values f d) k = option_map f (get d k).
Proof.
  unfold map_values.
  induction d as [|[k' v] d IH]; simpl; [reflexivity|].
  now destruct (String.eqb k k').
Qed.

(** Keys stay unique under the updates the code performs. *)
Lemma NoDup_keys_modify V (d : dict V) k dflt f :
  NoDup (keys d) -> NoDup (keys (modify d k dflt f)).
Proof.
  intros Hnd. rewrite keys_modify.
  destruct (existsb (String.eqb k) (keys d)) eqn:E; [assumption|].
  apply NoDup_app; [assumption|constructor; [intros []|constructor]|].
  intros x Hx [Heq|[]]. subst x.
  assert (existsb (String.eqb k) (keys d) = true); [|congruence].
  apply existsb_exists. exists k. split; [assumption|apply String.eqb_refl].
Qed.

End DictFacts.

(* ================================================================== *)
(** * The insight engine: what the aggregations compute *)
(* ================================================================== *)

Module PatternsSpec.
Import Patterns DictFacts.

(** ** Reference quantities, written from the specification's words *)

Fixpoint sumZ (l : list Z) : Z :=
  match l with
  | [] => 0
  | x :: l' => x + sumZ l'
  end.

(** The number of entries of an emotion list that carry the name [n]. *)
Definition occurrences (n : string) (es : list EmotionIntensity.t) : Z :=
  len (filter (fun e => String.eqb (EmotionIntensity.name e) n) es).

(** The number of rituals marked successful. *)
Definition success_count (rituals : list RitualOutcome.t) : Z :=
  len (filter RitualOutcome.success rituals).

(** Entries named [n] over the interactions and rituals grouped under
    the key [k]. *)
Definition tally_by_model (k n : string)
  (interactions : list FamiliarInteraction.t) (rituals : list RitualOutcome.t) : Z :=
  sumZ (map (fun i =>
          if String.eqb (model_key (FamiliarInteraction.model_id i)) k
          then occurrences n (FamiliarInteraction.emotions i) else 0) interactions)
  + sumZ (map (fun r =>
          if String.eqb (model_key (RitualOutcome.model_id r)) k
          then occurrences n (RitualOutcome.emotions r) else 0) rituals).

(** Entries named [n] over the rituals whose [success] flag is [b]. *)
Definition tally_by_outcome (b : bool) (n : string) (rituals : list RitualOutcome.t) : Z :=
  sumZ (map (fun r =>
          if Bool.eqb (RitualOutcome.success r) b
          then occurrences n (RitualOutcome.emotions r) else 0) rituals).

(** The rituals with [success = b] that carry an emotion named [n]. *)
Definition rituals_carrying (b : bool) (n : string) (rituals : list RitualOutcome.t) : Z :=
  len (filter (fun r =>
         Bool.eqb (RitualOutcome.success r) b
         && existsb (fun e => String.eqb (EmotionIntensity.name e) n)
              (RitualOutcome.emotions r)) rituals).

(** [result[k][n]] of a two-level mapping, when both keys are there. *)
Definition lookup2 (d : dict (dict Z)) (k n : string) : option Z :=
  match get d k with
  | Some inner => get inner n
  | None => None
  end.

Lemma len_nonneg A (l : list A) : 0 <= len l.
Proof. unfold len. lia. Qed.

Lemma occurrences_nonneg n es : 0 <= occurrences n es.
Proof. apply len_nonneg. Qed.

Lemma len_nil A : len (@nil A) = 0.
Proof. reflexivity. Qed.

Lemma len_cons A (x : A) l : len (x :: l) = 1 + len l.
Proof. unfold len. cbn [List.length]. lia. Qed.

Lemma occurrences_cons n e es :
  occurrences n (e :: es) =
  (if String.eqb (EmotionIntensity.name e) n then 1 else 0) + occurrences n es.
Proof.
  unfold occurrences. cbn [filter].
  destruct (String.eqb (EmotionIntensity.name e) n); [apply len_cons|reflexivity].
Qed.

Lemma success_count_cons r rituals :
  success_count (r :: rituals) =
  (if RitualOutcome.success r then 1 else 0) + success_count rituals.
Proof.
  unfold success_count. simpl.
  destruct (RitualOutcome.success r); [apply len_cons|reflexivity].
Qed.

(** ** compute_success_rate *)

Lemma success_loop rituals total successes :
  fold_left
    (fun '(total, successes) r =>
       let total := total + 1 in
       let successes :=
         if RitualOutcome.success r then successes + 1 else successes in
       (total, successes))
    rituals (total, successes)
  = (total + len rituals, successes + success_count rituals).
Proof.
  revert total successes.
  induction rituals as [|r rs IH]; intros total successes.
  - cbn [fold_left]. unfold success_count. cbn [filter].
    rewrite !len_nil, !Z.add_0_r. reflexivity.
  - cbn [fold_left]. rewrite IH, len_cons, success_count_cons.
    destruct (RitualOutcome.success r); f_equal; lia.
Qed.

Lemma compute_success_rate_eq rituals :
  compute_success_rate rituals =
  if 0 <? len rituals
  then int_truediv (success_count rituals) (len rituals)
  else 0%float.
Proof.
  unfold compute_success_rate. rewrite success_loop. reflexivity.
Qed.

(** C7. [compute_success_rate] of the empty collection is exactly [0.0]
    (no division happens); of a non-empty collection it is the number of
    rituals with [success = true] divided by the number of rituals; and
    of any three rituals whose flags are true, false, true it is the
    float [2/3]. *)
Theorem compute_success_rate_fraction :
  compute_success_rate [] = 0%float
  /\ (forall r rituals,
        compute_success_rate (r :: rituals) =
        int_truediv (success_count (r :: rituals)) (len (r :: rituals)))
  /\ (forall rituals,
        map RitualOutcome.success rituals = [true; false; true] ->
        compute_success_rate rituals = (2 / 3)%float).
Proof.
  split; [reflexivity|split].
  - intros r rituals. rewrite compute_success_rate_eq.
    assert (H : (0 <? len (r :: rituals)) = true).
    { apply Z.ltb_lt. rewrite len_cons. pose proof (len_nonneg rituals). lia. }
    now rewrite H.
  - intros rituals H. rewrite compute_success_rate_eq.
    destruct rituals as [|r1 [|r2 [|r3 [|r4 rs]]]]; try discriminate.
    simpl in H. injection H as H1 H2 H3.
    unfold success_count, len. simpl. rewrite H1, H2, H3. reflexivity.
Qed.

(** ** emotion_counts_by_model *)

Lemma sumZ_nonneg l : (forall x, In x l -> 0 <= x) -> 0 <= sumZ l.
Proof.
  induction l as [|x l IH]; simpl; intros H; [lia|].
  assert (0 <= x) by (apply H; auto).
  assert (0 <= sumZ l) by (apply IH; auto). lia.
Qed.

(** One execution of [result[key][nm] += 1]. *)
Definition bump (key nm : string) (d : dict (dict Z)) : dict (dict Z) :=
  modify d key [] (fun inner => modify inner nm 0 (fun n => n + 1)).

Definition count_of (o : option Z) : Z :=
  match o with
  | Some c => c
  | None => 0
  end.

Lemma lookup2_bump key nm d k n :
  lookup2 (bump key nm d) k n =
  if String.eqb k key && String.eqb n nm
  then Some (count_of (lookup2 d k n) + 1)
  else lookup2 d k n.
Proof.
  unfold lookup2, bump.
  destruct (String.eqb_spec k key) as [->|Hk]; simpl.
  - rewrite get_modify_same. unfold get_default.
    destruct (String.eqb_spec n nm) as [->|Hn].
    + rewrite get_modify_same. unfold get_default.
      destruct (get d key) as [inner|]; simpl; [|reflexivity].
      now destruct (get inner nm).
    + rewrite get_modify_other by assumption.
      now destruct (get d key).
  - now rewrite get_modify_other.
Qed.

(** The invariant of the grouping loops: the two-level dictionary holds
    exactly the positive values of the tally [T], no inner dictionary is
    empty, and keys are unique at both levels. *)
Record tallies (d : dict (dict Z)) (T : string -> string -> Z) : Prop := {
  tallies_lookup :
    forall k n, lookup2 d k n = if 0 <? T k n then Some (T k n) else None;
  tallies_nonneg : forall k n, 0 <= T k n;
  tallies_inner : forall k inner, get d k = Some inner -> inner <> [];
  tallies_keys : NoDup (keys d);
  tallies_inner_keys : forall k inner, get d k = Some inner -> NoDup (keys inner)
}.

Lemma tallies_empty : tallies [] (fun _ _ => 0).
Proof.
  constructor; simpl; try discriminate; try reflexivity; try lia.
  constructor.
Qed.

Lemma tallies_bump key nm d T T' :
  tallies d T ->
  (forall k n,
     T' k n = T k n + if String.eqb k key && String.eqb n nm then 1 else 0) ->
  tallies (bump key nm d) T'.
Proof.
  intros [Hl Hn Hi Hk Hik] HT. constructor.
  - intros k n. rewrite lookup2_bump, HT, Hl. specialize (Hn k n).
    destruct (String.eqb k key && String.eqb n nm).
    + destruct (0 <? T k n) eqn:E; simpl.
      * assert (H : (0 <? T k n + 1) = true) by (apply Z.ltb_lt; lia).
        now rewrite H.
      * apply Z.ltb_ge in E. now replace (T k n) with 0 by lia.
    + now rewrite Z.add_0_r.
  - intros k n. rewrite HT. specialize (Hn k n).
    destruct (String.eqb k key && String.eqb n nm); lia.
  - intros k inner. unfold bump.
    destruct (String.eqb_spec k key) as [->|Hne].
    + rewrite get_modify_same. intros [= <-]. apply modify_not_nil.
    + rewrite get_modify_other by assumption. apply Hi.
  - now apply NoDup_keys_modify.
  - intros k inner. unfold bump.
    destruct (String.eqb_spec k key) as [->|Hne].
    + rewrite get_modify_same. intros [= <-]. apply NoDup_keys_modify.
      unfold get_default. destruct (get d key) eqn:E; [eauto|constructor].
    + rewrite get_modify_other by assumption. apply Hik.
Qed.

Lemma tallies_count_names_under key es : forall d T T',
  tallies d T ->
  (forall k n,
     T' k n = T k n + if String.eqb k key then occurrences n es else 0) ->
  tallies (count_names_under key d es) T'.
Proof.
  unfold count_names_under.
  induction es as [|e es IH]; intros d T T' Hd HT; cbn [fold_left].
  - destruct Hd as [Hl Hn Hi Hk Hik].
    assert (E : forall k n, T' k n = T k n).
    { intros k n. rewrite HT. unfold occurrences. cbn [filter].
      rewrite len_nil. destruct (String.eqb k key); lia. }
    constructor; auto; intros k n; rewrite E; auto.
  - apply IH with
      (T := fun k n => T k n +
              if String.eqb k key && String.eqb n (EmotionIntensity.name e)
              then 1 else 0).
    + eapply tallies_bump; [exact Hd|reflexivity].
    + intros k n. rewrite HT, occurrences_cons.
      rewrite (String.eqb_sym n).
      destruct (String.eqb k key), (String.eqb (EmotionIntensity.name e) n);
        cbn [andb]; lia.
Qed.

Section Grouping.
Variable R : Type.
Variable model_id : R -> option string.
Variable emotions : R -> list EmotionIntensity.t.

Definition group_tally (k n : string) (records : list R) : Z :=
  sumZ (map (fun x =>
          if String.eqb (model_key (model_id x)) k
          then occurrences n (emotions x) else 0) records).

Lemma tallies_records records : forall d T T',
  tallies d T ->
  (forall k n, T' k n = T k n + group_tally k n records) ->
  tallies
    (fold_left
       (fun res x => count_names_under (model_key (model_id x)) res (emotions x))
       records d) T'.
Proof.
  induction records as [|x xs IH]; intros d T T' Hd HT; cbn [fold_left].
  - destruct Hd as [Hl Hn Hi Hk Hik].
    assert (E : forall k n, T' k n = T k n).
    { intros k n. rewrite HT. unfold group_tally. simpl. lia. }
    constructor; auto; intros k n; rewrite E; auto.
  - apply IH with
      (T := fun k n => T k n +
              if String.eqb k (model_key (model_id x))
              then occurrences n (emotions x) else 0).
    + eapply tallies_count_names_under; [exact Hd|reflexivity].
    + intros k n. rewrite HT. unfold group_tally. cbn [map sumZ].
      rewrite (String.eqb_sym k). lia.
Qed.

End Grouping.

Lemma emotion_counts_by_model_tallies interactions rituals :
  tallies (emotion_counts_by_model interactions rituals)
    (fun k n => tally_by_model k n interactions rituals).
Proof.
  unfold emotion_counts_by_model. rewrite map_values_id.
  eapply tallies_records with
    (T := fun k n =>
            group_tally FamiliarInteraction.model_id FamiliarInteraction.emotions
              k n interactions).
  - eapply tallies_records; [exact tallies_empty|reflexivity].
  - reflexivity.
Qed.

Lemma tallies_present d T k :
  tallies d T -> (In k (keys d) <-> exists n, 0 < T k n).
Proof.
  intros [Hl Hn Hi Hk Hik]. rewrite <- get_Some_In. split.
  - destruct (get d k) as [inner|] eqn:E; [intros _|congruence].
    specialize (Hi k inner E).
    destruct inner as [|[n c] inner]; [congruence|].
    exists n. specialize (Hl k n). unfold lookup2 in Hl. rewrite E in Hl.
    simpl in Hl. rewrite String.eqb_refl in Hl.
    destruct (0 <? T k n) eqn:E'; [now apply Z.ltb_lt|discriminate].
  - intros [n Hpos]. specialize (Hl k n). unfold lookup2 in Hl.
    apply Z.ltb_lt in Hpos. rewrite Hpos in Hl.
    destruct (get d k); [discriminate|discriminate].
Qed.

(** C8. [emotion_counts_by_model] groups the emotion-occurrence counts
    by the record's model key: [result[k][n]] exists exactly when the
    records grouped under [k] (interactions and rituals together) carry
    an emotion named [n], and is then the number of such entries; a key
    is present exactly when some record grouped under it carries an
    emotion; keys are unique.  A record whose [model_id] is null has the
    key ["unknown"], and a record with a non-empty [model_id] has that
    identifier as its key. *)
Theorem emotion_counts_by_model_groups :
  forall interactions rituals,
    (forall k n,
       lookup2 (emotion_counts_by_model interactions rituals) k n =
       if 0 <? tally_by_model k n interactions rituals
       then Some (tally_by_model k n interactions rituals)
       else None)
    /\ (forall k,
          In k (keys (emotion_counts_by_model interactions rituals)) <->
          exists n, 0 < tally_by_model k n interactions rituals)
    /\ NoDup (keys (emotion_counts_by_model interactions rituals))
    /\ model_key None = "unknown"
    /\ (forall m, m <> "" -> model_key (Some m) = m).
Proof.
  intros interactions rituals.
  pose proof (emotion_counts_by_model_tallies interactions rituals) as H.
  split; [apply (tallies_lookup H)|].
  split; [intros k; apply (tallies_present k H)|].
  split; [apply (tallies_keys H)|].
  split; [reflexivity|].
  intros [|c m] Hm; [congruence|reflexivity].
Qed.

(** ** The empty model identifier *)

(** A model identifier with the empty string replaced by null. *)
Definition null_if_empty (model_id : option string) : option string :=
  match model_id with
  | Some "" => None
  | _ => model_id
  end.

Definition interaction_null_if_empty (i : FamiliarInteraction.t) : FamiliarInteraction.t :=
  FamiliarInteraction.mk
    (FamiliarInteraction.timestamp i) (FamiliarInteraction.familiar_id i)
    (FamiliarInteraction.interaction_type i) (FamiliarInteraction.emotions i)
    (FamiliarInteraction.notes i) (null_if_empty (FamiliarInteraction.model_id i)).

Definition ritual_null_if_empty (r : RitualOutcome.t) : RitualOutcome.t :=
  RitualOutcome.mk
    (RitualOutcome.timestamp r) (RitualOutcome.ritual_name r)
    (RitualOutcome.success r) (RitualOutcome.outcome_description r)
    (RitualOutcome.emotions r) (RitualOutcome.notes r)
    (null_if_empty (RitualOutcome.model_id r)).

Lemma model_key_null_if_empty m : model_key (null_if_empty m) = model_key m.
Proof. destruct m as [[|c m]|]; reflexivity. Qed.

Lemma fold_left_map_ext A B C (f : A -> C -> A) (g : A -> B -> A) (h : B -> C) l :
  (forall a x, f a (h x) = g a x) ->
  forall a, fold_left f (map h l) a = fold_left g l a.
Proof.
  intros H. induction l as [|x l IH]; intros a; simpl; [reflexivity|].
  now rewrite H, IH.
Qed.


(** ** ritual_success_by_emotion *)

(** The invariant of the loop: [stats] holds, for exactly the names with
    a positive total, the pair of the two tallies. *)
Record pair_tallies (st : dict (Z * Z)) (S F : string -> Z) : Prop := {
  pair_lookup :
    forall n, get st n = if 0 <? S n + F n then Some (S n, F n) else None;
  pair_nonneg : forall n, 0 <= S n /\ 0 <= F n;
  pair_keys : NoDup (keys st)
}.

Lemma pair_tallies_ext st S F S' F' :
  pair_tallies st S F ->
  (forall n, S' n = S n) -> (forall n, F' n = F n) ->
  pair_tallies st S' F'.
Proof.
  intros [Hl Hn Hk] HS HF.
  constructor; auto; intros n; rewrite HS, HF; auto.
Qed.

Lemma pair_tallies_step (b : bool) nm st S F :
  pair_tallies st S F ->
  pair_tallies
    (if b then modify st nm (0, 0) (fun c => (fst c + 1, snd c))
     else modify st nm (0, 0) (fun c => (fst c, snd c + 1)))
    (fun n => S n + if b && String.eqb n nm then 1 else 0)
    (fun n => F n + if negb b && String.eqb n nm then 1 else 0).
Proof.
  intros [Hl Hn Hk]. constructor.
  - intros n. specialize (Hl n). destruct (Hn n) as [HS HF].
    destruct (String.eqb_spec n nm) as [->|Hne].
    + destruct b; cbn [andb negb]; rewrite get_modify_same;
        unfold get_default; rewrite Hl;
        destruct (0 <? S nm + F nm) eqn:E; cbn [fst snd];
        match goal with
        | |- context [0 <? ?t] =>
            assert (H : (0 <? t) = true) by (apply Z.ltb_lt; lia); rewrite H
        end;
        try (apply Z.ltb_ge in E;
             replace (S nm) with 0 by lia; replace (F nm) with 0 by lia);
        repeat f_equal; lia.
    + rewrite !andb_false_r, !Z.add_0_r.
      destruct b; rewrite get_modify_other by assumption; exact Hl.
  - intros n. destruct (Hn n).
    destruct (b && String.eqb n nm), (negb b && String.eqb n nm); lia.
  - destruct b; now apply NoDup_keys_modify.
Qed.

Lemma pair_tallies_emotions (b : bool) es : forall st S F,
  pair_tallies st S F ->
  pair_tallies
    (fold_left
       (fun st e =>
          if b then
            modify st (EmotionIntensity.name e) (0, 0) (fun c => (fst c + 1, snd c))
          else
            modify st (EmotionIntensity.name e) (0, 0) (fun c => (fst c, snd c + 1)))
       es st)
    (fun n => S n + if b then occurrences n es else 0)
    (fun n => F n + if b then 0 else occurrences n es).
Proof.
  induction es as [|e es IH]; intros st S F H; cbn [fold_left].
  - apply pair_tallies_ext with (1 := H); intros n;
      unfold occurrences; cbn [filter]; rewrite len_nil; destruct b; lia.
  - eapply pair_tallies_ext.
    + apply IH. apply (pair_tallies_step b (EmotionIntensity.name e) H).
    + intros n. cbv beta. rewrite occurrences_cons, (String.eqb_sym n).
      destruct b, (String.eqb (EmotionIntensity.name e) n); cbn [andb]; lia.
    + intros n. cbv beta. rewrite occurrences_cons, (String.eqb_sym n).
      destruct b, (String.eqb (EmotionIntensity.name e) n); cbn [andb negb]; lia.
Qed.

Lemma pair_tallies_rituals rituals : forall st S F,
  pair_tallies st S F ->
  pair_tallies
    (fold_left
       (fun st r =>
          fold_left
            (fun st e =>
               if RitualOutcome.success r then
                 modify st (EmotionIntensity.name e) (0, 0)
                   (fun c => (fst c + 1, snd c))
               else
                 modify st (EmotionIntensity.name e) (0, 0)
                   (fun c => (fst c, snd c + 1)))
            (RitualOutcome.emotions r) st)
       rituals st)
    (fun n => S n + tally_by_outcome true n rituals)
    (fun n => F n + tally_by_outcome false n rituals).
Proof.
  induction rituals as [|r rs IH]; intros st S F H; cbn [fold_left].
  - apply pair_tallies_ext with (1 := H); intros n;
      unfold tally_by_outcome; simpl; lia.
  - eapply pair_tallies_ext.
    + apply IH. apply (pair_tallies_emotions (RitualOutcome.success r)
                         (RitualOutcome.emotions r) H).
    + intros n. cbv beta. unfold tally_by_outcome. cbn [map sumZ].
      destruct (RitualOutcome.success r); cbn [Bool.eqb]; lia.
    + intros n. cbv beta. unfold tally_by_outcome. cbn [map sumZ].
      destruct (RitualOutcome.success r); cbn [Bool.eqb]; lia.
Qed.

Lemma map_values_pair_id (d : dict (Z * Z)) :
  map_values (fun counts => (fst counts, snd counts)) d = d.
Proof.
  unfold map_values.
  induction d as [|[k [a b]] d IH]; simpl; congruence.
Qed.

Lemma ritual_success_by_emotion_tallies rituals :
  pair_tallies (ritual_success_by_emotion rituals)
    (fun n => tally_by_outcome true n rituals)
    (fun n => tally_by_outcome false n rituals).
Proof.
  unfold ritual_success_by_emotion. rewrite map_values_pair_id.
  eapply pair_tallies_ext.
  - apply pair_tallies_rituals with (S := fun _ => 0) (F := fun _ => 0).
    constructor; [reflexivity|intros; lia|constructor].
  - reflexivity.
  - reflexivity.
Qed.

Lemma occurrences_pos n es :
  0 < occurrences n es <->
  exists e, In e es /\ EmotionIntensity.name e = n.
Proof.
  induction es as [|e es IH].
  - unfold occurrences. cbn [filter]. rewrite len_nil.
    split; [lia|intros (e & [] & _)].
  - rewrite occurrences_cons. pose proof (occurrences_nonneg n es) as Hnn.
    destruct (String.eqb_spec (EmotionIntensity.name e) n) as [E|E].
    + split; [intros _; exists e; split; [left; reflexivity|assumption]|lia].
    + rewrite Z.add_0_l, IH. split.
      * intros (e' & Hin & Hn). exists e'. split; [right; assumption|assumption].
      * intros (e' & [<-|Hin] & Hn); [contradiction|exists e'; auto].
Qed.

Lemma tally_by_outcome_nonneg b n rituals : 0 <= tally_by_outcome b n rituals.
Proof.
  unfold tally_by_outcome. apply sumZ_nonneg. intros x Hx.
  apply in_map_iff in Hx. destruct Hx as (r & <- & _).
  destruct (Bool.eqb (RitualOutcome.success r) b);
    [apply occurrences_nonneg|lia].
Qed.

Lemma tally_by_outcome_pos b n rituals :
  0 < tally_by_outcome b n rituals <->
  exists r e, In r rituals /\ RitualOutcome.success r = b
              /\ In e (RitualOutcome.emotions r) /\ EmotionIntensity.name e = n.
Proof.
  induction rituals as [|r rs IH].
  - unfold tally_by_outcome. simpl. split; [lia|intros (r & e & [] & _)].
  - assert (E : tally_by_outcome b n (r :: rs) =
                (if Bool.eqb (RitualOutcome.success r) b
                 then occurrences n (RitualOutcome.emotions r) else 0)
                + tally_by_outcome b n rs) by reflexivity.
    rewrite E. pose proof (tally_by_outcome_nonneg b n rs) as Hnn.
    pose proof (occurrences_nonneg n (RitualOutcome.emotions r)) as Hon.
    split.
    + intros Hpos.
      destruct (Bool.eqb (RitualOutcome.success r) b) eqn:Eb.
      * destruct (Z.ltb_spec 0 (occurrences n (RitualOutcome.emotions r))) as [Ho|Ho].
        -- apply occurrences_pos in Ho. destruct Ho as (e & He & Hn).
           exists r, e. apply Bool.eqb_prop in Eb. auto with datatypes.
        -- assert (Hrs : 0 < tally_by_outcome b n rs) by lia.
           apply IH in Hrs. destruct Hrs as (r' & e & Hr & Hrest).
           exists r', e. auto with datatypes.
      * assert (Hrs : 0 < tally_by_outcome b n rs) by lia.
        apply IH in Hrs. destruct Hrs as (r' & e & Hr & Hrest).
        exists r', e. auto with datatypes.
    + intros (r' & e & [<-|Hr] & Hb & He & Hn).
      * rewrite Hb, Bool.eqb_reflx.
        assert (0 < occurrences n (RitualOutcome.emotions r)); [|lia].
        apply occurrences_pos. eauto.
      * assert (0 < tally_by_outcome b n rs).
        { apply IH. exists r', e. auto. }
        destruct (Bool.eqb (RitualOutcome.success r) b); lia.
Qed.

Lemma occurrences_NoDup n es :
  NoDup (map EmotionIntensity.name es) ->
  occurrences n es =
  if existsb (fun e => String.eqb (EmotionIntensity.name e) n) es then 1 else 0.
Proof.
  induction es as [|e es IH]; intros Hnd.
  - reflexivity.
  - rewrite occurrences_cons. cbn [existsb map] in *.
    inversion Hnd as [|x l Hnotin Hnd']; subst.
    destruct (String.eqb_spec (EmotionIntensity.name e) n) as [E|E]; cbn [orb].
    + assert (Hz : ~ 0 < occurrences n es).
      { rewrite occurrences_pos. intros (e' & Hin & Hn). apply Hnotin.
        rewrite E, <- Hn. now apply in_map. }
      pose proof (occurrences_nonneg n es). lia.
    + now rewrite IH.
Qed.

Lemma tally_by_outcome_NoDup b n rituals :
  (forall r, In r rituals ->
             NoDup (map EmotionIntensity.name (RitualOutcome.emotions r))) ->
  tally_by_outcome b n rituals = rituals_carrying b n rituals.
Proof.
  unfold tally_by_outcome, rituals_carrying.
  induction rituals as [|r rs IH]; intros H; [reflexivity|].
  cbn [map sumZ filter]. rewrite IH by auto with datatypes.
  rewrite occurrences_NoDup by auto with datatypes.
  destruct (Bool.eqb (RitualOutcome.success r) b),
    (existsb (fun e => String.eqb (EmotionIntensity.name e) n)
       (RitualOutcome.emotions r)); cbn [andb]; rewrite ?len_cons; lia.
Qed.

Lemma pair_tallies_present st S F n :
  pair_tallies st S F -> (In n (keys st) <-> 0 < S n \/ 0 < F n).
Proof.
  intros [Hl Hn Hk]. rewrite <- get_Some_In, Hl. destruct (Hn n).
  destruct (Z.ltb_spec 0 (S n + F n)); split; try congruence; try lia.
Qed.


(** ** generate_insights on the specification's example *)

Definition joy : EmotionIntensity.t := EmotionIntensity.mk "joy" 0.8.

(** A ritual named "Moon Rite" with [success = true] and the single
    emotion joy at 0.8; the other fields are free. *)
Definition moon_rite (timestamp : Datetime.datetime)
  (outcome_description notes model_id : option string) : RitualOutcome.t :=
  RitualOutcome.mk timestamp "Moon Rite" true outcome_description [joy]
    notes model_id.

Definition emotion_frequency_insight : PatternInsight.t :=
  PatternInsight.mk
    "The most frequently experienced emotions across all interactions and rituals are: joy (1)."
    [("joy", 1%float)]
    (Some [("emotions", ["joy"])]).

Definition success_rate_insight : PatternInsight.t :=
  PatternInsight.mk
    "Overall ritual success rate is 100.0% across 1 rituals."
    [("success_rate", 1%float); ("ritual_count", 1%float)]
    (Some [("rituals", ["Moon Rite"])]).

Definition success_by_emotion_insight : PatternInsight.t :=
  PatternInsight.mk
    "Emotions most correlated with successful rituals: joy (100%)."
    [("joy", 1%float)]
    (Some [("emotions", ["joy"])]).

(** C1, as stated: the example does not return exactly two insights. *)
Lemma generate_insights_moon_rite_not_two :
  List.length
    (generate_insights []
       [moon_rite (Datetime.mkdatetime 2024 1 1 0 0 0 0 None) None None None])
  <> 2%nat.
Proof. vm_compute. discriminate. Qed.

(** C1, amended.  For no interactions and the single ritual "Moon Rite"
    (successful, joy at 0.8), [generate_insights] returns exactly three
    insights, in this order: the emotion-frequency insight (joy counted
    once), the success-rate insight with [success_rate = 1.0] and
    [ritual_count = 1.0], and the success-by-emotion insight (joy has a
    tally, at ratio 1.0).  No multi-model insight is present. *)
Theorem generate_insights_moon_rite :
  forall timestamp outcome_description notes model_id,
    generate_insights [] [moon_rite timestamp outcome_description notes model_id]
    = [emotion_frequency_insight; success_rate_insight; success_by_emotion_insight].
Proof. intros. reflexivity. Qed.

End PatternsSpec.

(* ================================================================== *)
(** * Facts about strings *)
(* ================================================================== *)

Module StringFacts.

Lemma append_assoc (a b c : string) : (a ++ b) ++ c = a ++ (b ++ c).
Proof. induction a; simpl; congruence. Qed.

Lemma length_append (a b : string) :
  String.length (a ++ b) = (String.length a + String.length b)%nat.
Proof. induction a; simpl; congruence. Qed.

Lemma compare_refl s : String.compare s s = Eq.
Proof.
  induction s as [|c s IH]; cbn; [reflexivity|].
  unfold Ascii.compare. now rewrite N.compare_refl.
Qed.

Lemma compare_char c r1 r2 :
  String.compare (String c r1) (String c r2) = String.compare r1 r2.
Proof.
  cbn [String.compare]. unfold Ascii.compare. now rewrite N.compare_refl.
Qed.

End StringFacts.

(* ================================================================== *)
(** * [datetime]: the ISO text read back, and its order *)
(* ================================================================== *)

Module DatetimeFacts.
Import Datetime StringFacts.

(** ** Decimal digits *)

Lemma digit_char_cases d :
  In (digit_char d) ["0"; "1"; "2"; "3"; "4"; "5"; "6"; "7"; "8"; "9"]%char
  /\ digit_val (digit_char d) = Some (d mod 10).
Proof.
  unfold digit_char.
  assert (H : 0 <= d mod 10 < 10) by (apply Z.mod_pos_bound; lia).
  set (r := d mod 10) in *.
  assert (E : r = 0 \/ r = 1 \/ r = 2 \/ r = 3 \/ r = 4 \/ r = 5 \/ r = 6
              \/ r = 7 \/ r = 8 \/ r = 9) by lia.
  clearbody r.
  repeat (destruct E as [->|E]; [split; [cbn; tauto|reflexivity]|]).
  subst r. split; [cbn; tauto|reflexivity].
Qed.

Lemma digit_val_digit_char d : digit_val (digit_char d) = Some (d mod 10).
Proof. apply digit_char_cases. Qed.

Lemma is_ascii_digit_digit_char d : is_ascii_digit (digit_char d) = true.
Proof. unfold is_ascii_digit. now rewrite digit_val_digit_char. Qed.

Lemma digit_char_neq d c :
  is_ascii_digit c = false -> Ascii.eqb (digit_char d) c = false.
Proof.
  intros H. apply Ascii.eqb_neq. intros E. rewrite <- E in H.
  now rewrite is_ascii_digit_digit_char in H.
Qed.

Lemma N_of_digit_char d : N_of_ascii (digit_char d) = Z.to_N (48 + d mod 10).
Proof.
  unfold digit_char.
  assert (H : 0 <= d mod 10 < 10) by (apply Z.mod_pos_bound; lia).
  set (r := d mod 10) in *.
  assert (E : r = 0 \/ r = 1 \/ r = 2 \/ r = 3 \/ r = 4 \/ r = 5 \/ r = 6
              \/ r = 7 \/ r = 8 \/ r = 9) by lia.
  clearbody r.
  repeat (destruct E as [->|E]; [reflexivity|]). subst r. reflexivity.
Qed.

(** ** Running the parser on a formatted text

    The parser is run on the text [isoformat] writes, with the digits
    kept as [digit_char] of an unknown number. *)

#[local] Arguments digit_char : simpl never.
#[local] Arguments digit_val : simpl never.
#[local] Arguments is_ascii_digit : simpl never.
#[local] Arguments Z.mul : simpl never.
#[local] Arguments Z.add : simpl never.
#[local] Arguments Z.div : simpl never.
#[local] Arguments Z.modulo : simpl never.
#[local] Arguments new : simpl never.

Ltac digits :=
  repeat first
    [ rewrite digit_val_digit_char
    | rewrite is_ascii_digit_digit_char
    | rewrite (@digit_char_neq _ "-"%char) by reflexivity
    | rewrite (@digit_char_neq _ "+"%char) by reflexivity
    | rewrite (@digit_char_neq _ "Z"%char) by reflexivity
    | rewrite (@digit_char_neq _ "W"%char) by reflexivity
    | rewrite (@digit_char_neq _ ":"%char) by reflexivity
    | rewrite (@digit_char_neq _ "."%char) by reflexivity
    | rewrite (@digit_char_neq _ ","%char) by reflexivity
    | progress cbn ].

Ltac exec_with f := unfold f; digits.

Ltac arith := intros; Z.div_mod_to_equations; lia.

(** The date of [isoformat]: [%04d-%02d-%02d]. *)
Definition date_string (y m d : Z) : string :=
  fmt_digits 4 y ++ "-" ++ fmt_digits 2 m ++ "-" ++ fmt_digits 2 d.

Lemma fromisoformat_date_time y m d c r :
  0 <= y < 10000 -> 0 <= m < 100 -> 0 <= d < 100 ->
  fromisoformat (date_string y m d ++ String "T" (String c r)) =
  ('(hh, mm, ss, ff, tzi) <- _parse_isoformat_time (String c r) ;;
   new y m d hh mm ss ff tzi).
Proof.
  intros Hy Hm Hd.
  unfold fromisoformat, date_string. cbn. digits.
  exec_with _find_isoformat_datetime_separator.
  exec_with _parse_isoformat_date.
  exec_with parse_digits.
  match goal with
  | |- context [new ?a ?b ?c] =>
      replace a with y by arith; replace b with m by arith;
      replace c with d by arith
  end.
  reflexivity.
Qed.

Lemma parse_time_naive hh mm ss us :
  0 <= hh < 100 -> 0 <= mm < 100 -> 0 <= ss < 100 -> 0 <= us < 1000000 ->
  _parse_isoformat_time (_format_time hh mm ss us ++ "") = Ok (hh, mm, ss, us, None).
Proof.
  intros Hh Hm Hs Hu. unfold _format_time.
  destruct (Z.eqb_spec us 0) as [->|Hne].
  - cbn. exec_with _parse_isoformat_time. exec_with find_tz_pos.
    exec_with _parse_hh_mm_ss_ff. exec_with parse_digits.
    repeat f_equal; arith.
  - cbn. exec_with _parse_isoformat_time. exec_with find_tz_pos.
    exec_with _parse_hh_mm_ss_ff. exec_with parse_digits.
    repeat f_equal; arith.
Qed.

(** The text of a UTC offset: sign, hours, minutes, then seconds and
    microseconds when they are not zero. *)
Definition offset_string (neg : bool) (H M S U : Z) : string :=
  (if neg then "-" else "+") ++ fmt_digits 2 H ++ ":" ++ fmt_digits 2 M
  ++ (if (S =? 0) && (U =? 0) then ""
      else ":" ++ fmt_digits 2 S
           ++ (if U =? 0 then "" else "." ++ fmt_digits 6 U)).

(** The offset the parser builds from these fields. *)
Definition offset_value (neg : bool) (H M S U : Z) : result (option Z) :=
  if (H =? 0) && (M =? 0) && (S =? 0) && (U =? 0) then Ok (Some 0)
  else
    off <- timezone ((if neg then -1 else 1) * timedelta 0 H M S U) ;;
    Ok (Some off).

Lemma dec2 n : 0 <= n < 100 ->
  10 * (10 * 0 + (n / (10 * 1)) mod 10) + (n / 1) mod 10 = n.
Proof. arith. Qed.

Lemma dec6 n : 0 <= n < 1000000 ->
  10 * (10 * (10 * (10 * (10 * (10 * 0
    + (n / (10 * (10 * (10 * (10 * (10 * 1)))))) mod 10)
    + (n / (10 * (10 * (10 * (10 * 1))))) mod 10)
    + (n / (10 * (10 * (10 * 1)))) mod 10)
    + (n / (10 * (10 * 1))) mod 10)
    + (n / (10 * 1)) mod 10)
    + (n / 1) mod 10 = n.
Proof. arith. Qed.

Lemma parse_time_offset hh mm ss us neg H M S U :
  0 <= hh < 100 -> 0 <= mm < 100 -> 0 <= ss < 100 -> 0 <= us < 1000000 ->
  0 <= H < 100 -> 0 <= M < 100 -> 0 <= S < 100 -> 0 <= U < 1000000 ->
  _parse_isoformat_time (_format_time hh mm ss us ++ offset_string neg H M S U) =
  (tzi <- offset_value neg H M S U ;; Ok (hh, mm, ss, us, tzi)).
Proof.
  intros Hh Hm Hs Hu HH HM HS HU.
  unfold _format_time, offset_string, offset_value.
  destruct (Z.eqb_spec us 0) as [->|Hne];
  destruct neg;
  destruct (Z.eqb_spec S 0) as [->|HneS];
  destruct (Z.eqb_spec U 0) as [->|HneU];
  cbn [andb];
  ( cbn; exec_with _parse_isoformat_time; exec_with find_tz_pos;
    exec_with _parse_hh_mm_ss_ff; exec_with parse_digits;
    rewrite ?dec2, ?dec6 by lia ).
  all: rewrite ?Z.eqb_refl;
       repeat match goal with
       | H : ?x <> 0 |- _ => rewrite (proj2 (Z.eqb_neq x 0) H); clear H
       end; reflexivity.
Qed.

(** ** Valid instants *)

Lemma valid_ranges dt :
  valid dt ->
  1 <= year dt <= 9999 /\ 1 <= month dt <= 12 /\ 1 <= day dt <= 31
  /\ 0 <= hour dt <= 23 /\ 0 <= minute dt <= 59 /\ 0 <= second dt <= 59
  /\ 0 <= microsecond dt <= 999999
  /\ match tzinfo dt with
     | Some off => -86400000000 < off < 86400000000
     | None => True
     end.
Proof.
  destruct dt as [y m d hh mm ss us tz]. unfold valid, new.
  cbn [year month day hour minute second microsecond tzinfo].
  intros [Hnew Htz].
  unfold _check_date_fields, _check_time_fields, MINYEAR, MAXYEAR in Hnew.
  destruct ((1 <=? y) && (y <=? 9999)) eqn:Ey; [|discriminate].
  destruct ((1 <=? m) && (m <=? 12)) eqn:Em; [|discriminate].
  destruct ((1 <=? d) && (d <=? _days_in_month y m)) eqn:Ed; [|discriminate].
  destruct ((0 <=? hh) && (hh <=? 23)) eqn:Eh; [|discriminate].
  destruct ((0 <=? mm) && (mm <=? 59)) eqn:Emi; [|discriminate].
  destruct ((0 <=? ss) && (ss <=? 59)) eqn:Es; [|discriminate].
  destruct ((0 <=? us) && (us <=? 999999)) eqn:Eu; [|discriminate].
  clear Hnew.
  repeat match goal with
  | H : (_ && _) = true |- _ => apply andb_prop in H; destruct H
  | H : (_ <=? _) = true |- _ => apply Z.leb_le in H
  end.
  assert (Hdim : _days_in_month y m <= 31).
  { unfold _days_in_month.
    destruct ((m =? 2) && _is_leap y); [lia|].
    assert (E : m = 1 \/ m = 2 \/ m = 3 \/ m = 4 \/ m = 5 \/ m = 6 \/ m = 7
                \/ m = 8 \/ m = 9 \/ m = 10 \/ m = 11 \/ m = 12) by lia.
    repeat (destruct E as [->|E]; [cbv; discriminate|]).
    subst m. cbv. discriminate. }
  repeat split; try lia.
  destruct tz as [off|]; [|exact I].
  unfold timezone in Htz.
  destruct ((- timedelta 0 24 0 0 (-1) <=? off) && (off <=? timedelta 0 24 0 0 (-1))) eqn:E;
    [|discriminate].
  apply andb_prop in E. destruct E as [E1 E2].
  apply Z.leb_le in E1, E2. unfold timedelta in E1, E2. lia.
Qed.

Lemma format_offset_shape off :
  -86400000000 < off < 86400000000 ->
  exists neg H M S U,
    0 <= H < 100 /\ 0 <= M < 100 /\ 0 <= S < 100 /\ 0 <= U < 1000000
    /\ _format_offset (Some off) = offset_string neg H M S U
    /\ offset_value neg H M S U = Ok (Some off).
Proof.
  intros Hoff. unfold _format_offset.
  set (a := if off <? 0 then - off else off).
  assert (Ha : 0 <= a < 86400000000).
  { unfold a. destruct (Z.ltb_spec off 0); lia. }
  assert (Hsplit : (if off <? 0 then ("-", - off) else ("+", off))
                   = (if off <? 0 then "-" else "+", a)).
  { unfold a. now destruct (off <? 0). }
  rewrite Hsplit. clear Hsplit.
  assert (E1h : timedelta 0 1 0 0 0 = 3600000000) by reflexivity.
  assert (E1m : timedelta 0 0 1 0 0 = 60000000) by reflexivity.
  rewrite E1h, E1m.
  set (H := a / 3600000000).
  set (M := a mod 3600000000 / 60000000).
  set (s0 := (a mod 3600000000) mod 60000000).
  set (S := s0 / 1000000).
  set (U := s0 mod 1000000).
  assert (HH : 0 <= H < 100) by (unfold H; arith).
  assert (HM : 0 <= M < 100) by (unfold M; arith).
  assert (HS : 0 <= S < 100) by (unfold S, s0; arith).
  assert (HU : 0 <= U < 1000000) by (unfold U, s0; arith).
  exists (off <? 0), H, M, S, U.
  repeat (split; [assumption|]).
  split.
  - unfold offset_string.
    assert (Es : (s0 =? 0) = (S =? 0) && (U =? 0)).
    { destruct (Z.eqb_spec s0 0) as [E|E]; symmetry.
      - apply andb_true_iff.
        split; apply Z.eqb_eq; unfold S, U; rewrite E; reflexivity.
      - apply andb_false_iff.
        destruct (Z.eqb_spec S 0); destruct (Z.eqb_spec U 0); auto.
        exfalso. apply E. unfold S, U in *. arith. }
    rewrite Es. cbv zeta.
    destruct (off <? 0), ((S =? 0) && (U =? 0)), (U =? 0);
      cbn [negb append fmt_digits]; reflexivity.
  - unfold offset_value.
    assert (Eval : (if off <? 0 then -1 else 1) * timedelta 0 H M S U = off).
    { unfold timedelta, H, M, S, U, s0, a.
      destruct (Z.ltb_spec off 0); arith. }
    destruct ((H =? 0) && (M =? 0) && (S =? 0) && (U =? 0)) eqn:Ez.
    + repeat (apply andb_prop in Ez; destruct Ez as [Ez ?]).
      repeat match goal with
      | E : (_ =? 0) = true |- _ => apply Z.eqb_eq in E
      end.
      rewrite <- Eval. unfold timedelta.
      repeat f_equal. nia.
    + rewrite Eval. unfold timezone.
      assert (E : (- timedelta 0 24 0 0 (-1) <=? off)
                  && (off <=? timedelta 0 24 0 0 (-1)) = true).
      { apply andb_true_iff. split; apply Z.leb_le; unfold timedelta; lia. }
      rewrite E. reflexivity.
Qed.

Lemma format_time_nonempty hh mm ss us z :
  exists c r, _format_time hh mm ss us ++ z = String c r.
Proof.
  unfold _format_time. destruct (us =? 0); eexists; eexists; cbn; reflexivity.
Qed.

(** [datetime.fromisoformat(dt.isoformat())] is [dt]. *)
Lemma fromisoformat_isoformat dt :
  valid dt -> fromisoformat (isoformat dt) = Ok dt.
Proof.
  intros Hv. pose proof (valid_ranges Hv) as R.
  destruct dt as [y m d hh mm ss us tz].
  cbn [year month day hour minute second microsecond tzinfo] in R.
  destruct R as (Ry & Rm & Rd & Rh & Rmi & Rs & Ru & Rtz).
  destruct Hv as [Hnew _].
  cbn [year month day hour minute second microsecond tzinfo] in Hnew.
  assert (Eiso : isoformat (mkdatetime y m d hh mm ss us tz) =
                 date_string y m d
                 ++ String "T" (_format_time hh mm ss us ++ _format_offset tz)).
  { unfold isoformat, date_string.
    cbn [year month day hour minute second microsecond tzinfo].
    now rewrite !append_assoc. }
  rewrite Eiso.
  destruct (format_time_nonempty hh mm ss us (_format_offset tz)) as (c & r & Et).
  rewrite Et, fromisoformat_date_time by lia. rewrite <- Et.
  assert (Etime : _parse_isoformat_time
                    (_format_time hh mm ss us ++ _format_offset tz)
                  = Ok (hh, mm, ss, us, tz)).
  { destruct tz as [off|].
    - destruct (format_offset_shape Rtz)
        as (neg & H & M & S & U & HH & HM & HS & HU & Es & Ev).
      rewrite Es, parse_time_offset by lia. now rewrite Ev.
    - cbn [_format_offset]. apply parse_time_naive; lia. }
  rewrite Etime. exact Hnew.
Qed.

(** ** The order of the ISO texts *)

(** Lexicographic comparison of tuples of integers. *)
Fixpoint lexZ (xs ys : list Z) : comparison :=
  match xs, ys with
  | x :: xs', y :: ys' =>
      match x ?= y with
      | Eq => lexZ xs' ys'
      | c => c
      end
  | [], [] => Eq
  | [], _ :: _ => Lt
  | _ :: _, [] => Gt
  end.

Lemma cmp_tuple_lexZ xs ys :
  cmp_tuple xs ys = match lexZ xs ys with Eq => 0 | Lt => -1 | Gt => 1 end.
Proof.
  revert ys. induction xs as [|x xs IH]; intros [|y ys]; cbn [cmp_tuple lexZ];
    try reflexivity.
  unfold cmpZ.
  destruct (Z.compare_spec x y) as [E|E|E].
  - subst. now rewrite Z.eqb_refl.
  - destruct (Z.eqb_spec x y); [lia|]. destruct (Z.ltb_spec y x); [lia|reflexivity].
  - destruct (Z.eqb_spec x y); [lia|]. destruct (Z.ltb_spec y x); [reflexivity|lia].
Qed.

Lemma lexZ_antisym xs : forall ys, lexZ ys xs = CompOpp (lexZ xs ys).
Proof.
  induction xs as [|x xs IH]; intros [|y ys]; cbn [lexZ CompOpp]; try reflexivity.
  rewrite (Z.compare_antisym x y). destruct (x ?= y); cbn [CompOpp]; auto.
Qed.

Lemma compare_digit_char a b :
  Ascii.compare (digit_char a) (digit_char b) = (a mod 10 ?= b mod 10).
Proof.
  unfold Ascii.compare. rewrite !N_of_digit_char.
  assert (0 <= a mod 10 < 10) by (apply Z.mod_pos_bound; lia).
  assert (0 <= b mod 10 < 10) by (apply Z.mod_pos_bound; lia).
  rewrite Z2N.inj_compare by lia.
  apply Z.add_compare_mono_l.
Qed.

Lemma compare_fmt_digits w : forall x y r1 r2,
  String.compare (fmt_digits w x ++ r1) (fmt_digits w y ++ r2) =
  match x mod 10 ^ Z.of_nat w ?= y mod 10 ^ Z.of_nat w with
  | Eq => String.compare r1 r2
  | c => c
  end.
Proof.
  induction w as [|w IH]; intros x y r1 r2.
  - cbn [fmt_digits append Z.of_nat]. now rewrite Z.pow_0_r, !Z.mod_1_r.
  - cbn [fmt_digits append String.compare].
    rewrite compare_digit_char, IH.
    rewrite Nat2Z.inj_succ, Z.pow_succ_r by lia.
    set (P := 10 ^ Z.of_nat w).
    assert (HP : 0 < P) by (apply Z.pow_pos_nonneg; lia).
    assert (Dx : x mod (10 * P) = P * ((x / P) mod 10) + x mod P).
    { rewrite (Z.mul_comm 10 P). rewrite Z.rem_mul_r by lia. lia. }
    assert (Dy : y mod (10 * P) = P * ((y / P) mod 10) + y mod P).
    { rewrite (Z.mul_comm 10 P). rewrite Z.rem_mul_r by lia. lia. }
    rewrite Dx, Dy.
    assert (0 <= x mod P < P) by (apply Z.mod_pos_bound; lia).
    assert (0 <= y mod P < P) by (apply Z.mod_pos_bound; lia).
    set (dx := (x / P) mod 10). set (dy := (y / P) mod 10).
    set (rx := x mod P) in *. set (ry := y mod P) in *.
    clearbody dx dy rx ry.
    destruct (Z.compare_spec dx dy) as [E|E|E].
    + subst dy. destruct (Z.compare_spec rx ry) as [E'|E'|E'].
      * assert (E2 : (P * dx + rx ?= P * dx + ry) = Eq)
          by (apply Z.compare_eq_iff; nia).
        now rewrite E2.
      * assert (E2 : (P * dx + rx ?= P * dx + ry) = Lt)
          by (apply Z.compare_lt_iff; nia).
        now rewrite E2.
      * assert (E2 : (P * dx + rx ?= P * dx + ry) = Gt)
          by (apply Z.compare_gt_iff; nia).
        now rewrite E2.
    + assert (E2 : (P * dx + rx ?= P * dy + ry) = Lt)
        by (apply Z.compare_lt_iff; nia).
      now rewrite E2.
    + assert (E2 : (P * dx + rx ?= P * dy + ry) = Gt)
        by (apply Z.compare_gt_iff; nia).
      now rewrite E2.
Qed.

Lemma compare_field w x y r1 r2 :
  0 <= x < 10 ^ Z.of_nat w -> 0 <= y < 10 ^ Z.of_nat w ->
  String.compare (fmt_digits w x ++ r1) (fmt_digits w y ++ r2) =
  match x ?= y with
  | Eq => String.compare r1 r2
  | c => c
  end.
Proof.
  intros Hx Hy. rewrite compare_fmt_digits, !Z.mod_small by assumption.
  reflexivity.
Qed.

(** The fraction that [_format_time] appends to the clock. *)
Definition fraction_string (us : Z) : string :=
  if us =? 0 then "" else "." ++ fmt_digits 6 us.

Lemma format_time_fraction hh mm ss us :
  _format_time hh mm ss us =
  fmt_digits 2 hh ++ ":" ++ fmt_digits 2 mm ++ ":" ++ fmt_digits 2 ss
  ++ fraction_string us.
Proof.
  unfold _format_time, fraction_string.
  destruct (us =? 0); [|reflexivity].
  cbn [fmt_digits append]. reflexivity.
Qed.

Lemma format_offset_head tz :
  _format_offset tz = ""
  \/ exists r, _format_offset tz = String "+" r \/ _format_offset tz = String "-" r.
Proof.
  destruct tz as [off|]; [right|left; reflexivity].
  unfold _format_offset.
  destruct (off <? 0); cbv zeta;
    match goal with
    | |- context [if ?c then _ else _] => destruct c
    end;
    try match goal with
    | |- context [if ?c then _ else _] => destruct c
    end; cbn [append]; eauto.
Qed.

Lemma compare_fraction us1 us2 z :
  0 <= us1 < 1000000 -> 0 <= us2 < 1000000 ->
  (z = "" \/ exists r, z = String "+" r \/ z = String "-" r) ->
  String.compare (fraction_string us1 ++ z) (fraction_string us2 ++ z)
  = (us1 ?= us2).
Proof.
  intros H1 H2 Hz. unfold fraction_string.
  destruct (Z.eqb_spec us1 0) as [->|N1], (Z.eqb_spec us2 0) as [->|N2];
    cbn [append].
  - apply compare_refl.
  - assert (E : (0 ?= us2) = Lt) by (apply Z.compare_lt_iff; lia).
    rewrite E. destruct Hz as [->|(r & [->| ->])]; reflexivity.
  - assert (E : (us1 ?= 0) = Gt) by (apply Z.compare_gt_iff; lia).
    rewrite E. destruct Hz as [->|(r & [->| ->])]; reflexivity.
  - rewrite compare_char, compare_field by (cbn; lia).
    rewrite compare_refl. now destruct (us1 ?= us2).
Qed.

(** With the same offset, the ISO texts of two instants are ordered
    like their fields. *)
Lemma compare_isoformat a b :
  valid a -> valid b -> tzinfo a = tzinfo b ->
  String.compare (isoformat a) (isoformat b) = lexZ (fields a) (fields b).
Proof.
  intros Va Vb Htz.
  pose proof (valid_ranges Va) as Ra. pose proof (valid_ranges Vb) as Rb.
  destruct a as [y1 m1 d1 h1 mi1 s1 u1 tz1], b as [y2 m2 d2 h2 mi2 s2 u2 tz2].
  cbn [year month day hour minute second microsecond tzinfo] in *.
  subst tz2. unfold isoformat, fields.
  cbn [year month day hour minute second microsecond tzinfo].
  rewrite !format_time_fraction, ?append_assoc.
  cbn [append lexZ].
  rewrite ?append_assoc.
  repeat first
    [ rewrite compare_char
    | rewrite compare_field by (cbn; lia) ].
  cbn [append].
  repeat first
    [ rewrite compare_char
    | rewrite compare_field by (cbn; lia) ].
  rewrite compare_fraction by (try lia; apply format_offset_head).
  destruct (y1 ?= y2), (m1 ?= m2), (d1 ?= d2), (h1 ?= h2), (mi1 ?= mi2),
    (s1 ?= s2), (u1 ?= u2); reflexivity.
Qed.

(** SQL's [timestamp <= ?] and [timestamp >= ?] on the stored text agree
    with the comparison of the instants when the offsets are the same. *)
Lemma leb_isoformat a b :
  valid a -> valid b -> tzinfo a = tzinfo b ->
  le a b = Ok (String.leb (isoformat a) (isoformat b))
  /\ ge a b = Ok (String.leb (isoformat b) (isoformat a)).
Proof.
  intros Va Vb Htz.
  unfold le, ge, String.leb.
  rewrite (compare_isoformat Va Vb Htz).
  rewrite (compare_isoformat Vb Va (eq_sym Htz)).
  assert (Hc : _cmp a b = Ok (cmp_tuple (fields a) (fields b))).
  { unfold _cmp. rewrite <- Htz.
    destruct (tzinfo a); [now rewrite Z.eqb_refl|reflexivity]. }
  rewrite Hc. cbn [bind].
  rewrite cmp_tuple_lexZ, (lexZ_antisym (fields a) (fields b)).
  destruct (lexZ (fields a) (fields b)); split; reflexivity.
Qed.

End DatetimeFacts.

(* ================================================================== *)
(** * [datetime]: what the constructors return *)
(* ================================================================== *)

Module DatetimeValidity.
Import Datetime.

(** An offset that [timezone] accepts, or none. *)
Definition offset_ok (tz : option Z) : Prop :=
  match tz with
  | Some off => timezone off = Ok off
  | None => True
  end.

Lemma timezone_idem x off : timezone x = Ok off -> timezone off = Ok off.
Proof.
  unfold timezone.
  destruct ((- timedelta 0 24 0 0 (-1) <=? x) && (x <=? timedelta 0 24 0 0 (-1)))
    eqn:E; [|discriminate].
  intros [= <-]. now rewrite E.
Qed.

(** What [datetime(...)] returns has the fields it was given, and these
    passed the range checks. *)
Lemma new_valid y m d hh mm ss us tz dt :
  new y m d hh mm ss us tz = Ok dt -> offset_ok tz -> valid dt.
Proof.
  unfold new. intros H Htz.
  destruct (_check_date_fields y m d) as [[]|] eqn:Ed; [|discriminate].
  destruct (_check_time_fields hh mm ss us) as [[]|] eqn:Et; [|discriminate].
  cbn [bind] in H. injection H as <-.
  unfold valid, new. cbn [year month day hour minute second microsecond tzinfo].
  rewrite Ed, Et. split; [reflexivity|exact Htz].
Qed.

Lemma parse_isoformat_time_offset s hh mm ss ff tzi :
  _parse_isoformat_time s = Ok (hh, mm, ss, ff, tzi) -> offset_ok tzi.
Proof.
  unfold _parse_isoformat_time.
  destruct (String.length s <? 2)%nat; [discriminate|].
  cbv zeta.
  destruct (_parse_hh_mm_ss_ff
              (if (0 <? find_tz_pos s)%nat
               then take (find_tz_pos s - 1) s else s))
    as [[[[a b] c] d]|]; [|discriminate].
  cbn [bind].
  destruct ((find_tz_pos s =? String.length s)%nat
            && is_char s (String.length s - 1) "Z").
  { cbn [bind]. intros [= _ _ _ _ <-]. reflexivity. }
  destruct (0 <? find_tz_pos s)%nat.
  2:{ cbn [bind]. intros [= _ _ _ _ <-]. exact I. }
  destruct ((String.length (drop (find_tz_pos s) s) =? 0)%nat
            || (String.length (drop (find_tz_pos s) s) =? 1)%nat
            || (String.length (drop (find_tz_pos s) s) =? 3)%nat);
    [discriminate|].
  destruct (_parse_hh_mm_ss_ff (drop (find_tz_pos s) s))
    as [[[[h m] sec] us]|]; [|discriminate].
  cbn [bind].
  destruct ((h =? 0) && (m =? 0) && (sec =? 0) && (us =? 0)).
  { cbn [bind]. intros [= _ _ _ _ <-]. reflexivity. }
  destruct (timezone _) as [off|] eqn:Etz; [|discriminate].
  cbn [bind]. intros [= _ _ _ _ <-]. exact (timezone_idem _ Etz).
Qed.

(** Every value [fromisoformat] returns is a [datetime]. *)
Lemma fromisoformat_valid s dt : fromisoformat s = Ok dt -> valid dt.
Proof.
  unfold fromisoformat.
  destruct (String.length s <? 7)%nat; [discriminate|].
  destruct (_find_isoformat_datetime_separator s) as [sep|]; [|discriminate].
  cbn [bind]. cbv zeta.
  destruct (_parse_isoformat_date (slice 0 sep s)) as [[[y m] d]|];
    [|discriminate].
  cbn [bind].
  destruct (skip_char (drop sep s)) as [|c r] eqn:Et.
  - cbn [bind]. intros H. exact (new_valid _ _ _ _ _ _ _ _ H I).
  - destruct (_parse_isoformat_time (String c r)) as [[[[[hh mm] ss] ff] tzi]|]
      eqn:Ep; [|discriminate].
    cbn [bind]. intros H.
    exact (new_valid _ _ _ _ _ _ _ _ H (parse_isoformat_time_offset _ Ep)).
Qed.

Lemma from_epoch_valid t us dt : from_epoch t us = Ok dt -> valid dt.
Proof.
  unfold from_epoch.
  destruct (_ord2ymd (719163 + t / 86400)) as [[y m] d].
  destruct (negb _); [discriminate|].
  intros H. exact (new_valid _ _ _ _ _ _ _ _ H I).
Qed.

Lemma from_epoch_naive t us dt : from_epoch t us = Ok dt -> tzinfo dt = None.
Proof.
  unfold from_epoch, new.
  destruct (_ord2ymd (719163 + t / 86400)) as [[y m] d].
  destruct (negb _); [discriminate|].
  destruct (_check_date_fields y m d); [|discriminate].
  destruct (_check_time_fields _ _ _ us); [|discriminate].
  cbn [bind]. now intros [= <-].
Qed.

Lemma utcfromtimestamp_int_valid t dt :
  utcfromtimestamp_int t = Ok dt -> valid dt /\ tzinfo dt = None.
Proof.
  unfold utcfromtimestamp_int.
  destruct (in_time_t t); [|discriminate].
  intros H. split; [exact (from_epoch_valid _ _ H)|exact (from_epoch_naive _ _ H)].
Qed.

Lemma utcfromtimestamp_float_valid x dt :
  utcfromtimestamp_float x = Ok dt -> valid dt /\ tzinfo dt = None.
Proof.
  unfold utcfromtimestamp_float.
  destruct (Prim2SF x) as [s|s| |s m e]; [|discriminate|discriminate|].
  - intros H. split; [exact (from_epoch_valid _ _ H)|exact (from_epoch_naive _ _ H)].
  - cbv zeta.
    destruct (if 1000000 <=? _ then _ else _) as [intpart us].
    destruct (in_time_t intpart); [|discriminate].
    intros H. split; [exact (from_epoch_valid _ _ H)|exact (from_epoch_naive _ _ H)].
Qed.

(** ** The only exception of [fromisoformat] *)

Create HintDb value_error.

Ltac only_value_error :=
  repeat first
    [ discriminate
    | match goal with
      | |- Raise _ = Raise _ -> _ => intros [= <-]; reflexivity
      | |- bind ?m _ = Raise _ -> _ =>
          let E := fresh "E" in
          destruct m eqn:E; cbn [bind];
          [|intros [= <-]; first [solve [eauto with value_error]|revert E]]
      | |- (if ?c then _ else _) = Raise _ -> _ => destruct c
      | |- match ?p with (_, _) => _ end = Raise _ -> _ => destruct p
      | |- match ?p with (_, _) => _ end _ = Raise _ -> _ => destruct p
      end ].

Lemma parse_digits_from_raises s : forall acc e,
  parse_digits_from acc s = Raise e -> e = ValueError.
Proof.
  induction s as [|c s IH]; intros acc e; cbn [parse_digits_from];
    [discriminate|].
  destruct (digit_val c); [apply IH|now intros [= <-]].
Qed.

Lemma parse_digits_raises s e : parse_digits s = Raise e -> e = ValueError.
Proof.
  destruct s; cbn [parse_digits]; [now intros [= <-]|].
  apply parse_digits_from_raises.
Qed.
#[local] Hint Resolve parse_digits_raises : value_error.

Lemma isoweek_to_gregorian_raises y w d e :
  _isoweek_to_gregorian y w d = Raise e -> e = ValueError.
Proof. unfold _isoweek_to_gregorian. cbv zeta. only_value_error. Qed.
#[local] Hint Resolve isoweek_to_gregorian_raises : value_error.

Lemma parse_isoformat_date_raises s e :
  _parse_isoformat_date s = Raise e -> e = ValueError.
Proof.
  unfold _parse_isoformat_date. cbv zeta. only_value_error.
  all: eauto with value_error.
Qed.
#[local] Hint Resolve parse_isoformat_date_raises : value_error.

Lemma hh_mm_ss_loop_raises comps : forall s pos has_sep acc e,
  hh_mm_ss_loop comps s pos has_sep acc = Raise e -> e = ValueError.
Proof.
  induction comps as [|comp comps IH]; intros s pos has_sep acc e;
    cbn [hh_mm_ss_loop]; [discriminate|].
  cbv zeta. only_value_error. apply IH.
Qed.
#[local] Hint Resolve hh_mm_ss_loop_raises : value_error.

Lemma parse_hh_mm_ss_ff_raises s e :
  _parse_hh_mm_ss_ff s = Raise e -> e = ValueError.
Proof. unfold _parse_hh_mm_ss_ff. cbv zeta. only_value_error. Qed.
#[local] Hint Resolve parse_hh_mm_ss_ff_raises : value_error.

Lemma timezone_raises x e : timezone x = Raise e -> e = ValueError.
Proof. unfold timezone. only_value_error. Qed.
#[local] Hint Resolve timezone_raises : value_error.

Lemma parse_isoformat_time_raises s e :
  _parse_isoformat_time s = Raise e -> e = ValueError.
Proof. unfold _parse_isoformat_time. cbv zeta. only_value_error. Qed.
#[local] Hint Resolve parse_isoformat_time_raises : value_error.

Lemma find_separator_raises s e :
  _find_isoformat_datetime_separator s = Raise e -> e = ValueError.
Proof. unfold _find_isoformat_datetime_separator. cbv zeta. only_value_error. Qed.
#[local] Hint Resolve find_separator_raises : value_error.

Lemma new_raises y m d hh mm ss us tz e :
  new y m d hh mm ss us tz = Raise e -> e = ValueError.
Proof.
  unfold new, _check_date_fields, _check_time_fields. only_value_error.
Qed.
#[local] Hint Resolve new_raises : value_error.

(** Whatever text it is given, [fromisoformat] raises nothing but
    [ValueError]. *)
Lemma fromisoformat_raises s e : fromisoformat s = Raise e -> e = ValueError.
Proof.
  unfold fromisoformat. cbv zeta. only_value_error.
  all: eauto with value_error.
Qed.

End DatetimeValidity.

(* ================================================================== *)
(** * [json]: the emotion list read back *)
(* ================================================================== *)

Module JsonFacts.
Import Json StringFacts.

(** Decoding one escaped character gives the character back. *)
Lemma scanstring_escape_char c fuel rest :
  scanstring_fuel (S fuel) (escape_char c ++ rest) =
  ('(str, rest') <- scanstring_fuel fuel rest ;; Ok (String c str, rest')).
Proof.
  destruct c as [[] [] [] [] [] [] [] []]; reflexivity.
Qed.

Lemma scanstring_fuel_escape s : forall fuel rest,
  (String.length s < fuel)%nat ->
  scanstring_fuel fuel (escape s ++ String quote rest) = Ok (s, rest).
Proof.
  induction s as [|c s IH]; intros fuel rest Hf.
  - destruct fuel; [simpl in Hf; lia|]. reflexivity.
  - destruct fuel; [simpl in Hf; lia|].
    cbn [escape]. rewrite append_assoc, scanstring_escape_char.
    rewrite IH by (simpl in Hf; lia). reflexivity.
Qed.

Lemma length_escape_char c : (1 <= String.length (escape_char c))%nat.
Proof. destruct c as [[] [] [] [] [] [] [] []]; cbn; lia. Qed.

Lemma length_escape s : (String.length s <= String.length (escape s))%nat.
Proof.
  induction s as [|c s IH]; [reflexivity|].
  cbn [escape]. rewrite length_append. pose proof (length_escape_char c).
  simpl. lia.
Qed.

Lemma scanstring_escape s rest :
  scanstring (escape s ++ String quote rest) = Ok (s, rest).
Proof.
  unfold scanstring. apply scanstring_fuel_escape.
  rewrite length_append. pose proof (length_escape s). lia.
Qed.


Section Codec.
Variable float_repr : float -> string.
Variable float_of_str : string -> option float.

Abbreviation scan_number := (Json.scan_number float_of_str).
Abbreviation scan_once := (Json.scan_once float_of_str).
Abbreviation array_loop := (Json.array_loop float_of_str).
Abbreviation object_loop := (Json.object_loop float_of_str).

(** What the round trip needs of the float conversions at [x]: the
    text of [x], followed by the brace that closes its object, scans as
    a number and converts back to [x]. *)
Definition float_text_ok (x : float) : Prop :=
  forall rest,
    scan_number (float_repr x ++ String "}" rest)
    = Some (Ok (VFloat x, String "}" rest)).

Lemma match_integer_head s r :
  match_integer s = Some r ->
  exists c s', s = String c s' /\ (c = "-"%char \/ is_ascii_digit c = true).
Proof.
  unfold match_integer. destruct s as [|c s']; [discriminate|].
  intros H. exists c, s'. split; [reflexivity|].
  destruct (Ascii.eqb_spec c "-") as [->|Hc]; [now left|right].
  assert (E : (match String c s' with
               | String "-" s'0 => ("-", s'0)
               | _ => ("", String c s')
               end) = ("", String c s')).
  { destruct c as [[] [] [] [] [] [] [] []]; try reflexivity. now elim Hc. }
  rewrite E in H.
  destruct (Ascii.eqb_spec c "0") as [->|Hz]; [reflexivity|].
  assert (E2 : forall (A : Type) (a b : A),
             match String c s' with
             | String "0" _ => a
             | String _ _ => b
             | EmptyString => a
             end = b).
  { intros A a b. destruct c as [[] [] [] [] [] [] [] []]; try reflexivity.
    now elim Hz. }
  destruct (is_ascii_digit c) eqn:Ed; [reflexivity|].
  exfalso. revert H.
  destruct c as [[] [] [] [] [] [] [] []]; try discriminate; cbn in Ed;
    try discriminate; now elim Hz.
Qed.

Lemma scan_number_head s r :
  scan_number s = Some r ->
  exists c s', s = String c s' /\ (c = "-"%char \/ is_ascii_digit c = true).
Proof.
  unfold Json.scan_number, match_number.
  destruct (match_integer s) as [[i s1]|] eqn:E; [|discriminate].
  intros _. eapply match_integer_head; eauto.
Qed.

Lemma digit_cases c :
  is_ascii_digit c = true ->
  In c ["0"; "1"; "2"; "3"; "4"; "5"; "6"; "7"; "8"; "9"]%char.
Proof.
  destruct c as [[] [] [] [] [] [] [] []]; cbn; intros H;
    try discriminate; tauto.
Qed.

Lemma scan_once_number s r fuel :
  scan_number s = Some r -> scan_once (S fuel) s = r.
Proof.
  intros H. destruct (scan_number_head _ H) as (c & s' & -> & Hc).
  assert (Hcases : In c ["-"; "0"; "1"; "2"; "3"; "4"; "5"; "6"; "7"; "8"; "9"]%char).
  { destruct Hc as [->|Hd]; [now left|right; now apply digit_cases]. }
  cbn [Json.scan_once]. rewrite H.
  cbn in Hcases.
  repeat (destruct Hcases as [<-|Hcases]; [reflexivity|]).
  destruct Hcases.
Qed.

Lemma skip_ws_number s r : scan_number s = Some r -> skip_ws s = s.
Proof.
  intros H. destruct (scan_number_head _ H) as (c & s' & -> & Hc).
  assert (Hcases : In c ["-"; "0"; "1"; "2"; "3"; "4"; "5"; "6"; "7"; "8"; "9"]%char).
  { destruct Hc as [->|Hd]; [now left|right; now apply digit_cases]. }
  cbn in Hcases.
  repeat (destruct Hcases as [<-|Hcases]; [reflexivity|]).
  destruct Hcases.
Qed.

(** The text [json.dumps] writes for one emotion, followed by [rest]. *)
Definition item_text (e : EmotionIntensity.t) (rest : string) : string :=
  "{" ++ String quote ("name" ++ String quote (": " ++ String quote
    (escape (EmotionIntensity.name e) ++ String quote (", " ++ String quote
       ("intensity" ++ String quote (": "
          ++ float_repr (EmotionIntensity.intensity e)
          ++ String "}" rest)))))).

#[local] Arguments scanstring : simpl never.

Lemma scan_item e rest fuel :
  float_text_ok (EmotionIntensity.intensity e) ->
  scan_once (S (S (S (S fuel)))) (item_text e rest)
  = Ok (EmotionIntensity.to_dict e, rest).
Proof.
  intros Hx. unfold item_text.
  pose proof (scanstring_escape "name") as Hname. cbn in Hname.
  pose proof (scanstring_escape "intensity") as Hintensity. cbn in Hintensity.
  pose proof (@scan_once_number _ _ fuel (Hx rest)) as Hnum.
  remember (S fuel) as fuel1 eqn:Efuel.
  cbn.
  rewrite Hname. cbn.
  rewrite scanstring_escape. cbn.
  rewrite Hintensity. cbn.
  rewrite (@skip_ws_number _ _ (Hx rest)).
  rewrite Hnum. cbn.
  reflexivity.
Qed.


(** The text after an item: the closing bracket, or a comma, a space and
    the next item. *)
Fixpoint tail_text (es : list EmotionIntensity.t) (rest : string) : string :=
  match es with
  | [] => String "]" rest
  | e :: es' => String "," (String " " (item_text e (tail_text es' rest)))
  end.

(** The text [_serialize_emotions] writes. *)
Definition emotions_text (es : list EmotionIntensity.t) : string :=
  match es with
  | [] => "[]"
  | e :: es' => String "[" (item_text e (tail_text es' ""))
  end.

Lemma skip_ws_item e rest : skip_ws (item_text e rest) = item_text e rest.
Proof. reflexivity. Qed.

Lemma array_loop_close fuel s acc v rest :
  scan_once fuel s = Ok (v, String "]" rest) ->
  array_loop (S fuel) s acc = Ok (VList (rev (v :: acc)), rest).
Proof. intros H. cbn [Json.array_loop]. rewrite H. reflexivity. Qed.

Lemma array_loop_comma fuel s acc v rest :
  scan_once fuel s = Ok (v, String "," (String " " rest)) ->
  array_loop (S fuel) s acc = array_loop fuel (skip_ws rest) (v :: acc).
Proof. intros H. cbn [Json.array_loop]. rewrite H. reflexivity. Qed.

Lemma array_loop_items es : forall e acc fuel rest,
  Forall (fun e => float_text_ok (EmotionIntensity.intensity e)) (e :: es) ->
  (List.length es + 5 <= fuel)%nat ->
  array_loop fuel (item_text e (tail_text es rest)) acc
  = Ok (VList (rev acc ++ map EmotionIntensity.to_dict (e :: es)), rest).
Proof.
  induction es as [|e' es IH]; intros e acc fuel rest Hok Hfuel;
    do 5 (destruct fuel as [|fuel]; [simpl in Hfuel; lia|]);
    inversion Hok as [|? ? He Hok']; subst.
  - erewrite array_loop_close by (cbn [tail_text]; now apply scan_item).
    reflexivity.
  - erewrite array_loop_comma by (cbn [tail_text]; now apply scan_item).
    rewrite skip_ws_item, IH by (simpl in Hfuel |- *; auto; lia).
    cbn [rev map]. now rewrite <- app_assoc.
Qed.

Lemma length_item_text e rest :
  (String.length rest + 4 <= String.length (item_text e rest))%nat.
Proof.
  unfold item_text. cbn [append String.length].
  rewrite !length_append. cbn [String.length]. rewrite !length_append.
  cbn [String.length]. lia.
Qed.

Lemma length_tail_text es rest :
  (List.length es <= String.length (tail_text es rest))%nat.
Proof.
  induction es as [|e es IH]; cbn [tail_text List.length String.length]; [lia|].
  pose proof (length_item_text e (tail_text es rest)). lia.
Qed.

Theorem loads_emotions_text es :
  Forall (fun e => float_text_ok (EmotionIntensity.intensity e)) es ->
  Json.loads float_of_str (emotions_text es)
  = Ok (VList (map EmotionIntensity.to_dict es)).
Proof.
  intros Hok. destruct es as [|e es]; [reflexivity|].
  unfold Json.loads, emotions_text.
  change (starts_with _ (String "[" (item_text e (tail_text es ""))))
    with (@None string).
  change (skip_ws (String "[" (item_text e (tail_text es ""))))
    with (String "[" (item_text e (tail_text es ""))).
  change (String.length (String "[" (item_text e (tail_text es ""))) + 2)%nat
    with (S (String.length (item_text e (tail_text es "")) + 2)).
  set (fuel := (String.length (item_text e (tail_text es "")) + 2)%nat).
  assert (Hfuel : (List.length es + 5 <= fuel)%nat).
  { unfold fuel. pose proof (length_item_text e (tail_text es "")).
    pose proof (length_tail_text es ""). lia. }
  pose proof (@array_loop_items es e [] fuel "" Hok Hfuel) as Harr.
  clearbody fuel.
  cbn [Json.scan_once].
  change (code "[" =? 34) with false. change (code "[" =? 123) with false.
  change (code "[" =? 91) with true. cbv iota.
  rewrite skip_ws_item.
  unfold item_text in Harr |- *. cbn [append] in Harr |- *.
  cbv iota. change (code "{" =? 93) with false. cbv iota.
  rewrite Harr. reflexivity.
Qed.

End Codec.

End JsonFacts.

(* ================================================================== *)
(** * Binary64 values in the unit interval *)
(* ================================================================== *)

Module FloatFacts.

(** The exact value of the float lies in the closed unit interval: it is
    a zero, or [m * 2^e] with a positive sign and [m <= 2^(-e)]. *)
Definition in_unit_interval (x : float) : Prop :=
  match Prim2SF x with
  | S754_zero _ => True
  | S754_finite s m e => s = false /\ e <= 0 /\ Z.pos m <= 2 ^ (- e)
  | _ => False
  end.

Lemma digits2_pos_bounds m :
  2 ^ (Z.pos (digits2_pos m) - 1) <= Z.pos m < 2 ^ Z.pos (digits2_pos m).
Proof.
  induction m as [m IH|m IH|]; cbn [digits2_pos].
  - rewrite Pos2Z.inj_succ.
    replace (Z.succ (Z.pos (digits2_pos m)) - 1) with (Z.pos (digits2_pos m)) by lia.
    rewrite Z.pow_succ_r by lia.
    replace (Z.pos (digits2_pos m)) with (Z.succ (Z.pos (digits2_pos m) - 1)) at 1 by lia.
    rewrite Z.pow_succ_r by lia. lia.
  - rewrite Pos2Z.inj_succ.
    replace (Z.succ (Z.pos (digits2_pos m)) - 1) with (Z.pos (digits2_pos m)) by lia.
    rewrite Z.pow_succ_r by lia.
    replace (Z.pos (digits2_pos m)) with (Z.succ (Z.pos (digits2_pos m) - 1)) at 1 by lia.
    rewrite Z.pow_succ_r by lia. lia.
  - cbn. lia.
Qed.

(** What validity says of a finite binary64: at most 53 digits, and
    exactly 53 above the smallest exponent. *)
Lemma valid_finite s m e :
  valid_binary (S754_finite s m e) = true ->
  Z.pos (digits2_pos m) <= 53
  /\ (-1074 < e -> Z.pos (digits2_pos m) = 53).
Proof.
  cbn [valid_binary]. unfold bounded, canonical_mantissa, fexp, emin, prec, emax.
  intros H. apply andb_prop in H. destruct H as [H _].
  apply Z.eqb_eq in H. lia.
Qed.

Lemma leb_zero x :
  PrimFloat.leb 0 x = true <->
  match Prim2SF x with
  | S754_zero _ => True
  | S754_infinity s => s = false
  | S754_finite s _ _ => s = false
  | S754_nan => False
  end.
Proof.
  rewrite leb_spec.
  assert (E0 : Prim2SF 0 = S754_zero false) by (vm_compute; reflexivity).
  rewrite E0.
  destruct (Prim2SF x) as [s|s| |s m e]; try destruct s;
    cbv beta iota delta [SFleb SFcompare]; split; intros H;
    try reflexivity; try discriminate; try exact I; try contradiction.
Qed.

Lemma leb_one x :
  PrimFloat.leb x 1 = true <->
  match Prim2SF x with
  | S754_zero _ => True
  | S754_infinity s => s = true
  | S754_finite s m e =>
      s = true \/ e < -52 \/ (e = -52 /\ Z.pos m <= 2 ^ 52)
  | S754_nan => False
  end.
Proof.
  rewrite leb_spec.
  assert (E1 : Prim2SF 1 = S754_finite false 4503599627370496 (-52))
    by (vm_compute; reflexivity).
  rewrite E1. clear E1.
  assert (Ec : Z.pos 4503599627370496 = 2 ^ 52) by (vm_compute; reflexivity).
  rewrite <- Ec. clear Ec.
  generalize 4503599627370496%positive. intros c.
  destruct (Prim2SF x) as [s|s| |s m e]; try destruct s;
    cbv beta iota delta [SFleb SFcompare];
    try solve [split; intros H; try reflexivity; try discriminate;
               try exact I; try contradiction; auto].
  change (Pos.compare_cont Eq m c) with (Pos.compare m c).
  destruct (Z.compare_spec e (-52)) as [E|E|E].
  - destruct (Pos.compare_spec m c) as [E'|E'|E'].
    + subst. split; [intros _; right; right; split; [reflexivity|]|reflexivity].
      apply Z.le_refl.
    + split; [intros _; right; right; split; [assumption|]|reflexivity].
      apply Pos2Z.pos_le_pos. now apply Pos.lt_le_incl.
    + split; [discriminate|]. intros [H|[H|[_ H]]]; [discriminate|lia|].
      exfalso. apply Pos2Z.pos_lt_pos in E'. apply Z.lt_nge in E'. auto.
  - split; [intros _; right; left; assumption|reflexivity].
  - split; [discriminate|]. intros [H|[H|[H _]]]; [discriminate|lia|lia].
Qed.

(** The two comparisons of [check_intensity] hold exactly when the
    value of the float is in the unit interval. *)
Lemma unit_interval_leb x :
  (PrimFloat.leb 0 x = true /\ PrimFloat.leb x 1 = true) <-> in_unit_interval x.
Proof.
  rewrite leb_zero, leb_one. unfold in_unit_interval.
  pose proof (Prim2SF_valid x) as Hv.
  destruct (Prim2SF x) as [s|s| |s m e]; try solve [intuition congruence].
  destruct (valid_finite _ _ _ Hv) as [Hd Hn]. clear Hv.
  pose proof (digits2_pos_bounds m) as [Hlo Hhi].
  set (d := Z.pos (digits2_pos m)) in *. clearbody d.
  split.
  - intros [-> [H|[H|[-> H]]]]; [discriminate| |].
    + split; [reflexivity|split; [lia|]].
      assert (2 ^ d <= 2 ^ (- e)) by (apply Z.pow_le_mono_r; lia).
      lia.
    + split; [reflexivity|split; [discriminate|]].
      replace (- (-52)) with 52 by reflexivity. exact H.
  - intros (-> & He & Hm). split; [reflexivity|right].
    destruct (Z.lt_trichotomy e (-52)) as [E|[E|E]]; [now left| |].
    + right. split; [assumption|]. subst e.
      replace (- (-52)) with 52 in Hm by reflexivity. exact Hm.
    + exfalso. assert (Ed : d = 53) by (apply Hn; lia). subst d.
      assert (2 ^ (- e) < 2 ^ (53 - 1)) by (apply Z.pow_lt_mono_r; lia).
      generalize dependent (2 ^ (53 - 1)). generalize dependent (2 ^ (- e)).
      intros. lia.
Qed.

Section Codec.
Variable float_repr : float -> string.

(** A float in the unit interval is written by [float.__repr__]. *)
Lemma floatstr_unit x :
  in_unit_interval x -> Json.floatstr float_repr x = float_repr x.
Proof.
  unfold in_unit_interval, Json.floatstr. intros H.
  rewrite !eqb_spec.
  assert (Ei : Prim2SF infinity = S754_infinity false)
    by (vm_compute; reflexivity).
  assert (En : Prim2SF neg_infinity = S754_infinity true)
    by (vm_compute; reflexivity).
  rewrite Ei, En.
  destruct (Prim2SF x) as [s|s| |s m e]; try contradiction.
  - reflexivity.
  - destruct H as (-> & _ & _).
    cbv beta iota delta [SFeqb SFcompare negb]. rewrite Z.compare_refl.
    change (Pos.compare_cont Eq m m) with (Pos.compare m m).
    rewrite Pos.compare_refl. reflexivity.
Qed.

End Codec.

End FloatFacts.

(* ================================================================== *)
(** * Properties of the record classes *)
(* ================================================================== *)

Module SchemasSpec.
Import FloatFacts DatetimeFacts DatetimeValidity.

(** ** The bounds of [intensity] *)

(** X1.  [EmotionIntensity(name=..., intensity=i)] succeeds, keeping
    [i], for every float [i] whose value lies in the closed interval
    from 0 to 1, and raises [ValidationError] for every other float (a
    value below 0 or above 1, an infinity, a NaN).  In particular both
    bounds 0 and 1 are accepted, and -0.01 and 1.01 are refused. *)
Theorem emotion_intensity_bounds (name : string) (i : float) :
  (in_unit_interval i ->
   EmotionIntensity.new name i = Ok (EmotionIntensity.mk name i))
  /\ (~ in_unit_interval i ->
      EmotionIntensity.new name i = Raise ValidationError)
  /\ EmotionIntensity.new name 0 = Ok (EmotionIntensity.mk name 0)
  /\ EmotionIntensity.new name 1 = Ok (EmotionIntensity.mk name 1)
  /\ EmotionIntensity.new name (-0.01) = Raise ValidationError
  /\ EmotionIntensity.new name 1.01 = Raise ValidationError.
Proof.
  split; [|split; [|repeat split; vm_compute; reflexivity]].
  - intros H. apply unit_interval_leb in H. destruct H as [H0 H1].
    unfold EmotionIntensity.new, EmotionIntensity.check_intensity.
    now rewrite H0, H1.
  - intros H. unfold EmotionIntensity.new, EmotionIntensity.check_intensity.
    destruct (PrimFloat.leb 0 i) eqn:H0; [|reflexivity].
    destruct (PrimFloat.leb i 1) eqn:H1; [|reflexivity].
    elim H. apply unit_interval_leb. now split.
Qed.

Lemma check_intensity_ok x y :
  EmotionIntensity.check_intensity x = Ok y <-> y = x /\ in_unit_interval x.
Proof.
  unfold EmotionIntensity.check_intensity. rewrite <- unit_interval_leb.
  destruct (PrimFloat.leb 0 x); cbn [negb];
    [destruct (PrimFloat.leb x 1); cbn [negb]|].
  - split; [intros [= <-]; auto|intros [-> _]; reflexivity].
  - split; [discriminate|intros [_ [_ H]]; discriminate].
  - split; [discriminate|intros [_ [H _]]; discriminate].
Qed.

Section Codec.
Variable float_repr : float -> string.
Variable float_of_str : string -> option float.

Lemma from_kwargs_inv (item : dict value) (e : EmotionIntensity.t) :
  EmotionIntensity.from_kwargs float_repr float_of_str item = Ok e ->
  exists vn vx,
    get item "name" = Some vn /\ get item "intensity" = Some vx
    /\ EmotionIntensity.str_validator float_repr vn
       = Ok (EmotionIntensity.name e)
    /\ EmotionIntensity.float_validator float_of_str vx
       = Ok (EmotionIntensity.intensity e)
    /\ in_unit_interval (EmotionIntensity.intensity e).
Proof.
  unfold EmotionIntensity.from_kwargs.
  destruct (get item "intensity") as [vx|].
  2:{ destruct (get item "name") as [vn|]; [|discriminate].
      destruct (EmotionIntensity.str_validator float_repr vn); discriminate. }
  destruct (EmotionIntensity.float_validator float_of_str vx) as [x|ex] eqn:Ex;
    cbn [bind].
  2:{ destruct ex; try discriminate;
        destruct (get item "name") as [vn|]; try discriminate;
        destruct (EmotionIntensity.str_validator float_repr vn); discriminate. }
  destruct (EmotionIntensity.check_intensity x) as [y|ey] eqn:Ec.
  2:{ destruct ey; try discriminate;
        destruct (get item "name") as [vn|]; try discriminate;
        destruct (EmotionIntensity.str_validator float_repr vn); discriminate. }
  apply check_intensity_ok in Ec. destruct Ec as [-> Hx].
  destruct (get item "name") as [vn|]; [|discriminate].
  destruct (EmotionIntensity.str_validator float_repr vn) as [n|] eqn:En;
    [|discriminate].
  cbn [bind]. intros [= <-]. exists vn, vx. cbn. auto.
Qed.


End Codec.

(** ** The timestamp validator *)

(** The shapes the validator converts. *)
Definition converted (v : value) : bool :=
  match v with
  | VInt _ | VBool _ | VFloat _ | VStr _ => true
  | _ => false
  end.

(** X3.  What the validator returns for a number or a string is an
    instant: a [datetime] whose fields are in range, naive when it comes
    from a number.  Any other value is returned as it is. *)
Theorem parse_timestamp_ok (v v' : value) :
  parse_timestamp v = Ok v' ->
  if converted v then
    exists d, v' = VDatetime d /\ Datetime.valid d
              /\ (match v with VStr _ => True | _ => Datetime.tzinfo d = None end)
  else v' = v.
Proof.
  destruct v as [|b|n|x|s|s|d|l|d]; cbn [parse_timestamp converted];
    try (now intros [= <-]).
  - destruct (Datetime.utcfromtimestamp_int (if b then 1 else 0)) as [d|] eqn:E;
      [|discriminate].
    cbn [bind]. intros [= <-]. exists d.
    destruct (utcfromtimestamp_int_valid _ E). auto.
  - destruct (Datetime.utcfromtimestamp_int n) as [d|] eqn:E; [|discriminate].
    cbn [bind]. intros [= <-]. exists d.
    destruct (utcfromtimestamp_int_valid _ E). auto.
  - destruct (Datetime.utcfromtimestamp_float x) as [d|] eqn:E; [|discriminate].
    cbn [bind]. intros [= <-]. exists d.
    destruct (utcfromtimestamp_float_valid _ E). auto.
  - destruct (Datetime.fromisoformat s) as [d|] eqn:E; [|discriminate].
    cbn [bind]. intros [= <-]. exists d.
    split; [reflexivity|]. split; [exact (fromisoformat_valid _ E)|exact I].
Qed.

Lemma parse_timestamp_ok_example :
  exists d,
    VDatetime (Datetime.mkdatetime 1970 1 1 0 0 1 500000 None) = VDatetime d
    /\ Datetime.valid d /\ Datetime.tzinfo d = None.
Proof.
  exact (@parse_timestamp_ok (VFloat 1.5)
           (VDatetime (Datetime.mkdatetime 1970 1 1 0 0 1 500000 None))
           eq_refl).
Defined.


(** A field validation which, like pydantic's, returns an instant as it
    is and reads bytes as the text they hold. *)
Definition lenient_datetime_field (v : value) : result Datetime.datetime :=
  match v with
  | VDatetime d => Ok d
  | VStr s | VBytes s => validation (Datetime.fromisoformat s)
  | _ => Raise ValidationError
  end.

(** A value that is not converted is not rejected by the validator
    either: bytes reach the field validation, and with one that reads
    bytes the record is built. *)
Lemma parse_timestamp_keeps_bytes :
  converted (VBytes "2024-01-01T10:00:00") = false
  /\ parse_timestamp (VBytes "2024-01-01T10:00:00")
     = Ok (VBytes "2024-01-01T10:00:00")
  /\ timestamp_field lenient_datetime_field (VBytes "2024-01-01T10:00:00")
     = Ok (Datetime.mkdatetime 2024 1 1 10 0 0 0 None).
Proof.
  split; [reflexivity|]. split; [reflexivity|]. vm_compute. reflexivity.
Qed.

End SchemasSpec.

(* ================================================================== *)
(** * [datetime]: seconds since the epoch *)
(* ================================================================== *)

Module EpochFacts.
Import Datetime DatetimeValidity.

Ltac arith := intros; Z.div_mod_to_equations; lia.

(** The days before a year, by its place in the 400-year cycle. *)
Lemma days_before_year_cycle a b c d :
  0 <= b <= 3 -> 0 <= c <= 24 -> 0 <= d <= 3 ->
  _days_before_year (400 * a + 100 * b + 4 * c + d + 1)
  = 146097 * a + 36524 * b + 1461 * c + 365 * d.
Proof. unfold _days_before_year. cbv zeta. arith. Qed.

Lemma is_leap_cycle a b c d :
  0 <= b <= 3 -> 0 <= c <= 24 -> 0 <= d <= 3 ->
  _is_leap (400 * a + 100 * b + 4 * c + d + 1)
  = (d =? 3) && (negb (c =? 24) || (b =? 3)).
Proof.
  intros Hb Hc Hd. unfold _is_leap.
  set (y := 400 * a + 100 * b + 4 * c + d + 1).
  assert (E4 : y mod 4 = (d + 1) mod 4).
  { unfold y. replace (400 * a + 100 * b + 4 * c + d + 1)
      with (d + 1 + (100 * a + 25 * b + c) * 4) by ring.
    apply Z_mod_plus_full. }
  assert (E100 : y mod 100 = (4 * c + d + 1) mod 100).
  { unfold y. replace (400 * a + 100 * b + 4 * c + d + 1)
      with (4 * c + d + 1 + (4 * a + b) * 100) by ring.
    apply Z_mod_plus_full. }
  assert (E400 : y mod 400 = (100 * b + 4 * c + d + 1) mod 400).
  { unfold y. replace (400 * a + 100 * b + 4 * c + d + 1)
      with (100 * b + 4 * c + d + 1 + a * 400) by ring.
    apply Z_mod_plus_full. }
  rewrite E4, E100, E400. clearbody y. clear E4 E100 E400 y a.
  assert (D : d = 0 \/ d = 1 \/ d = 2 \/ d = 3) by lia.
  destruct D as [-> | [-> | [-> | -> ]]]; try reflexivity.
  change ((3 + 1) mod 4 =? 0) with true. cbn [andb Z.eqb].
  destruct (Z.eqb_spec c 24) as [->|Hc24]; cbn [negb orb].
  - change ((4 * 24 + 3 + 1) mod 100 =? 0) with true. cbn [negb orb].
    assert (B : b = 0 \/ b = 1 \/ b = 2 \/ b = 3) by lia.
    destruct B as [-> | [-> | [-> | -> ]]]; reflexivity.
  - destruct (Z.eqb_spec ((4 * c + 3 + 1) mod 100) 0) as [E|E];
      [exfalso; revert E; arith|reflexivity].
Qed.

(** The month and the day of the [n]-th day of a year, counted from 0,
    as [_ord2ymd] finds them. *)
Definition month_day (leapyear : bool) (n : Z) : Z * Z :=
  let month := Z.shiftr (n + 50) 5 in
  let preceding :=
    item _DAYS_BEFORE_MONTH month
    + (if (2 <? month) && leapyear then 1 else 0) in
  let '(month, preceding) :=
    if n <? preceding then
      (month - 1,
       preceding
       - (item _DAYS_IN_MONTH (month - 1)
          + (if (month - 1 =? 2) && leapyear then 1 else 0)))
    else (month, preceding) in
  (month, n - preceding + 1).

(** The month is a month, the day is a day of it, and the days before
    the month and the day make up [n]. *)
Definition month_day_check (leapyear : bool) (n : Z) : bool :=
  let '(m, dd) := month_day leapyear n in
  (1 <=? m) && (m <=? 12) && (1 <=? dd)
  && (dd <=? (if (m =? 2) && leapyear then 29 else item _DAYS_IN_MONTH m))
  && (item _DAYS_BEFORE_MONTH m + (if (2 <? m) && leapyear then 1 else 0) + dd
      =? n + 1).

Lemma month_day_checked leapyear n :
  0 <= n <= 364 -> month_day_check leapyear n = true.
Proof.
  intros Hn.
  assert (Hall : forallb (fun k => month_day_check true (Z.of_nat k)
                                   && month_day_check false (Z.of_nat k))
                   (seq 0 365) = true) by (vm_compute; reflexivity).
  rewrite forallb_forall in Hall.
  specialize (Hall (Z.to_nat n)).
  rewrite Z2Nat.id in Hall by lia.
  assert (Hin : In (Z.to_nat n) (seq 0 365)) by (apply in_seq; lia).
  apply Hall in Hin. apply andb_prop in Hin.
  destruct leapyear; tauto.
Qed.

(** [_ord2ymd] is the inverse of [_ymd2ord], returns a date of the
    calendar, and puts the years 1 to 9999 on the ordinals 1 to
    3652059. *)
Lemma ord2ymd_spec n :
  exists y m dd,
    _ord2ymd n = (y, m, dd)
    /\ _ymd2ord y m dd = n
    /\ 1 <= m <= 12 /\ 1 <= dd <= _days_in_month y m
    /\ (1 <= y <-> 1 <= n) /\ (y <= 9999 <-> n <= 3652059).
Proof.
  unfold _ord2ymd. cbv zeta.
  change _DI400Y with 146097. change _DI100Y with 36524. change _DI4Y with 1461.
  pose proof (Z.div_mod (n - 1) 146097 ltac:(lia)) as E1.
  pose proof (Z.mod_pos_bound (n - 1) 146097 ltac:(lia)) as B1.
  set (a := (n - 1) / 146097) in *. set (r := (n - 1) mod 146097) in *.
  pose proof (Z.div_mod r 36524 ltac:(lia)) as E2.
  pose proof (Z.mod_pos_bound r 36524 ltac:(lia)) as B2.
  set (b := r / 36524) in *. set (r2 := r mod 36524) in *.
  pose proof (Z.div_mod r2 1461 ltac:(lia)) as E3.
  pose proof (Z.mod_pos_bound r2 1461 ltac:(lia)) as B3.
  set (c := r2 / 1461) in *. set (r3 := r2 mod 1461) in *.
  pose proof (Z.div_mod r3 365 ltac:(lia)) as E4.
  pose proof (Z.mod_pos_bound r3 365 ltac:(lia)) as B4.
  set (d := r3 / 365) in *. set (r4 := r3 mod 365) in *.
  clearbody a r b r2 c r3 d r4.
  assert (Hb : 0 <= b <= 4) by lia.
  assert (Hc : 0 <= c <= 24) by lia.
  assert (Hd : 0 <= d <= 4) by lia.
  destruct (Z.eqb_spec d 4) as [D4|D4]; cbn [orb].
  { (* the last day of a leap year that ends a four-year cycle *)
    assert (r4 = 0) by lia. assert (b <= 3) by lia. assert (c <= 23) by lia.
    subst d r4.
    do 3 eexists. split; [reflexivity|].
    replace (a * 400 + 1 + (b * 100 + c * 4 + 4) - 1)
      with (400 * a + 100 * b + 4 * c + 3 + 1) by ring.
    unfold _ymd2ord, _days_before_month, _days_in_month.
    rewrite days_before_year_cycle by lia. rewrite is_leap_cycle by lia.
    assert (Ec : (c =? 24) = false) by (apply Z.eqb_neq; lia).
    rewrite Ec.
    change (item _DAYS_BEFORE_MONTH 12) with 334.
    change (item _DAYS_IN_MONTH 12) with 31.
    change (2 <? 12) with true. change (12 =? 2) with false.
    change (3 =? 3) with true. cbn [andb negb orb].
    repeat split; lia. }
  destruct (Z.eqb_spec b 4) as [B4'|B4'].
  { (* the last day of a 400-year cycle *)
    assert (r2 = 0) by lia. assert (c = 0) by lia. assert (r3 = 0) by lia.
    assert (d = 0) by lia. assert (r4 = 0) by lia.
    subst b r2 c r3 d r4.
    do 3 eexists. split; [reflexivity|].
    replace (a * 400 + 1 + (4 * 100 + 0 * 4 + 0) - 1)
      with (400 * a + 100 * 3 + 4 * 24 + 3 + 1) by ring.
    unfold _ymd2ord, _days_before_month, _days_in_month.
    rewrite days_before_year_cycle by lia. rewrite is_leap_cycle by lia.
    change (item _DAYS_BEFORE_MONTH 12) with 334.
    change (item _DAYS_IN_MONTH 12) with 31.
    change (2 <? 12) with true. change (12 =? 2) with false.
    change (3 =? 3) with true. change (24 =? 24) with true.
    cbn [andb negb orb].
    repeat split; lia. }
  assert (Hb3 : 0 <= b <= 3) by lia. assert (Hd3 : 0 <= d <= 3) by lia.
  set (leapyear := (d =? 3) && (negb (c =? 24) || (b =? 3))).
  pose proof (@month_day_checked leapyear r4 ltac:(lia)) as Hmd.
  unfold month_day_check in Hmd.
  fold (month_day leapyear r4).
  destruct (month_day leapyear r4) as [m dd] eqn:Emd.
  exists (a * 400 + 1 + (b * 100 + c * 4 + d)), m, dd.
  split.
  { unfold month_day in Emd. cbv zeta in Emd.
    destruct (r4 <? _) in Emd |- *; injection Emd as <- <-; reflexivity. }
  replace (a * 400 + 1 + (b * 100 + c * 4 + d))
    with (400 * a + 100 * b + 4 * c + d + 1) by ring.
  repeat match goal with
  | H : _ && _ = true |- _ => apply andb_prop in H; destruct H
  end.
  repeat match goal with
  | H : (_ <=? _) = true |- _ => apply Z.leb_le in H
  | H : (_ =? _) = true |- _ => apply Z.eqb_eq in H
  end.
  unfold _ymd2ord, _days_before_month, _days_in_month.
  rewrite days_before_year_cycle by lia. rewrite is_leap_cycle by lia.
  fold leapyear. repeat split; lia.
Qed.

(** 1970-01-01T00:00:00, naive. *)
Definition epoch : datetime := mkdatetime 1970 1 1 0 0 0 0 None.

(** The first and the last second of the years 1 to 9999, counted from
    the epoch. *)
Definition min_timestamp : Z := -62135596800.
Definition max_timestamp : Z := 253402300799.

Lemma in_time_t_range t :
  min_timestamp <= t <= max_timestamp -> in_time_t t = true.
Proof.
  unfold in_time_t, min_timestamp, max_timestamp. intros H.
  change (2 ^ 63) with 9223372036854775808.
  apply andb_true_intro. split; [apply Z.leb_le|apply Z.ltb_lt]; lia.
Qed.

Lemma from_epoch_in_range t us :
  min_timestamp <= t <= max_timestamp -> 0 <= us <= 999999 ->
  exists dt,
    from_epoch t us = Ok dt
    /\ tzinfo dt = None /\ microsecond dt = us
    /\ base_difference dt epoch = t * 1000000 + us.
Proof.
  unfold min_timestamp, max_timestamp. intros Ht Hus. unfold from_epoch. cbv zeta.
  destruct (ord2ymd_spec (719163 + t / 86400))
    as (y & m & dd & -> & Hord & Hm & Hdd & Hy1 & Hy2).
  assert (Hy : 1 <= y <= 9999).
  { split; [apply Hy1|apply Hy2]; revert Ht; clear; arith. }
  assert (E32 : (- 2 ^ 31 <=? y - 1900) && (y - 1900 <? 2 ^ 31) = true).
  { change (2 ^ 31) with 2147483648.
    apply andb_true_intro. split; [apply Z.leb_le|apply Z.ltb_lt]; lia. }
  rewrite E32. cbn [negb].
  pose proof (Z.mod_pos_bound t 86400 ltac:(lia)) as Hrem.
  set (rem := t mod 86400) in *.
  unfold new, _check_date_fields, _check_time_fields, MINYEAR, MAXYEAR.
  assert (C1 : (1 <=? y) && (y <=? 9999) = true)
    by (apply andb_true_intro; split; apply Z.leb_le; lia).
  assert (C2 : (1 <=? m) && (m <=? 12) = true)
    by (apply andb_true_intro; split; apply Z.leb_le; lia).
  assert (C3 : (1 <=? dd) && (dd <=? _days_in_month y m) = true)
    by (apply andb_true_intro; split; apply Z.leb_le; lia).
  assert (C4 : (0 <=? rem / 3600) && (rem / 3600 <=? 23) = true)
    by (apply andb_true_intro; split; apply Z.leb_le; revert Hrem; clear; arith).
  assert (C5 : (0 <=? rem mod 3600 / 60) && (rem mod 3600 / 60 <=? 59) = true)
    by (apply andb_true_intro; split; apply Z.leb_le; revert Hrem; clear; arith).
  assert (C6 : (0 <=? rem mod 60) && (rem mod 60 <=? 59) = true)
    by (apply andb_true_intro; split; apply Z.leb_le; revert Hrem; clear; arith).
  assert (C7 : (0 <=? us) && (us <=? 999999) = true)
    by (apply andb_true_intro; split; apply Z.leb_le; lia).
  rewrite C1, C2, C3, C4, C5, C6, C7. cbn [negb bind].
  eexists. split; [reflexivity|]. split; [reflexivity|]. split; [reflexivity|].
  unfold base_difference, toordinal, epoch, timedelta.
  cbn [year month day hour minute second microsecond].
  rewrite Hord. change (_ymd2ord 1970 1 1) with 719163.
  subst rem. clear. arith.
Qed.

Lemma from_epoch_out_of_range t us :
  t < min_timestamp \/ max_timestamp < t ->
  exists e, from_epoch t us = Raise e /\ (e = ValueError \/ e = OSError).
Proof.
  unfold min_timestamp, max_timestamp. intros Ht. unfold from_epoch. cbv zeta.
  destruct (ord2ymd_spec (719163 + t / 86400))
    as (y & m & dd & -> & Hord & Hm & Hdd & Hy1 & Hy2).
  assert (Hy : y < 1 \/ 9999 < y).
  { destruct Ht as [Ht|Ht].
    - left. assert (~ 1 <= 719163 + t / 86400) by (revert Ht; clear; arith). lia.
    - right. assert (~ 719163 + t / 86400 <= 3652059) by (revert Ht; clear; arith).
      lia. }
  destruct (negb _); [exists OSError; auto|].
  exists ValueError. split; [|auto].
  unfold new, _check_date_fields, MINYEAR, MAXYEAR.
  assert (C1 : (1 <=? y) && (y <=? 9999) = false).
  { apply andb_false_iff. destruct Hy; [left|right]; apply Z.leb_gt; lia. }
  rewrite C1. reflexivity.
Qed.

(** [utcfromtimestamp] of an integer: the instant that many seconds
    from the epoch, for the seconds of the years 1 to 9999, and an
    exception for every other integer. *)
Lemma utcfromtimestamp_int_spec t :
  (min_timestamp <= t <= max_timestamp ->
   exists dt,
     utcfromtimestamp_int t = Ok dt
     /\ valid dt /\ tzinfo dt = None /\ microsecond dt = 0
     /\ base_difference dt epoch = t * 1000000)
  /\ (t < min_timestamp \/ max_timestamp < t ->
      exists e,
        utcfromtimestamp_int t = Raise e
        /\ (e = ValueError \/ e = OSError \/ e = OverflowError)).
Proof.
  unfold utcfromtimestamp_int. split.
  - intros Ht. rewrite (in_time_t_range Ht).
    destruct (@from_epoch_in_range t 0 Ht ltac:(lia)) as (dt & E & Htz & Hus & Hd).
    exists dt. split; [exact E|]. split; [exact (from_epoch_valid _ _ E)|].
    split; [exact Htz|]. split; [exact Hus|]. rewrite Hd. lia.
  - intros Ht. destruct (in_time_t t); [|exists OverflowError; auto].
    destruct (@from_epoch_out_of_range t 0 Ht) as (e & -> & He).
    exists e. split; [reflexivity|tauto].
Qed.

End EpochFacts.

Module TimestampSpec.
Import Datetime EpochFacts.

(** X5.  A timestamp given as an integer [n] is read as the instant
    [n] seconds after 1970-01-01T00:00:00: for every [n] from the
    first second of year 1 to the last second of year 9999 the
    validator returns a naive [datetime], with no microseconds, whose
    distance from the epoch is [n] seconds, and construction hands it
    to the field validation; for every other integer the validator
    raises.  [True] and [False] are the integers 1 and 0. *)
Theorem parse_timestamp_epoch_seconds (n : Z) :
  (min_timestamp <= n <= max_timestamp ->
   exists d,
     parse_timestamp (VInt n) = Ok (VDatetime d)
     /\ valid d /\ tzinfo d = None /\ microsecond d = 0
     /\ base_difference d epoch = n * 1000000
     /\ forall datetime_field,
          timestamp_field datetime_field (VInt n) = datetime_field (VDatetime d))
  /\ (n < min_timestamp \/ max_timestamp < n ->
      exists e, parse_timestamp (VInt n) = Raise e)
  /\ parse_timestamp (VBool true) = parse_timestamp (VInt 1)
  /\ parse_timestamp (VBool false) = parse_timestamp (VInt 0).
Proof.
  destruct (utcfromtimestamp_int_spec n) as [Hin Hout].
  split; [|split; [|split; reflexivity]].
  - intros Hn. destruct (Hin Hn) as (d & E & Hv & Htz & Hus & Hd).
    exists d. unfold timestamp_field, parse_timestamp. rewrite E.
    split; [reflexivity|]. split; [exact Hv|]. split; [exact Htz|].
    split; [exact Hus|]. split; [exact Hd|reflexivity].
  - intros Hn. destruct (Hout Hn) as (e & E & _).
    exists e. unfold parse_timestamp. now rewrite E.
Qed.

End TimestampSpec.

(* ================================================================== *)
(** * Properties of the store *)
(* ================================================================== *)

Module DbSpec.
Import Db StringFacts JsonFacts FloatFacts DatetimeFacts DatetimeValidity.

(** ** Lists *)

Lemma mapM_app (A B : Type) (f : A -> result B) l1 : forall l2 ys1 ys2,
  mapM f l1 = Ok ys1 -> mapM f l2 = Ok ys2 ->
  mapM f (l1 ++ l2)%list = Ok (ys1 ++ ys2)%list.
Proof.
  induction l1 as [|x l1 IH]; intros l2 ys1 ys2 H1 H2; cbn [mapM app] in *.
  - injection H1 as <-. exact H2.
  - destruct (f x) as [y|e]; cbn [bind] in *; [|discriminate].
    destruct (mapM f l1) as [ys|e]; cbn [bind] in *; [|discriminate].
    injection H1 as <-. now rewrite (IH l2 ys ys2 eq_refl H2).
Qed.

Lemma mapM_ok (A B : Type) (f : A -> result B) l : forall ys,
  mapM f l = Ok ys <-> Forall2 (fun x y => f x = Ok y) l ys.
Proof.
  induction l as [|x l IH]; intros ys; cbn [mapM].
  - split; [intros [= <-]; constructor|intros H; now inversion H].
  - split.
    + destruct (f x) as [y|] eqn:E; cbn [bind]; [|discriminate].
      destruct (mapM f l) as [ys'|] eqn:E'; cbn [bind]; [|discriminate].
      intros [= <-]. constructor; [exact E|now apply IH].
    + intros H. inversion H as [|? y ? ys' Hx Hl]; subst.
      rewrite Hx. cbn [bind]. apply IH in Hl. rewrite Hl. reflexivity.
Qed.

Lemma mapM_raises (A B : Type) (f : A -> result B) l x e :
  In x l -> f x = Raise e -> exists e', mapM f l = Raise e'.
Proof.
  induction l as [|y l IH]; intros Hin Hx; [destruct Hin|].
  cbn [mapM]. destruct Hin as [->|Hin].
  - rewrite Hx. now exists e.
  - destruct (f y); cbn [bind]; [|eauto].
    destruct (IH Hin Hx) as [e' ->]. now exists e'.
Qed.

Lemma mapM_filter (A B : Type) (f : A -> result B) (p : A -> bool)
  (q : B -> bool) rows : forall rs,
  Forall2 (fun row r => f row = Ok r /\ p row = q r) rows rs ->
  mapM f (filter p rows) = Ok (filter q rs).
Proof.
  induction rows as [|row rows IH]; intros rs H;
    inversion H as [|? r ? rs' [Hf Hp] Hrest]; subst; [reflexivity|].
  cbn [filter]. rewrite Hp. specialize (IH rs' Hrest).
  destruct (q r); [|exact IH].
  cbn [mapM]. rewrite Hf. cbn [bind]. rewrite IH. reflexivity.
Qed.

Lemma filter_all (A : Type) (p : A -> bool) l :
  (forall x, p x = true) -> filter p l = l.
Proof.
  intros Hp. induction l as [|x l IH]; cbn [filter]; [reflexivity|].
  now rewrite Hp, IH.
Qed.

Lemma Forall2_and_r (A B : Type) (P : A -> B -> Prop) (Q : B -> Prop) l1 :
  forall l2, Forall2 P l1 l2 -> Forall Q l2 ->
             Forall2 (fun a b => P a b /\ Q b) l1 l2.
Proof.
  induction l1 as [|a l1 IH]; intros l2 H2 H;
    inversion H2; subst; constructor; inversion H; subst; auto.
Qed.

Lemma concat_cons sep (x y : string) l :
  String.concat sep (x :: y :: l) = x ++ sep ++ String.concat sep (y :: l).
Proof. reflexivity. Qed.

(** ** The [WHERE] clause on ISO text *)

(** A comparison that holds: it returns, and returns [True]. *)
Definition holds (c : result bool) : bool :=
  match c with
  | Ok b => b
  | Raise _ => false
  end.

(** The conjunction of the filters given, on a record with the model
    identifier [row_model] and the instant [ts]: the identifier is
    [model_id], the instant is not before [start] and not after
    [end_]. *)
Definition selected_by (model_id : option string)
  (start end_ : option Datetime.datetime)
  (row_model : option string) (ts : Datetime.datetime) : bool :=
  match model_id with
  | Some m =>
      match row_model with
      | Some m' => String.eqb m' m
      | None => false
      end
  | None => true
  end
  && match start with
     | Some d => holds (Datetime.ge ts d)
     | None => true
     end
  && match end_ with
     | Some d => holds (Datetime.le ts d)
     | None => true
     end.

(** A bound that can be compared with [ts] as text: it carries the
    offset of [ts] (or neither has one). *)
Definition offset_matches (bound : option Datetime.datetime)
  (ts : Datetime.datetime) : Prop :=
  match bound with
  | Some d => Datetime.valid d /\ Datetime.tzinfo ts = Datetime.tzinfo d
  | None => True
  end.

Definition same_offset (bound : option Datetime.datetime)
  (tss : list Datetime.datetime) : Prop :=
  Forall (offset_matches bound) tss.

Lemma where_clause_selected_by model_id start end_ row_model ts :
  Datetime.valid ts -> offset_matches start ts -> offset_matches end_ ts ->
  where_clause model_id start end_ row_model (Datetime.isoformat ts)
  = selected_by model_id start end_ row_model ts.
Proof.
  intros Hv Hs He. unfold where_clause, selected_by. cbn [andb].
  f_equal; [f_equal|].
  - destruct start as [d|]; [|reflexivity]. destruct Hs as [Hd E].
    destruct (leb_isoformat Hv Hd E) as [_ ->]. reflexivity.
  - destruct end_ as [d|]; [|reflexivity]. destruct He as [Hd E].
    destruct (leb_isoformat Hv Hd E) as [-> _]. reflexivity.
Qed.

Section Codec.
Variable float_repr : float -> string.
Variable float_of_str : string -> option float.

Abbreviation _serialize_emotions := (Db._serialize_emotions float_repr).
Abbreviation _deserialize_emotions := (Db._deserialize_emotions float_repr float_of_str).
Abbreviation emotion_of_item := (Db.emotion_of_item float_repr float_of_str).
Abbreviation interaction_of_row := (Db.interaction_of_row float_repr float_of_str).
Abbreviation ritual_of_row := (Db.ritual_of_row float_repr float_of_str).
Abbreviation add_interaction := (Db.add_interaction float_repr).
Abbreviation add_ritual := (Db.add_ritual float_repr).
Abbreviation get_interactions := (Db.get_interactions float_repr float_of_str).
Abbreviation get_rituals := (Db.get_rituals float_repr float_of_str).
Abbreviation item_text := (JsonFacts.item_text float_repr).
Abbreviation tail_text := (JsonFacts.tail_text float_repr).
Abbreviation emotions_text := (JsonFacts.emotions_text float_repr).
Abbreviation float_text_ok := (JsonFacts.float_text_ok float_repr float_of_str).

(** ** The emotion list written and read back *)

(** The emotions of a record are within bounds, as their constructor
    ensures. *)
Definition emotions_valid (es : list EmotionIntensity.t) : Prop :=
  Forall (fun e => in_unit_interval (EmotionIntensity.intensity e)) es.

(** The float conversions agree on the intensities of the list. *)
Definition emotions_text_ok (es : list EmotionIntensity.t) : Prop :=
  Forall (fun e => float_text_ok (EmotionIntensity.intensity e)) es.

(** The text [json.dumps] writes for one emotion. *)
Definition emotion_json (e : EmotionIntensity.t) : string := item_text e "".

Lemma item_text_app e rest : item_text e rest = emotion_json e ++ rest.
Proof.
  unfold emotion_json, JsonFacts.item_text. cbn [append].
  repeat (rewrite append_assoc; cbn [append]). reflexivity.
Qed.

Lemma dumps_emotion e :
  in_unit_interval (EmotionIntensity.intensity e) ->
  Json.dumps float_repr (EmotionIntensity.to_dict e) = Ok (emotion_json e).
Proof.
  intros Hx. cbn. rewrite (@floatstr_unit float_repr _ Hx).
  unfold emotion_json, JsonFacts.item_text, Json.encode_basestring. cbn.
  rewrite ?append_assoc. reflexivity.
Qed.

Lemma dumps_emotions_items es :
  emotions_valid es ->
  (fix dumps_items (l : list value) : result (list string) :=
     match l with
     | [] => Ok []
     | v :: l' =>
         t <- Json.dumps float_repr v ;; ts <- dumps_items l' ;; Ok (t :: ts)
     end) (map EmotionIntensity.to_dict es) = Ok (map emotion_json es).
Proof.
  induction 1 as [|e es He Hes IH]; [reflexivity|].
  cbn [map]. rewrite (@dumps_emotion e He). cbn [bind]. rewrite IH. reflexivity.
Qed.

Lemma join_emotions es : forall e rest,
  Json.join_items (map emotion_json (e :: es)) ++ String "]" rest
  = item_text e (tail_text es rest).
Proof.
  unfold Json.join_items.
  induction es as [|e' es IH]; intros e rest; rewrite item_text_app.
  - reflexivity.
  - specialize (IH e' rest). cbn [map] in IH |- *.
    rewrite concat_cons, !append_assoc. cbn [append JsonFacts.tail_text].
    now rewrite IH.
Qed.

Lemma serialize_emotions_text es :
  emotions_valid es -> _serialize_emotions es = Ok (emotions_text es).
Proof.
  intros Hes. unfold Db._serialize_emotions.
  cbn [Json.dumps]. rewrite (@dumps_emotions_items es Hes). cbn [bind].
  destruct es as [|e es]; [reflexivity|].
  unfold JsonFacts.emotions_text. rewrite <- join_emotions. reflexivity.
Qed.

Lemma emotion_of_item_to_dict e :
  in_unit_interval (EmotionIntensity.intensity e) ->
  emotion_of_item (EmotionIntensity.to_dict e) = Ok e.
Proof.
  intros Hx. apply unit_interval_leb in Hx. destruct Hx as [H0 H1].
  destruct e as [n x]. cbn [EmotionIntensity.intensity] in *.
  unfold Db.emotion_of_item, EmotionIntensity.to_dict,
    EmotionIntensity.from_kwargs, EmotionIntensity.check_intensity.
  cbn -[PrimFloat.leb]. rewrite H0, H1. reflexivity.
Qed.

Lemma mapM_emotions es :
  emotions_valid es ->
  mapM emotion_of_item (map EmotionIntensity.to_dict es) = Ok es.
Proof.
  induction 1 as [|e es He Hes IH]; [reflexivity|].
  cbn [map mapM]. rewrite (@emotion_of_item_to_dict e He). cbn [bind].
  rewrite IH. reflexivity.
Qed.

Lemma deserialize_emotions_text es :
  emotions_valid es -> emotions_text_ok es ->
  _deserialize_emotions (emotions_text es) = Ok es.
Proof.
  intros Hv Hok.
  pose proof (@loads_emotions_text float_repr float_of_str es Hok) as Hl.
  destruct es as [|e es]; [reflexivity|].
  unfold Db._deserialize_emotions, JsonFacts.emotions_text in *.
  rewrite Hl. cbn [bind Db.iterate]. now apply mapM_emotions.
Qed.

(** X6.  A list of emotions within bounds that is written by
    [_serialize_emotions] is read back by [_deserialize_emotions] as
    the same list, element by element and in the same order (the float
    conversions being inverse to each other on the intensities). *)
Theorem serialize_deserialize_emotions es :
  emotions_valid es -> emotions_text_ok es ->
  exists text,
    _serialize_emotions es = Ok text /\ _deserialize_emotions text = Ok es.
Proof.
  intros Hv Hok. exists (emotions_text es).
  split; [now apply serialize_emotions_text|now apply deserialize_emotions_text].
Qed.

Lemma from_kwargs_raises item e :
  EmotionIntensity.from_kwargs float_repr float_of_str item = Raise e ->
  e = ValidationError \/ e = OverflowError.
Proof.
  unfold EmotionIntensity.from_kwargs, EmotionIntensity.check_intensity.
  destruct (get item "intensity") as [vx|];
    [destruct vx as [|b|n|x|s|s|d|l|d]; cbn [EmotionIntensity.float_validator bind]|];
    destruct (get item "name") as [vn|];
    try destruct vn as [|b'|n'|x'|s'|s'|d'|l'|d'];
    cbn [EmotionIntensity.str_validator bind];
    repeat match goal with
    | |- context [if ?c then _ else _] => destruct c; cbn [bind]
    | |- context [match float_of_str ?s with _ => _ end] =>
        destruct (float_of_str s); cbn [bind]
    end;
    try discriminate; intros [= <-]; auto.
Qed.

Lemma mapM_emotion_of_item_valid items : forall es,
  mapM emotion_of_item items = Ok es -> emotions_valid es.
Proof.
  intros es H. apply mapM_ok in H.
  induction H as [|item e items es He _ IH]; constructor; [|exact IH].
  destruct item; try discriminate He. cbn [Db.emotion_of_item] in He.
  apply SchemasSpec.from_kwargs_inv in He.
  destruct He as (_ & _ & _ & _ & _ & _ & H). exact H.
Qed.

Lemma mapM_emotion_of_item_raises items : forall e,
  mapM emotion_of_item items = Raise e ->
  e = TypeError \/ e = ValidationError \/ e = OverflowError.
Proof.
  induction items as [|item items IH]; intros e; cbn [mapM]; [discriminate|].
  destruct (emotion_of_item item) as [x|e'] eqn:E; cbn [bind].
  - destruct (mapM emotion_of_item items); cbn [bind]; [discriminate|].
    intros [= <-]. now apply IH.
  - intros [= <-]. destruct item; cbn [Db.emotion_of_item] in E;
      try (injection E as <-; now left).
    apply from_kwargs_raises in E. tauto.
Qed.

(** X7.  Whatever text the emotions column holds: text that is empty
    or is not JSON is read as the empty list; a list that is returned
    holds only emotions within bounds; and an exception is raised only
    for text that is valid JSON, and is then a [TypeError], a
    [ValidationError] or an [OverflowError]. *)
Theorem deserialize_emotions_outcome (data : string) :
  (data = "" \/ (exists e, Json.loads float_of_str data = Raise e) ->
   _deserialize_emotions data = Ok [])
  /\ (forall es, _deserialize_emotions data = Ok es -> emotions_valid es)
  /\ (forall e, _deserialize_emotions data = Raise e ->
        (exists raw, Json.loads float_of_str data = Ok raw)
        /\ (e = TypeError \/ e = ValidationError \/ e = OverflowError)).
Proof.
  unfold Db._deserialize_emotions. split; [|split].
  - intros [->|[e H]]; [reflexivity|].
    destruct data; [reflexivity|]. now rewrite H.
  - intros es. destruct data as [|c data]; [intros [= <-]; constructor|].
    destruct (Json.loads float_of_str (String c data)) as [raw|];
      [|intros [= <-]; constructor].
    destruct (Db.iterate raw) as [items|]; cbn [bind]; [|discriminate].
    apply mapM_emotion_of_item_valid.
  - intros e. destruct data as [|c data]; [discriminate|].
    destruct (Json.loads float_of_str (String c data)) as [raw|];
      [|discriminate].
    intros H. split; [now exists raw|].
    destruct (Db.iterate raw) as [items|e'] eqn:Ei; cbn [bind] in H.
    + now apply mapM_emotion_of_item_raises in H.
    + injection H as <-. left.
      destruct raw; cbn [Db.iterate] in Ei; congruence.
Qed.

(** ** Rows *)

(** A record as its class guarantees it: a timestamp that is a
    [datetime], intensities within bounds. *)
Definition valid_interaction (r : FamiliarInteraction.t) : Prop :=
  Datetime.valid (FamiliarInteraction.timestamp r)
  /\ emotions_valid (FamiliarInteraction.emotions r).

Definition valid_ritual (r : RitualOutcome.t) : Prop :=
  Datetime.valid (RitualOutcome.timestamp r)
  /\ emotions_valid (RitualOutcome.emotions r).

(** The row [add_interaction] inserts for a record. *)
Definition row_of (id : Z) (r : FamiliarInteraction.t) : interaction_row :=
  mk_interaction_row id
    (Datetime.isoformat (FamiliarInteraction.timestamp r))
    (FamiliarInteraction.familiar_id r)
    (FamiliarInteraction.interaction_type r)
    (emotions_text (FamiliarInteraction.emotions r))
    (FamiliarInteraction.notes r)
    (FamiliarInteraction.model_id r).

(** The row [add_ritual] inserts for a record. *)
Definition ritual_row_of (id : Z) (r : RitualOutcome.t) : ritual_row :=
  mk_ritual_row id
    (Datetime.isoformat (RitualOutcome.timestamp r))
    (RitualOutcome.ritual_name r)
    (if RitualOutcome.success r then 1 else 0)
    (RitualOutcome.outcome_description r)
    (emotions_text (RitualOutcome.emotions r))
    (RitualOutcome.notes r)
    (RitualOutcome.model_id r).

Lemma add_interaction_row r db :
  valid_interaction r ->
  add_interaction r db
  = Ok (interactions_seq db + 1,
        mk_database (interactions db ++ [row_of (interactions_seq db + 1) r])%list
          (interactions_seq db + 1) (rituals db) (rituals_seq db)).
Proof.
  intros [_ Hes]. unfold Db.add_interaction.
  rewrite (@serialize_emotions_text _ Hes). reflexivity.
Qed.

Lemma add_ritual_row r db :
  valid_ritual r ->
  add_ritual r db
  = Ok (rituals_seq db + 1,
        mk_database (interactions db) (interactions_seq db)
          (rituals db ++ [ritual_row_of (rituals_seq db + 1) r])%list
          (rituals_seq db + 1)).
Proof.
  intros [_ Hes]. unfold Db.add_ritual.
  rewrite (@serialize_emotions_text _ Hes). reflexivity.
Qed.

Lemma interaction_of_row_row_of id r :
  valid_interaction r ->
  emotions_text_ok (FamiliarInteraction.emotions r) ->
  interaction_of_row (row_of id r) = Ok r.
Proof.
  intros [Hts Hes] Hok. unfold Db.interaction_of_row, row_of.
  cbn [i_emotions i_timestamp i_familiar_id i_interaction_type i_notes i_model_id].
  rewrite (@deserialize_emotions_text _ Hes Hok). cbn [bind].
  rewrite (@fromisoformat_isoformat _ Hts). cbn [bind].
  now destruct r.
Qed.

Lemma ritual_of_row_ritual_row_of id r :
  valid_ritual r ->
  emotions_text_ok (RitualOutcome.emotions r) ->
  ritual_of_row (ritual_row_of id r) = Ok r.
Proof.
  intros [Hts Hes] Hok. unfold Db.ritual_of_row, ritual_row_of.
  cbn [r_emotions r_timestamp r_ritual_name r_success r_outcome_description
       r_notes r_model_id].
  rewrite (@deserialize_emotions_text _ Hes Hok). cbn [bind].
  rewrite (@fromisoformat_isoformat _ Hts). cbn [bind].
  destruct r as [ts n [] od es no mi]; reflexivity.
Qed.

Lemma get_interactions_all db :
  get_interactions None None None db = mapM interaction_of_row (interactions db).
Proof. unfold Db.get_interactions. now rewrite filter_all. Qed.

Lemma get_rituals_all db :
  get_rituals None None None db = mapM ritual_of_row (rituals db).
Proof. unfold Db.get_rituals. now rewrite filter_all. Qed.

(** ** Insert, then read *)




(** ** Filters *)

(** What a row holds of a record: its timestamp as ISO text, and the
    record itself when the row is read. *)
Definition stores (row : interaction_row) (r : FamiliarInteraction.t) : Prop :=
  i_timestamp row = Datetime.isoformat (FamiliarInteraction.timestamp r)
  /\ Datetime.valid (FamiliarInteraction.timestamp r)
  /\ interaction_of_row row = Ok r.

Definition ritual_stores (row : ritual_row) (r : RitualOutcome.t) : Prop :=
  r_timestamp row = Datetime.isoformat (RitualOutcome.timestamp r)
  /\ Datetime.valid (RitualOutcome.timestamp r)
  /\ ritual_of_row row = Ok r.

(** The tables hold the records [rs], oldest first. *)
Definition stored (db : database) (rs : list FamiliarInteraction.t) : Prop :=
  Forall2 stores (interactions db) rs.

Definition rituals_stored (db : database) (rs : list RitualOutcome.t) : Prop :=
  Forall2 ritual_stores (rituals db) rs.

Lemma stores_row_of id r :
  valid_interaction r ->
  emotions_text_ok (FamiliarInteraction.emotions r) ->
  stores (row_of id r) r.
Proof.
  intros Hv Hok. split; [reflexivity|]. split; [apply Hv|].
  now apply interaction_of_row_row_of.
Qed.

Lemma ritual_stores_row_of id r :
  valid_ritual r ->
  emotions_text_ok (RitualOutcome.emotions r) ->
  ritual_stores (ritual_row_of id r) r.
Proof.
  intros Hv Hok. split; [reflexivity|]. split; [apply Hv|].
  now apply ritual_of_row_ritual_row_of.
Qed.

(** The inserts keep the tables tables of stored records. *)
Lemma add_interaction_stored r db rs :
  stored db rs -> valid_interaction r ->
  emotions_text_ok (FamiliarInteraction.emotions r) ->
  exists db',
    add_interaction r db = Ok (interactions_seq db + 1, db')
    /\ stored db' (rs ++ [r])%list
    /\ rituals db' = rituals db.
Proof.
  intros Hdb Hv Hok. eexists. split; [now apply add_interaction_row|].
  split; [|reflexivity].
  unfold stored. cbn [interactions].
  apply Forall2_app; [exact Hdb|].
  constructor; [now apply stores_row_of|constructor].
Qed.

Lemma add_ritual_stored r db rs :
  rituals_stored db rs -> valid_ritual r ->
  emotions_text_ok (RitualOutcome.emotions r) ->
  exists db',
    add_ritual r db = Ok (rituals_seq db + 1, db')
    /\ rituals_stored db' (rs ++ [r])%list
    /\ interactions db' = interactions db.
Proof.
  intros Hdb Hv Hok. eexists. split; [now apply add_ritual_row|].
  split; [|reflexivity].
  unfold rituals_stored. cbn [rituals].
  apply Forall2_app; [exact Hdb|].
  constructor; [now apply ritual_stores_row_of|constructor].
Qed.

Lemma stores_model_id row r :
  stores row r -> i_model_id row = FamiliarInteraction.model_id r.
Proof.
  intros (_ & _ & H). unfold Db.interaction_of_row in H.
  destruct (_deserialize_emotions (i_emotions row)); [|discriminate].
  destruct (Datetime.fromisoformat (i_timestamp row)); [|discriminate].
  cbn [bind] in H. injection H as <-. reflexivity.
Qed.

Lemma ritual_stores_model_id row r :
  ritual_stores row r -> r_model_id row = RitualOutcome.model_id r.
Proof.
  intros (_ & _ & H). unfold Db.ritual_of_row in H.
  destruct (_deserialize_emotions (r_emotions row)); [|discriminate].
  destruct (Datetime.fromisoformat (r_timestamp row)); [|discriminate].
  cbn [bind] in H. injection H as <-. reflexivity.
Qed.

Definition selected (model_id : option string)
  (start end_ : option Datetime.datetime) (r : FamiliarInteraction.t) : bool :=
  selected_by model_id start end_ (FamiliarInteraction.model_id r)
    (FamiliarInteraction.timestamp r).

Definition ritual_selected (model_id : option string)
  (start end_ : option Datetime.datetime) (r : RitualOutcome.t) : bool :=
  selected_by model_id start end_ (RitualOutcome.model_id r)
    (RitualOutcome.timestamp r).

Lemma select_interactions model_id start end_ rows rs :
  Forall2 stores rows rs ->
  same_offset start (map FamiliarInteraction.timestamp rs) ->
  same_offset end_ (map FamiliarInteraction.timestamp rs) ->
  mapM interaction_of_row
    (filter (fun row =>
               where_clause model_id start end_ (i_model_id row) (i_timestamp row))
       rows)
  = Ok (filter (selected model_id start end_) rs).
Proof.
  intros Hdb Hs He. apply mapM_filter.
  unfold same_offset in Hs, He. rewrite Forall_map in Hs, He.
  pose proof (Forall2_and_r (Forall2_and_r Hdb Hs) He) as H.
  eapply Forall2_impl; [|exact H].
  intros row r [[Hst Hs1] He1]. cbv beta in *.
  split; [apply Hst|].
  rewrite (@stores_model_id row r Hst).
  destruct Hst as (-> & Hv & _).
  now apply where_clause_selected_by.
Qed.

Lemma select_rituals model_id start end_ rows rs :
  Forall2 ritual_stores rows rs ->
  same_offset start (map RitualOutcome.timestamp rs) ->
  same_offset end_ (map RitualOutcome.timestamp rs) ->
  mapM ritual_of_row
    (filter (fun row =>
               where_clause model_id start end_ (r_model_id row) (r_timestamp row))
       rows)
  = Ok (filter (ritual_selected model_id start end_) rs).
Proof.
  intros Hdb Hs He. apply mapM_filter.
  unfold same_offset in Hs, He. rewrite Forall_map in Hs, He.
  pose proof (Forall2_and_r (Forall2_and_r Hdb Hs) He) as H.
  eapply Forall2_impl; [|exact H].
  intros row r [[Hst Hs1] He1]. cbv beta in *.
  split; [apply Hst|].
  rewrite (@ritual_stores_model_id row r Hst).
  destruct Hst as (-> & Hv & _).
  now apply where_clause_selected_by.
Qed.

(** X11.  On a table of stored records, with bounds that carry the
    offset of every stored timestamp (or all are naive),
    [get_interactions] returns exactly the records that satisfy the
    conjunction of the filters given: [model_id] equal to the one asked
    for (a null [model_id] equals none), the instant not before
    [start] and not after [end_], both bounds included; in insertion
    order. *)
Theorem get_interactions_selected model_id start end_ db rs :
  stored db rs ->
  same_offset start (map FamiliarInteraction.timestamp rs) ->
  same_offset end_ (map FamiliarInteraction.timestamp rs) ->
  get_interactions model_id start end_ db
  = Ok (filter (selected model_id start end_) rs).
Proof.
  intros Hdb Hs He. unfold Db.get_interactions. now apply select_interactions.
Qed.

(** X12.  The same for [get_rituals]: on a table of stored rituals,
    with bounds that carry the offset of every stored timestamp, it
    returns exactly the rituals that satisfy the conjunction of the
    filters given, both bounds included, in insertion order. *)
Theorem get_rituals_selected model_id start end_ db rs :
  rituals_stored db rs ->
  same_offset start (map RitualOutcome.timestamp rs) ->
  same_offset end_ (map RitualOutcome.timestamp rs) ->
  get_rituals model_id start end_ db
  = Ok (filter (ritual_selected model_id start end_) rs).
Proof.
  intros Hdb Hs He. unfold Db.get_rituals. now apply select_rituals.
Qed.

(** ** Rows that cannot be read *)

(** X13.  [get_interactions] and [get_rituals] return all selected rows
    or none: they return a list exactly when every row the filters
    select can be read, the list then holding the records of these rows
    in order; as soon as one selected row cannot be read (emotions that
    are JSON of another shape, a timestamp that is not ISO text), the
    query raises. *)
Theorem get_all_or_nothing model_id start end_ db :
  (forall rs,
     get_interactions model_id start end_ db = Ok rs
     <-> Forall2 (fun row r => interaction_of_row row = Ok r)
           (filter (fun row =>
                      where_clause model_id start end_
                        (i_model_id row) (i_timestamp row))
              (interactions db)) rs)
  /\ (forall row e,
        In row (interactions db) ->
        where_clause model_id start end_ (i_model_id row) (i_timestamp row) = true ->
        interaction_of_row row = Raise e ->
        exists e', get_interactions model_id start end_ db = Raise e')
  /\ (forall rs,
        get_rituals model_id start end_ db = Ok rs
        <-> Forall2 (fun row r => ritual_of_row row = Ok r)
              (filter (fun row =>
                         where_clause model_id start end_
                           (r_model_id row) (r_timestamp row))
                 (rituals db)) rs)
  /\ (forall row e,
        In row (rituals db) ->
        where_clause model_id start end_ (r_model_id row) (r_timestamp row) = true ->
        ritual_of_row row = Raise e ->
        exists e', get_rituals model_id start end_ db = Raise e').
Proof.
  unfold Db.get_interactions, Db.get_rituals.
  split; [intros rs; apply mapM_ok|].
  split.
  { intros row e Hin Hsel Hrow. eapply mapM_raises; [|exact Hrow].
    apply filter_In. split; assumption. }
  split; [intros rs; apply mapM_ok|].
  intros row e Hin Hsel Hrow. eapply mapM_raises; [|exact Hrow].
  apply filter_In. split; assumption.
Qed.

(** ** The model filter on any table *)

Definition has_model (m : string) (model_id : option string) : bool :=
  match model_id with
  | Some m' => String.eqb m' m
  | None => false
  end.

Lemma interaction_of_row_model_id row r :
  interaction_of_row row = Ok r -> i_model_id row = FamiliarInteraction.model_id r.
Proof.
  unfold Db.interaction_of_row.
  destruct (_deserialize_emotions (i_emotions row)); [|discriminate].
  destruct (Datetime.fromisoformat (i_timestamp row)); [|discriminate].
  cbn [bind]. now intros [= <-].
Qed.

Lemma ritual_of_row_model_id row r :
  ritual_of_row row = Ok r -> r_model_id row = RitualOutcome.model_id r.
Proof.
  unfold Db.ritual_of_row.
  destruct (_deserialize_emotions (r_emotions row)); [|discriminate].
  destruct (Datetime.fromisoformat (r_timestamp row)); [|discriminate].
  cbn [bind]. now intros [= <-].
Qed.

(** X14.  Whatever the tables hold, when the query without filters
    returns, the query with the model filter alone returns exactly the
    records of that result whose [model_id] is the one asked for, in
    the same order; a record without [model_id] is never among them. *)
Theorem get_by_model m db :
  (forall all,
     get_interactions None None None db = Ok all ->
     get_interactions (Some m) None None db
     = Ok (filter (fun r => has_model m (FamiliarInteraction.model_id r)) all))
  /\ (forall all,
        get_rituals None None None db = Ok all ->
        get_rituals (Some m) None None db
        = Ok (filter (fun r => has_model m (RitualOutcome.model_id r)) all)).
Proof.
  split; intros all Hall.
  - rewrite get_interactions_all in Hall. apply mapM_ok in Hall.
    unfold Db.get_interactions. apply mapM_filter.
    eapply Forall2_impl; [|exact Hall].
    intros row r Hrow. split; [exact Hrow|].
    unfold where_clause, has_model.
    rewrite (interaction_of_row_model_id _ Hrow).
    destruct (FamiliarInteraction.model_id r); cbn [andb];
      now rewrite ?andb_true_r.
  - rewrite get_rituals_all in Hall. apply mapM_ok in Hall.
    unfold Db.get_rituals. apply mapM_filter.
    eapply Forall2_impl; [|exact Hall].
    intros row r Hrow. split; [exact Hrow|].
    unfold where_clause, has_model.
    rewrite (ritual_of_row_model_id _ Hrow).
    destruct (RitualOutcome.model_id r); cbn [andb];
      now rewrite ?andb_true_r.
Qed.

End Codec.

(** ** Examples *)

(** The float conversions on the two numbers the examples use:
    [repr(0.5)] is ['0.5'] and [repr(0.0)] is ['0.0']. *)
Definition sample_repr (x : float) : string :=
  if PrimFloat.eqb x 0.5 then "0.5" else "0.0".

Definition sample_of_str (s : string) : option float :=
  if String.eqb s "0.5" then Some 0.5%float
  else if String.eqb s "0.0" then Some 0%float
  else None.

Definition half_joy : EmotionIntensity.t := EmotionIntensity.mk "joy" 0.5.

Definition morning : FamiliarInteraction.t :=
  FamiliarInteraction.mk (Datetime.mkdatetime 2024 1 1 10 0 0 0 None)
    "raven" "greeting" [half_joy] (Some "first") (Some "model-a").

Definition next_day : FamiliarInteraction.t :=
  FamiliarInteraction.mk (Datetime.mkdatetime 2024 1 2 10 0 0 250000 None)
    "raven" "farewell" [] None None.

Definition moon_rite : RitualOutcome.t :=
  RitualOutcome.mk (Datetime.mkdatetime 2024 1 1 22 30 0 0 None)
    "Moon Rite" true (Some "calm") [half_joy] None (Some "model-a").

Definition sun_rite : RitualOutcome.t :=
  RitualOutcome.mk (Datetime.mkdatetime 2024 1 3 6 0 0 0 None)
    "Sun Rite" false None [] None None.

Definition noon : Datetime.datetime :=
  Datetime.mkdatetime 2024 1 1 12 0 0 0 None.

Lemma half_text_ok :
  JsonFacts.float_text_ok sample_repr sample_of_str 0.5.
Proof. intros rest. reflexivity. Qed.

Lemma half_in_unit_interval : in_unit_interval 0.5.
Proof. vm_compute. repeat split; discriminate. Qed.

Lemma half_joy_valid : emotions_valid [half_joy].
Proof. apply Forall_cons; [exact half_in_unit_interval|apply Forall_nil]. Qed.

Lemma half_joy_text_ok : emotions_text_ok sample_repr sample_of_str [half_joy].
Proof. apply Forall_cons; [exact half_text_ok|apply Forall_nil]. Qed.

Lemma morning_valid : valid_interaction morning.
Proof. split; [split; [reflexivity|exact I]|exact half_joy_valid]. Qed.

Lemma next_day_valid : valid_interaction next_day.
Proof. split; [split; [reflexivity|exact I]|apply Forall_nil]. Qed.

Lemma moon_rite_valid : valid_ritual moon_rite.
Proof. split; [split; [reflexivity|exact I]|exact half_joy_valid]. Qed.

Lemma sun_rite_valid : valid_ritual sun_rite.
Proof. split; [split; [reflexivity|exact I]|apply Forall_nil]. Qed.

Lemma serialize_deserialize_emotions_example :
  exists text,
    Db._serialize_emotions sample_repr [half_joy] = Ok text
    /\ Db._deserialize_emotions sample_repr sample_of_str text = Ok [half_joy].
Proof.
  exact (@serialize_deserialize_emotions sample_repr sample_of_str [half_joy]
           half_joy_valid half_joy_text_ok).
Defined.



(** The tables after the two interactions and the two rituals were
    inserted. *)
Definition two_days : database :=
  mk_database
    [row_of sample_repr 1 morning; row_of sample_repr 2 next_day] 2
    [ritual_row_of sample_repr 1 moon_rite; ritual_row_of sample_repr 2 sun_rite] 2.

Lemma two_days_stored :
  stored sample_repr sample_of_str two_days [morning; next_day].
Proof.
  apply Forall2_cons; [|apply Forall2_cons; [|apply Forall2_nil]].
  - apply stores_row_of; [exact morning_valid|exact half_joy_text_ok].
  - apply stores_row_of; [exact next_day_valid|apply Forall_nil].
Qed.

Lemma two_days_rituals_stored :
  rituals_stored sample_repr sample_of_str two_days [moon_rite; sun_rite].
Proof.
  apply Forall2_cons; [|apply Forall2_cons; [|apply Forall2_nil]].
  - apply ritual_stores_row_of; [exact moon_rite_valid|exact half_joy_text_ok].
  - apply ritual_stores_row_of; [exact sun_rite_valid|apply Forall_nil].
Qed.

Lemma noon_same_offset ts : Datetime.tzinfo ts = None ->
  offset_matches (Some noon) ts.
Proof. intros H. split; [split; [reflexivity|exact I]|exact H]. Qed.

Lemma get_interactions_selected_example :
  Db.get_interactions sample_repr sample_of_str None (Some noon) None two_days
  = Ok [next_day].
Proof.
  refine (@get_interactions_selected sample_repr sample_of_str
            None (Some noon) None two_days [morning; next_day]
            two_days_stored _ _).
  - apply Forall_cons; [now apply noon_same_offset|].
    apply Forall_cons; [now apply noon_same_offset|apply Forall_nil].
  - apply Forall_cons; [exact I|]. apply Forall_cons; [exact I|apply Forall_nil].
Defined.

Lemma get_rituals_selected_example :
  Db.get_rituals sample_repr sample_of_str (Some "model-a") None (Some noon) two_days
  = Ok [].
Proof.
  refine (@get_rituals_selected sample_repr sample_of_str
            (Some "model-a") None (Some noon) two_days [moon_rite; sun_rite]
            two_days_rituals_stored _ _).
  - apply Forall_cons; [exact I|]. apply Forall_cons; [exact I|apply Forall_nil].
  - apply Forall_cons; [now apply noon_same_offset|].
    apply Forall_cons; [now apply noon_same_offset|apply Forall_nil].
Defined.

(** A record five hours east of Greenwich, and a bound in UTC one hour
    after it. *)
Definition east : FamiliarInteraction.t :=
  FamiliarInteraction.mk
    (Datetime.mkdatetime 2024 1 1 10 0 0 0 (Some 18000000000))
    "raven" "greeting" [] None None.

Definition six_utc : Datetime.datetime :=
  Datetime.mkdatetime 2024 1 1 6 0 0 0 (Some 0).

Definition east_db : database :=
  mk_database [row_of sample_repr 1 east] 1 [] 0.

(** Why the bounds must carry the offset of the stored timestamps: the
    record's instant (05:00 UTC) is before the bound (06:00 UTC), and
    [get_interactions] returns it, because its text is the greater. *)
Lemma get_interactions_offsets_as_text :
  Db.add_interaction sample_repr east Db.empty = Ok (1, east_db)
  /\ Datetime.valid (FamiliarInteraction.timestamp east)
  /\ Datetime.valid six_utc
  /\ Datetime.ge (FamiliarInteraction.timestamp east) six_utc = Ok false
  /\ selected None (Some six_utc) None east = false
  /\ Db.get_interactions sample_repr sample_of_str None (Some six_utc) None east_db
     = Ok [east].
Proof.
  split; [reflexivity|].
  split; [split; reflexivity|].
  split; [split; reflexivity|].
  split; [vm_compute; reflexivity|].
  split; [vm_compute; reflexivity|].
  vm_compute. reflexivity.
Qed.

(** A table of each kind with one row whose emotions column holds valid
    JSON that is not a list of emotion objects: the queries raise. *)
Definition corrupt_db : database :=
  mk_database
    [mk_interaction_row 1 "2024-01-01T10:00:00" "raven" "greeting" "[]" None None;
     mk_interaction_row 2 "2024-01-02T10:00:00" "raven" "greeting" "null" None None]
    2
    [mk_ritual_row 1 "2024-01-01T10:00:00" "Moon Rite" 1 None "[1]" None None]
    1.

Lemma deserialize_emotions_wrong_shape float_repr float_of_str :
  Db._deserialize_emotions float_repr float_of_str "" = Ok []
  /\ Db._deserialize_emotions float_repr float_of_str "not json" = Ok []
  /\ Db._deserialize_emotions float_repr float_of_str "[{" = Ok []
  /\ Db._deserialize_emotions float_repr float_of_str "null" = Raise TypeError
  /\ Db._deserialize_emotions float_repr float_of_str "[1]" = Raise TypeError
  /\ Db._deserialize_emotions float_repr float_of_str "[{}]" = Raise ValidationError
  /\ Db.get_interactions float_repr float_of_str None None None corrupt_db
     = Raise TypeError
  /\ Db.get_rituals float_repr float_of_str None None None corrupt_db
     = Raise TypeError.
Proof. repeat split; vm_compute; reflexivity. Qed.

End DbSpec.

(* ================================================================== *)
(** * The insight engine: counts, order and the list of insights *)
(* ================================================================== *)

Module InsightsSpec.
Import Patterns DictFacts PatternsSpec.

(** ** aggregate_emotion_counts *)

(** Entries named [n] over all interactions and rituals. *)
Definition total_occurrences (n : string)
  (interactions : list FamiliarInteraction.t) (rituals : list RitualOutcome.t) : Z :=
  sumZ (map (fun i => occurrences n (FamiliarInteraction.emotions i)) interactions)
  + sumZ (map (fun r => occurrences n (RitualOutcome.emotions r)) rituals).

(** The invariant of the counting loops: the counter holds exactly the
    positive values of the tally [T], under unique keys. *)
Record counts (d : dict Z) (T : string -> Z) : Prop := {
  counts_lookup : forall n, get d n = if 0 <? T n then Some (T n) else None;
  counts_nonneg : forall n, 0 <= T n;
  counts_keys : NoDup (keys d)
}.

Lemma counts_ext d T T' :
  counts d T -> (forall n, T' n = T n) -> counts d T'.
Proof.
  intros [Hl Hn Hk] HT. constructor; auto; intros n; rewrite HT; auto.
Qed.

Lemma counts_step nm d T :
  counts d T ->
  counts (modify d nm 0 (fun n => n + 1))
    (fun n => T n + if String.eqb n nm then 1 else 0).
Proof.
  intros [Hl Hn Hk]. constructor.
  - intros n. specialize (Hl n). specialize (Hn n).
    destruct (String.eqb_spec n nm) as [->|Hne].
    + rewrite get_modify_same. unfold get_default. rewrite Hl.
      assert (H : (0 <? T nm + 1) = true) by (apply Z.ltb_lt; lia).
      rewrite H. destruct (0 <? T nm) eqn:E; [reflexivity|].
      apply Z.ltb_ge in E. now replace (T nm) with 0 by lia.
    + rewrite get_modify_other by assumption. now rewrite Z.add_0_r.
  - intros n. specialize (Hn n). destruct (String.eqb n nm); lia.
  - now apply NoDup_keys_modify.
Qed.

Lemma counts_count_names es : forall d T,
  counts d T ->
  counts (count_names d es) (fun n => T n + occurrences n es).
Proof.
  unfold count_names.
  induction es as [|e es IH]; intros d T H; cbn [fold_left].
  - apply counts_ext with (1 := H). intros n. unfold occurrences.
    cbn [filter]. rewrite len_nil. lia.
  - eapply counts_ext.
    + apply IH. apply (counts_step (EmotionIntensity.name e) H).
    + intros n. cbv beta. rewrite occurrences_cons, (String.eqb_sym n).
      destruct (String.eqb (EmotionIntensity.name e) n); lia.
Qed.

Lemma counts_records (R : Type) (emotions : R -> list EmotionIntensity.t)
  records : forall d T,
  counts d T ->
  counts (fold_left (fun c x => count_names c (emotions x)) records d)
    (fun n => T n + sumZ (map (fun x => occurrences n (emotions x)) records)).
Proof.
  induction records as [|x xs IH]; intros d T H; cbn [fold_left].
  - apply counts_ext with (1 := H). intros n. cbn [map sumZ]. lia.
  - eapply counts_ext.
    + apply IH. apply (counts_count_names (emotions x) H).
    + intros n. cbv beta. cbn [map sumZ]. lia.
Qed.

Lemma aggregate_emotion_counts_counts interactions rituals :
  counts (aggregate_emotion_counts interactions rituals)
    (fun n => total_occurrences n interactions rituals).
Proof.
  unfold aggregate_emotion_counts. eapply counts_ext.
  - apply counts_records. apply counts_records with (T := fun _ => 0).
    constructor; [reflexivity|intros; lia|constructor].
  - intros n. unfold total_occurrences. cbv beta. lia.
Qed.

Lemma sum_occurrences_pos (R : Type) (emotions : R -> list EmotionIntensity.t)
  n records :
  0 <= sumZ (map (fun x => occurrences n (emotions x)) records)
  /\ (0 < sumZ (map (fun x => occurrences n (emotions x)) records) <->
      exists x e, In x records /\ In e (emotions x)
                  /\ EmotionIntensity.name e = n).
Proof.
  induction records as [|x xs [IH0 IH]]; cbn [map sumZ].
  - split; [lia|]. split; [lia|intros (x & e & [] & _)].
  - pose proof (occurrences_nonneg n (emotions x)) as Hx.
    split; [lia|]. split.
    + intros Hpos.
      destruct (Z.ltb_spec 0 (occurrences n (emotions x))) as [Ho|Ho].
      * apply occurrences_pos in Ho. destruct Ho as (e & He & Hn).
        exists x, e. auto with datatypes.
      * assert (Hxs : 0 < sumZ (map (fun x => occurrences n (emotions x)) xs))
          by lia.
        apply IH in Hxs. destruct Hxs as (x' & e & Hin & Hrest).
        exists x', e. auto with datatypes.
    + intros (x' & e & [<-|Hin] & He & Hn).
      * assert (0 < occurrences n (emotions x)); [|lia].
        apply occurrences_pos. eauto.
      * assert (0 < sumZ (map (fun x => occurrences n (emotions x)) xs));
          [|lia].
        apply IH. eauto.
Qed.

(** A name occurs in some record. *)
Definition occurs (n : string)
  (interactions : list FamiliarInteraction.t) (rituals : list RitualOutcome.t)
  : Prop :=
  (exists i e, In i interactions /\ In e (FamiliarInteraction.emotions i)
               /\ EmotionIntensity.name e = n)
  \/ (exists r e, In r rituals /\ In e (RitualOutcome.emotions r)
                  /\ EmotionIntensity.name e = n).

Lemma total_occurrences_pos n interactions rituals :
  0 < total_occurrences n interactions rituals <-> occurs n interactions rituals.
Proof.
  unfold total_occurrences, occurs.
  destruct (sum_occurrences_pos FamiliarInteraction.emotions n interactions)
    as [Hi0 Hi].
  destruct (sum_occurrences_pos RitualOutcome.emotions n rituals) as [Hr0 Hr].
  rewrite <- Hi, <- Hr. lia.
Qed.

Lemma aggregate_emotion_counts_keys interactions rituals n :
  In n (keys (aggregate_emotion_counts interactions rituals))
  <-> occurs n interactions rituals.
Proof.
  pose proof (aggregate_emotion_counts_counts interactions rituals) as [Hl Hn Hk].
  rewrite <- get_Some_In, Hl, <- total_occurrences_pos.
  destruct (Z.ltb_spec 0 (total_occurrences n interactions rituals));
    split; try congruence; lia.
Qed.

(** X15.  [aggregate_emotion_counts] maps exactly the emotion names
    that occur in some interaction or ritual, each once, to the number
    of emotion entries with that name over all interactions and rituals
    together; no name is mapped to zero. *)
Theorem aggregate_emotion_counts_total interactions rituals :
  (forall n,
     get (aggregate_emotion_counts interactions rituals) n
     = if 0 <? total_occurrences n interactions rituals
       then Some (total_occurrences n interactions rituals)
       else None)
  /\ (forall n,
        In n (keys (aggregate_emotion_counts interactions rituals))
        <-> occurs n interactions rituals)
  /\ NoDup (keys (aggregate_emotion_counts interactions rituals)).
Proof.
  pose proof (aggregate_emotion_counts_counts interactions rituals) as [Hl Hn Hk].
  split; [exact Hl|]. split; [|exact Hk].
  intros n. apply aggregate_emotion_counts_keys.
Qed.

Lemma aggregate_emotion_counts_nil interactions rituals :
  aggregate_emotion_counts interactions rituals = []
  <-> (forall i, In i interactions -> FamiliarInteraction.emotions i = [])
      /\ (forall r, In r rituals -> RitualOutcome.emotions r = []).
Proof.
  pose proof (aggregate_emotion_counts_keys interactions rituals) as Hkeys.
  split.
  - intros Hnil. split.
    + intros i Hi. destruct (FamiliarInteraction.emotions i) as [|e es] eqn:E;
        [reflexivity|].
      assert (Hin : In (EmotionIntensity.name e)
                      (keys (aggregate_emotion_counts interactions rituals))).
      { apply Hkeys. left. exists i, e. rewrite E. auto with datatypes. }
      rewrite Hnil in Hin. destruct Hin.
    + intros r Hr. destruct (RitualOutcome.emotions r) as [|e es] eqn:E;
        [reflexivity|].
      assert (Hin : In (EmotionIntensity.name e)
                      (keys (aggregate_emotion_counts interactions rituals))).
      { apply Hkeys. right. exists r, e. rewrite E. auto with datatypes. }
      rewrite Hnil in Hin. destruct Hin.
  - intros [Hi Hr].
    destruct (aggregate_emotion_counts interactions rituals) as [|[k v] d] eqn:E;
      [reflexivity|].
    assert (Hin : In k (keys ((k, v) :: d))) by (left; reflexivity).
    apply Hkeys in Hin.
    destruct Hin as [(i & e & Hin & He & _)|(r & e & Hin & He & _)].
    + rewrite (Hi i Hin) in He. destruct He.
    + rewrite (Hr r Hin) in He. destruct He.
Qed.

(** ** The two tallies of a name add up to its count *)

Lemma tally_by_outcome_sum n rituals :
  tally_by_outcome true n rituals + tally_by_outcome false n rituals
  = total_occurrences n [] rituals.
Proof.
  unfold tally_by_outcome, total_occurrences. cbn [map sumZ].
  induction rituals as [|r rs IH]; [reflexivity|].
  cbn [map sumZ]. destruct (RitualOutcome.success r); cbn [Bool.eqb]; lia.
Qed.

(** X16.  [ritual_success_by_emotion] and [aggregate_emotion_counts]
    agree on the rituals: they have the same names, and the successes
    and failures tallied under a name add up to the count of that
    name. *)
Theorem ritual_success_by_emotion_adds_up rituals n :
  match get (ritual_success_by_emotion rituals) n with
  | Some (successes, failures) =>
      get (aggregate_emotion_counts [] rituals) n = Some (successes + failures)
      /\ 0 <= successes /\ 0 <= failures /\ 0 < successes + failures
  | None => get (aggregate_emotion_counts [] rituals) n = None
  end.
Proof.
  destruct (ritual_success_by_emotion_tallies rituals) as [Hl Hn _].
  destruct (aggregate_emotion_counts_counts [] rituals) as [Hl' _ _].
  rewrite Hl, Hl', <- tally_by_outcome_sum.
  destruct (Z.ltb_spec 0 (tally_by_outcome true n rituals
                          + tally_by_outcome false n rituals));
    [|reflexivity].
  destruct (Hn n). repeat split; assumption.
Qed.

(** ** The counts by model add up to the counts *)

Lemma sumZ_zero (A : Type) (l : list A) : sumZ (map (fun _ => 0) l) = 0.
Proof. induction l as [|x l IH]; cbn [map sumZ]; lia. Qed.

Lemma sumZ_add (A : Type) (f g : A -> Z) l :
  sumZ (map (fun x => f x + g x) l) = sumZ (map f l) + sumZ (map g l).
Proof. induction l as [|x l IH]; cbn [map sumZ]; lia. Qed.

Lemma sumZ_ext (A : Type) (f g : A -> Z) l :
  (forall x, In x l -> f x = g x) -> sumZ (map f l) = sumZ (map g l).
Proof.
  induction l as [|x l IH]; intros H; cbn [map sumZ]; [reflexivity|].
  rewrite H, IH by auto with datatypes. reflexivity.
Qed.

Lemma sumZ_swap (A B : Type) (f : A -> B -> Z) la lb :
  sumZ (map (fun a => sumZ (map (f a) lb)) la)
  = sumZ (map (fun b => sumZ (map (fun a => f a b) la)) lb).
Proof.
  induction la as [|a la IH]; cbn [map sumZ].
  - now rewrite sumZ_zero.
  - rewrite IH, <- sumZ_add. reflexivity.
Qed.

Lemma sumZ_member (A : Type) (f : A -> Z) l x :
  (forall y, In y l -> 0 <= f y) -> In x l -> f x <= sumZ (map f l).
Proof.
  induction l as [|y l IH]; intros Hnn Hin; [destruct Hin|].
  cbn [map sumZ].
  assert (0 <= sumZ (map f l)).
  { apply sumZ_nonneg. intros z Hz. apply in_map_iff in Hz.
    destruct Hz as (w & <- & Hw). auto with datatypes. }
  assert (0 <= f y) by auto with datatypes.
  destruct Hin as [->|Hin]; [lia|].
  assert (f x <= sumZ (map f l)) by auto with datatypes. lia.
Qed.

(** The value [v] under the key [x], summed over distinct keys. *)
Lemma sumZ_indicator (x : string) (v : Z) K :
  NoDup K ->
  sumZ (map (fun k => if String.eqb x k then v else 0) K)
  = if in_dec string_dec x K then v else 0.
Proof.
  induction 1 as [|k K Hk Hnd IH]; cbn [map sumZ]; [reflexivity|].
  rewrite IH.
  destruct (String.eqb_spec x k) as [->|Hne].
  - destruct (in_dec string_dec k K); [contradiction|].
    destruct (in_dec string_dec k (k :: K)) as [_|H]; [lia|].
    elim H. now left.
  - destruct (in_dec string_dec x K) as [Hin|Hin];
      destruct (in_dec string_dec x (k :: K)) as [Hin'|Hin']; try lia.
    + elim Hin'. now right.
    + destruct Hin' as [E|Hin']; [congruence|contradiction].
Qed.

Lemma sum_by_key (R : Type) (key : R -> string) (occ : R -> Z) K records :
  NoDup K ->
  (forall x, In x records -> 0 < occ x -> In (key x) K) ->
  (forall x, In x records -> 0 <= occ x) ->
  sumZ (map (fun k =>
               sumZ (map (fun x => if String.eqb (key x) k then occ x else 0)
                       records)) K)
  = sumZ (map occ records).
Proof.
  intros Hnd Hin Hnn. rewrite sumZ_swap. apply sumZ_ext. intros x Hx.
  rewrite sumZ_indicator by assumption.
  destruct (in_dec string_dec (key x) K) as [H|H]; [reflexivity|].
  specialize (Hnn x Hx).
  destruct (Z.eq_dec (occ x) 0) as [E|E]; [now rewrite E|].
  elim H. apply Hin; [assumption|lia].
Qed.

(** X17.  [emotion_counts_by_model] splits the counts of
    [aggregate_emotion_counts] among the models: for every emotion
    name, the counts under the model keys add up to the count of the
    name over all records (0 where it is absent). *)
Theorem emotion_counts_by_model_adds_up interactions rituals n :
  sumZ (map (fun k =>
               count_of (lookup2 (emotion_counts_by_model interactions rituals) k n))
          (keys (emotion_counts_by_model interactions rituals)))
  = count_of (get (aggregate_emotion_counts interactions rituals) n).
Proof.
  pose proof (emotion_counts_by_model_tallies interactions rituals) as H.
  destruct (aggregate_emotion_counts_counts interactions rituals) as [Hl Hn _].
  assert (Hcount : forall k,
            count_of (lookup2 (emotion_counts_by_model interactions rituals) k n)
            = tally_by_model k n interactions rituals).
  { intros k. rewrite (tallies_lookup H). pose proof (tallies_nonneg H k n).
    destruct (Z.ltb_spec 0 (tally_by_model k n interactions rituals));
      cbn [count_of]; lia. }
  rewrite (sumZ_ext _ _ _ (fun k _ => Hcount k)).
  rewrite Hl. specialize (Hn n).
  assert (Etotal : count_of (if 0 <? total_occurrences n interactions rituals
                             then Some (total_occurrences n interactions rituals)
                             else None)
                   = total_occurrences n interactions rituals).
  { destruct (Z.ltb_spec 0 (total_occurrences n interactions rituals));
      cbn [count_of]; lia. }
  rewrite Etotal. unfold tally_by_model, total_occurrences.
  rewrite sumZ_add.
  set (K := keys (emotion_counts_by_model interactions rituals)).
  assert (Hpresent : forall k, 0 < tally_by_model k n interactions rituals -> In k K).
  { intros k Hk. apply (tallies_present k H). now exists n. }
  f_equal.
  - apply sum_by_key with (occ := fun i => occurrences n (FamiliarInteraction.emotions i)).
    + apply (tallies_keys H).
    + intros i Hi Hpos. apply Hpresent. unfold tally_by_model.
      pose proof (@sumZ_member _
        (fun j => if String.eqb (model_key (FamiliarInteraction.model_id j))
                       (model_key (FamiliarInteraction.model_id i))
                  then occurrences n (FamiliarInteraction.emotions j) else 0)
        interactions i) as Hm.
      cbv beta in Hm. rewrite String.eqb_refl in Hm.
      assert (0 <= sumZ (map (fun r =>
                 if String.eqb (model_key (RitualOutcome.model_id r))
                      (model_key (FamiliarInteraction.model_id i))
                 then occurrences n (RitualOutcome.emotions r) else 0) rituals)).
      { apply sumZ_nonneg. intros z Hz. apply in_map_iff in Hz.
        destruct Hz as (r & <- & _).
        destruct (String.eqb _ _); [apply occurrences_nonneg|lia]. }
      assert (occurrences n (FamiliarInteraction.emotions i)
              <= sumZ (map (fun j =>
                   if String.eqb (model_key (FamiliarInteraction.model_id j))
                        (model_key (FamiliarInteraction.model_id i))
                   then occurrences n (FamiliarInteraction.emotions j) else 0)
                   interactions)).
      { apply Hm; [|exact Hi]. intros j _.
        destruct (String.eqb _ _); [apply occurrences_nonneg|lia]. }
      lia.
    + intros i _. apply occurrences_nonneg.
  - apply sum_by_key with (occ := fun r => occurrences n (RitualOutcome.emotions r)).
    + apply (tallies_keys H).
    + intros r Hr Hpos. apply Hpresent. unfold tally_by_model.
      pose proof (@sumZ_member _
        (fun j => if String.eqb (model_key (RitualOutcome.model_id j))
                       (model_key (RitualOutcome.model_id r))
                  then occurrences n (RitualOutcome.emotions j) else 0)
        rituals r) as Hm.
      cbv beta in Hm. rewrite String.eqb_refl in Hm.
      assert (0 <= sumZ (map (fun i =>
                 if String.eqb (model_key (FamiliarInteraction.model_id i))
                      (model_key (RitualOutcome.model_id r))
                 then occurrences n (FamiliarInteraction.emotions i) else 0)
                 interactions)).
      { apply sumZ_nonneg. intros z Hz. apply in_map_iff in Hz.
        destruct Hz as (i & <- & _).
        destruct (String.eqb _ _); [apply occurrences_nonneg|lia]. }
      assert (occurrences n (RitualOutcome.emotions r)
              <= sumZ (map (fun j =>
                   if String.eqb (model_key (RitualOutcome.model_id j))
                        (model_key (RitualOutcome.model_id r))
                   then occurrences n (RitualOutcome.emotions j) else 0)
                   rituals)).
      { apply Hm; [|exact Hr]. intros j _.
        destruct (String.eqb _ _); [apply occurrences_nonneg|lia]. }
      lia.
    + intros r _. apply occurrences_nonneg.
Qed.

(** ** compute_success_rate *)

Lemma success_count_flags rituals :
  success_count rituals
  = Z.of_nat (count_occ bool_dec (map RitualOutcome.success rituals) true).
Proof.
  induction rituals as [|r rs IH]; [reflexivity|].
  rewrite success_count_cons, IH. cbn [map count_occ].
  destruct (RitualOutcome.success r); destruct (bool_dec _ _); try congruence; lia.
Qed.

(** X18.  [compute_success_rate] depends on the success flags only, and
    not on their order: two collections whose flags are the same up to
    order have the same rate. *)
Theorem compute_success_rate_flags rituals rituals' :
  Permutation (map RitualOutcome.success rituals)
    (map RitualOutcome.success rituals') ->
  compute_success_rate rituals = compute_success_rate rituals'.
Proof.
  intros H. rewrite !compute_success_rate_eq, !success_count_flags.
  rewrite (Permutation_count_occ bool_dec) in H. rewrite (H true).
  assert (E : len rituals = len rituals').
  { unfold len. f_equal.
    rewrite <- (length_map RitualOutcome.success rituals),
            <- (length_map RitualOutcome.success rituals').
    apply Permutation_length.
    now apply (Permutation_count_occ bool_dec). }
  now rewrite E.
Qed.

(** ** The order of [sorted(..., reverse=True)] on integer keys *)

Section SortedReverse.
Variable A : Type.
Variable key : A -> Z.

Abbreviation sorted_desc := (sorted_reverse key Z.ltb).

Lemma insert_desc_perm x l :
  Permutation (x :: l) (insert_desc key Z.ltb x l).
Proof.
  induction l as [|y l IH]; cbn [insert_desc]; [reflexivity|].
  destruct (key x <? key y); [|reflexivity].
  rewrite perm_swap. now constructor.
Qed.

Lemma sorted_reverse_perm l : Permutation l (sorted_desc l).
Proof.
  unfold sorted_reverse.
  induction l as [|x l IH]; cbn [fold_right]; [reflexivity|].
  rewrite <- insert_desc_perm. now constructor.
Qed.

Lemma insert_desc_sorted x l :
  StronglySorted (fun a b => key b <= key a) l ->
  StronglySorted (fun a b => key b <= key a) (insert_desc key Z.ltb x l).
Proof.
  induction 1 as [|y l Hl IH Hy]; cbn [insert_desc].
  - repeat constructor.
  - destruct (Z.ltb_spec (key x) (key y)) as [Hlt|Hge].
    + constructor; [exact IH|].
      rewrite Forall_forall in Hy |- *. intros z Hz.
      apply (Permutation_in z
               (Permutation_sym (insert_desc_perm x l))) in Hz.
      destruct Hz as [<-|Hz]; [lia|auto].
    + constructor; [now constructor|].
      constructor; [exact Hge|].
      rewrite Forall_forall in Hy |- *. intros z Hz. specialize (Hy z Hz). lia.
Qed.

Lemma sorted_reverse_sorted l :
  StronglySorted (fun a b => key b <= key a) (sorted_desc l).
Proof.
  unfold sorted_reverse.
  induction l as [|x l IH]; cbn [fold_right]; [constructor|].
  now apply insert_desc_sorted.
Qed.

Lemma sorted_firstn_skipn k l :
  StronglySorted (fun a b => key b <= key a) l ->
  forall a b, In a (firstn k l) -> In b (skipn k l) -> key b <= key a.
Proof.
  revert l. induction k as [|k IH]; intros l Hl a b Ha Hb; [destruct Ha|].
  destruct l as [|x l]; [destruct Ha|].
  cbn [firstn skipn] in Ha, Hb. inversion Hl as [|? ? Hl' Hx]; subst.
  destruct Ha as [<-|Ha]; [|now apply (IH l Hl')].
  rewrite Forall_forall in Hx. apply Hx.
  rewrite <- (firstn_skipn k l). apply in_or_app. now right.
Qed.

End SortedReverse.

(** ** generate_insights *)

(** The three emotions [generate_insights] names first. *)
Definition top_emotions (emotion_counts : dict Z) : list (string * Z) :=
  firstn 3 (sorted_reverse (@snd string Z) Z.ltb emotion_counts).

(** The insight on the success rate. *)
Definition success_rate_insight_of (rituals : list RitualOutcome.t)
  : PatternInsight.t :=
  PatternInsight.mk
    ("Overall ritual success rate is "
     ++ format_float_f 1 (compute_success_rate rituals * 100)%float
     ++ "% across " ++ str_of_int (len rituals) ++ " rituals.")
    [("success_rate", compute_success_rate rituals);
     ("ritual_count", float_of_int (len rituals))]
    (Some [("rituals", map RitualOutcome.ritual_name rituals)]).

Lemma ritual_success_by_emotion_nil rituals :
  ritual_success_by_emotion rituals = []
  <-> forall r, In r rituals -> RitualOutcome.emotions r = [].
Proof.
  pose proof (ritual_success_by_emotion_tallies rituals) as H.
  assert (Hkeys : forall n,
            In n (keys (ritual_success_by_emotion rituals)) <->
            exists r e, In r rituals /\ In e (RitualOutcome.emotions r)
                        /\ EmotionIntensity.name e = n).
  { intros n. rewrite (pair_tallies_present n H), !tally_by_outcome_pos. split.
    - intros [(r & e & Hr & _ & He)|(r & e & Hr & _ & He)]; exists r, e; tauto.
    - intros (r & e & Hr & He).
      destruct (RitualOutcome.success r) eqn:Es; [left|right];
        exists r, e; tauto. }
  split.
  - intros Hnil r Hr.
    destruct (RitualOutcome.emotions r) as [|e es] eqn:Ee; [reflexivity|].
    assert (Hin : In (EmotionIntensity.name e)
                    (keys (ritual_success_by_emotion rituals))).
    { apply Hkeys. exists r, e. rewrite Ee. auto with datatypes. }
    rewrite Hnil in Hin. destruct Hin.
  - intros Hall.
    destruct (ritual_success_by_emotion rituals) as [|[k v] d] eqn:Ed;
      [reflexivity|].
    assert (Hin : In k (keys ((k, v) :: d))) by (left; reflexivity).
    apply Hkeys in Hin. destruct Hin as (r & e & Hr & He & _).
    rewrite (Hall r Hr) in He. destruct He.
Qed.

Lemma emotion_counts_by_model_nil interactions rituals :
  (forall i, In i interactions -> FamiliarInteraction.emotions i = []) ->
  (forall r, In r rituals -> RitualOutcome.emotions r = []) ->
  emotion_counts_by_model interactions rituals = [].
Proof.
  intros Hi Hr.
  pose proof (emotion_counts_by_model_tallies interactions rituals) as H.
  destruct (emotion_counts_by_model interactions rituals) as [|[k v] d] eqn:E;
    [reflexivity|].
  assert (Hin : In k (keys ((k, v) :: d))) by (left; reflexivity).
  apply (tallies_present k H) in Hin. destruct Hin as [n Hpos].
  exfalso. unfold tally_by_model in Hpos.
  assert (Z1 : sumZ (map (fun i =>
                 if String.eqb (model_key (FamiliarInteraction.model_id i)) k
                 then occurrences n (FamiliarInteraction.emotions i) else 0)
                 interactions) = 0).
  { clear - Hi. induction interactions as [|i l IH]; [reflexivity|].
    cbn [map sumZ]. rewrite IH by auto with datatypes.
    rewrite (Hi i) by auto with datatypes.
    destruct (String.eqb _ k); reflexivity. }
  assert (Z2 : sumZ (map (fun r =>
                 if String.eqb (model_key (RitualOutcome.model_id r)) k
                 then occurrences n (RitualOutcome.emotions r) else 0)
                 rituals) = 0).
  { clear - Hr. induction rituals as [|r l IH]; [reflexivity|].
    cbn [map sumZ]. rewrite IH by auto with datatypes.
    rewrite (Hr r) by auto with datatypes.
    destruct (String.eqb _ k); reflexivity. }
  lia.
Qed.

Lemma generate_insights_not_nil interactions rituals :
  generate_insights interactions rituals <> [].
Proof.
  unfold generate_insights. cbv zeta.
  destruct (aggregate_emotion_counts interactions rituals);
    destruct (1 <? len (emotion_counts_by_model interactions rituals));
    destruct (ritual_success_by_emotion rituals); cbn [app]; discriminate.
Qed.

(** X19.  [generate_insights] always returns the success-rate insight,
    computed over all rituals given, so its result is never empty; before
    it comes at most one insight (the emotion frequencies), present
    exactly when some interaction or ritual carries an emotion; after it
    at most two (the models, then the success by emotion), the last one
    present exactly when some ritual carries an emotion.  When no
    record carries an emotion, the success-rate insight is the whole
    result. *)
Theorem generate_insights_shape interactions rituals :
  exists frequency models by_emotion,
    generate_insights interactions rituals
    = (frequency ++ [success_rate_insight_of rituals] ++ models ++ by_emotion)%list
    /\ (List.length frequency <= 1)%nat
    /\ (List.length models <= 1)%nat
    /\ (List.length by_emotion <= 1)%nat
    /\ (frequency = [] <->
        (forall i, In i interactions -> FamiliarInteraction.emotions i = [])
        /\ (forall r, In r rituals -> RitualOutcome.emotions r = []))
    /\ (models = [] <->
        len (emotion_counts_by_model interactions rituals) <= 1)
    /\ (by_emotion = [] <->
        forall r, In r rituals -> RitualOutcome.emotions r = [])
    /\ (frequency = [] -> models = [] /\ by_emotion = []).
Proof.
  pose proof (aggregate_emotion_counts_nil interactions rituals) as Hagg.
  pose proof (ritual_success_by_emotion_nil rituals) as Hrit.
  pose proof (emotion_counts_by_model_nil interactions rituals) as Hmod.
  assert (Hnone :
            aggregate_emotion_counts interactions rituals = [] ->
            ~ 1 < len (emotion_counts_by_model interactions rituals)
            /\ ritual_success_by_emotion rituals = []).
  { intros H. apply Hagg in H. destruct H as [Hi Hr].
    rewrite (Hmod Hi Hr). split; [rewrite len_nil; lia|now apply Hrit]. }
  unfold generate_insights. cbv zeta.
  fold (success_rate_insight_of rituals).
  destruct (aggregate_emotion_counts interactions rituals) as [|c cs] eqn:Ea;
    destruct (Z.ltb_spec 1 (len (emotion_counts_by_model interactions rituals)))
      as [Hm|Hm];
    destruct (ritual_success_by_emotion rituals) as [|t ts] eqn:Er;
    cbn [app].
  1: match goal with |- exists _ _ _, [_; ?m] = _ /\ _ => exists [], [m], [] end.
  2: match goal with |- exists _ _ _, [_; ?m; ?b] = _ /\ _ => exists [], [m], [b] end.
  3: exists [], [], [].
  4: match goal with |- exists _ _ _, [_; ?b] = _ /\ _ => exists [], [], [b] end.
  5: match goal with |- exists _ _ _, [?a; _; ?m] = _ /\ _ => exists [a], [m], [] end.
  6: match goal with |- exists _ _ _, [?a; _; ?m; ?b] = _ /\ _ => exists [a], [m], [b] end.
  7: match goal with |- exists _ _ _, [?a; _] = _ /\ _ => exists [a], [], [] end.
  8: match goal with |- exists _ _ _, [?a; _; ?b] = _ /\ _ => exists [a], [], [b] end.
  all: split; [reflexivity|].
  all: split; [cbn [List.length]; lia|].
  all: split; [cbn [List.length]; lia|].
  all: split; [cbn [List.length]; lia|].
  all: split;
    [split;
     [first [discriminate|intros _; apply Hagg; reflexivity]
     |first [reflexivity|intros H; apply Hagg in H; discriminate H]]|].
  all: split; [split; first [discriminate|reflexivity|lia|intros _; lia]|].
  all: split;
    [split;
     [first [discriminate|intros _; apply Hrit; reflexivity]
     |first [reflexivity|intros H; apply Hrit in H; discriminate H]]|].
  all: try discriminate.
  all: intros _; destruct (Hnone eq_refl) as [H1 H2]; split;
    first [reflexivity|lia|discriminate H2].
Qed.

Lemma In_firstn (A : Type) k (l : list A) x : In x (firstn k l) -> In x l.
Proof.
  intros H. rewrite <- (firstn_skipn k l). apply in_or_app. now left.
Qed.

Lemma StronglySorted_firstn (A : Type) (R : A -> A -> Prop) k : forall l,
  StronglySorted R l -> StronglySorted R (firstn k l).
Proof.
  induction k as [|k IH]; intros l H; [constructor|].
  destruct l as [|x l]; [constructor|].
  inversion H as [|? ? Hl Hx]; subst. cbn [firstn].
  constructor; [now apply IH|].
  rewrite Forall_forall in Hx |- *. intros y Hy. apply Hx.
  now apply In_firstn in Hy.
Qed.

Lemma top_emotions_spec (emotion_counts : dict Z) :
  List.length (top_emotions emotion_counts)
  = Nat.min 3 (List.length emotion_counts)
  /\ incl (top_emotions emotion_counts) emotion_counts
  /\ StronglySorted (fun a b => snd b <= snd a) (top_emotions emotion_counts)
  /\ (forall n c n' c',
        In (n', c') (top_emotions emotion_counts) ->
        In (n, c) emotion_counts ->
        ~ In n (map fst (top_emotions emotion_counts)) ->
        c <= c').
Proof.
  unfold top_emotions.
  pose proof (sorted_reverse_perm (@snd string Z) emotion_counts) as Hperm.
  pose proof (sorted_reverse_sorted (@snd string Z) emotion_counts) as Hsorted.
  set (l := sorted_reverse (@snd string Z) Z.ltb emotion_counts) in *.
  split; [|split; [|split]].
  - rewrite length_firstn. now rewrite (Permutation_length Hperm).
  - intros x Hx. apply In_firstn in Hx.
    now apply (Permutation_in x (Permutation_sym Hperm)).
  - now apply StronglySorted_firstn.
  - intros n c n' c' Htop Hin Hnot.
    apply (Permutation_in _ Hperm) in Hin.
    rewrite <- (firstn_skipn 3 l) in Hin. apply in_app_or in Hin.
    destruct Hin as [Hin|Hin].
    + elim Hnot. apply in_map_iff. now exists (n, c).
    + apply (sorted_firstn_skipn (@snd string Z) 3 Hsorted (n', c') (n, c) Htop Hin).
Qed.

(** X20.  When some record carries an emotion, the first insight of
    [generate_insights] names at most three emotions: entries of
    [aggregate_emotion_counts], in decreasing order of their counts,
    and no emotion left out has a greater count than one that is
    named.  Its metrics are all the counts, as floats. *)
Theorem generate_insights_top_emotions interactions rituals :
  (exists n, occurs n interactions rituals) ->
  exists description rest,
    generate_insights interactions rituals
    = PatternInsight.mk description
        (map_values float_of_int (aggregate_emotion_counts interactions rituals))
        (Some [("emotions",
                map fst (top_emotions (aggregate_emotion_counts interactions rituals)))])
      :: rest
    /\ List.length (top_emotions (aggregate_emotion_counts interactions rituals))
       = Nat.min 3 (List.length (aggregate_emotion_counts interactions rituals))
    /\ incl (top_emotions (aggregate_emotion_counts interactions rituals))
         (aggregate_emotion_counts interactions rituals)
    /\ StronglySorted (fun a b => snd b <= snd a)
         (top_emotions (aggregate_emotion_counts interactions rituals))
    /\ (forall n c n' c',
          In (n', c') (top_emotions (aggregate_emotion_counts interactions rituals)) ->
          In (n, c) (aggregate_emotion_counts interactions rituals) ->
          ~ In n (map fst (top_emotions (aggregate_emotion_counts interactions rituals))) ->
          c <= c').
Proof.
  intros [n Hn].
  apply aggregate_emotion_counts_keys in Hn.
  pose proof (top_emotions_spec (aggregate_emotion_counts interactions rituals))
    as Hspec.
  unfold generate_insights. cbv zeta.
  fold (top_emotions (aggregate_emotion_counts interactions rituals)).
  destruct (aggregate_emotion_counts interactions rituals) as [|c cs];
    [destruct Hn|].
  destruct (1 <? len (emotion_counts_by_model interactions rituals));
    destruct (ritual_success_by_emotion rituals);
    cbn [app]; eexists; eexists; (split; [reflexivity|exact Hspec]).
Qed.

(** ** The model with the broadest range *)

Section MaxBy.
Variable A : Type.
Variable key : A -> Z.

(** [max(..., key=...)] returns the first item whose key is maximal. *)
Lemma max_by_first l : forall x0,
  exists l1 l2,
    x0 :: l = (l1 ++ max_by key Z.ltb x0 l :: l2)%list
    /\ Forall (fun y => key y < key (max_by key Z.ltb x0 l)) l1
    /\ Forall (fun y => key y <= key (max_by key Z.ltb x0 l)) l2.
Proof.
  unfold max_by.
  induction l as [|x l IH]; intros x0; cbn [fold_left].
  - exists [], []. repeat split; constructor.
  - destruct (Z.ltb_spec (key x0) (key x)) as [Hlt|Hge].
    + destruct (IH x) as (l1 & l2 & E & H1 & H2).
      set (b := fold_left _ l x) in *. clearbody b.
      exists (x0 :: l1), l2. split; [cbn [app]; now rewrite <- E|].
      split; [|exact H2]. constructor; [|exact H1].
      assert (key x <= key b); [|lia].
      destruct l1 as [|y l1']; cbn [app] in E; injection E as E1 E2.
      * subst b. lia.
      * subst y. inversion H1; subst. lia.
    + destruct (IH x0) as (l1 & l2 & E & H1 & H2).
      set (b := fold_left _ l x0) in *. clearbody b.
      destruct l1 as [|y l1']; cbn [app] in E; injection E as E1 E2.
      * subst b l. exists [], (x :: l2).
        split; [reflexivity|]. split; [constructor|].
        constructor; [exact Hge|exact H2].
      * subst y l. exists (x0 :: x :: l1'), l2.
        split; [reflexivity|]. split; [|exact H2].
        inversion H1 as [|? ? Hx0 Hl1]; subst.
        constructor; [exact Hx0|]. constructor; [lia|exact Hl1].
Qed.

End MaxBy.

Lemma get_In (V : Type) (d : dict V) k v :
  NoDup (keys d) -> In (k, v) d -> get d k = Some v.
Proof.
  induction d as [|[k' v'] d IH]; intros Hnd Hin; [destruct Hin|].
  cbn [get]. inversion Hnd as [|? ? Hk Hnd']; subst.
  destruct Hin as [[= -> ->]|Hin]; [now rewrite String.eqb_refl|].
  destruct (String.eqb_spec k k') as [->|_]; [|now apply IH].
  elim Hk. apply in_map_iff. now exists (k', v).
Qed.

Lemma get_Some_In_pair (V : Type) (d : dict V) k v :
  get d k = Some v -> In (k, v) d.
Proof.
  induction d as [|[k' v'] d IH]; cbn [get]; [discriminate|].
  destruct (String.eqb_spec k k') as [->|_].
  - intros [= ->]. now left.
  - intros H. right. now apply IH.
Qed.

Lemma max_by_sizes (rest : dict (dict Z)) : forall p,
  max_by (@snd string Z) Z.ltb (fst p, len (snd p))
    (map_values (fun counts : dict Z => len counts) rest)
  = (fst (max_by (fun m : string * dict Z => len (snd m)) Z.ltb p rest),
     len (snd (max_by (fun m : string * dict Z => len (snd m)) Z.ltb p rest))).
Proof.
  unfold max_by, map_values.
  induction rest as [|x rest IH]; intros p; cbn [fold_left map fst snd];
    [reflexivity|].
  etransitivity; [|exact (IH (if len (snd p) <? len (snd x) then x else p))].
  f_equal. now destruct (len (snd p) <? len (snd x)).
Qed.

(** X21.  When the emotions are spread over more than one model key,
    [generate_insights] contains the multi-model insight, and the model
    it names is a key of [emotion_counts_by_model] with the largest
    number of distinct emotions, the first such key; the number it
    prints is that number, and its metrics are the numbers of distinct
    emotions of all model keys. *)
Theorem generate_insights_best_model interactions rituals :
  1 < len (emotion_counts_by_model interactions rituals) ->
  exists best inner before after,
    get (emotion_counts_by_model interactions rituals) best = Some inner
    /\ NoDup (keys inner)
    /\ emotion_counts_by_model interactions rituals
       = (before ++ (best, inner) :: after)%list
    /\ Forall (fun m => len (snd m) < len inner) before
    /\ Forall (fun m => len (snd m) <= len inner) after
    /\ In (PatternInsight.mk
             ("Model '" ++ best
              ++ "' exhibited the broadest range of emotions ("
              ++ str_of_int (len inner) ++ " unique emotions).")
             (map_values (fun counts : dict Z => float_of_int (len counts))
                (emotion_counts_by_model interactions rituals))
             (Some [("models",
                     keys (emotion_counts_by_model interactions rituals))]))
         (generate_insights interactions rituals).
Proof.
  intros Hlen.
  pose proof (emotion_counts_by_model_tallies interactions rituals) as Ht.
  pose proof (tallies_keys Ht) as Hnd.
  pose proof (tallies_inner_keys Ht) as Hinner.
  unfold generate_insights. cbv zeta.
  apply Z.ltb_lt in Hlen. rewrite Hlen.
  set (by_model := emotion_counts_by_model interactions rituals) in *.
  clearbody by_model. clear Ht.
  destruct by_model as [|[k0 v0] rest]; [discriminate Hlen|].
  cbn [map_values map fst snd].
  change (map (fun kv : string * dict Z => (fst kv, len (snd kv))) rest)
    with (map_values (fun counts : dict Z => len counts) rest).
  destruct (max_by_first (fun m : string * dict Z => len (snd m)) rest (k0, v0))
    as (l1 & l2 & E & H1 & H2).
  set (b := max_by (fun m : string * dict Z => len (snd m)) Z.ltb (k0, v0) rest)
    in *.
  pose proof (max_by_sizes rest (k0, v0)) as Emax. cbn [fst snd] in Emax.
  fold b in Emax.
  rewrite Emax. cbn [fst].
  assert (Hb : In b ((k0, v0) :: rest)).
  { rewrite E. apply in_or_app. right. now left. }
  assert (Eget : get ((k0, v0) :: rest) (fst b) = Some (snd b)).
  { apply get_In; [exact Hnd|]. now destruct b. }
  assert (Estats : get ((k0, len v0)
                          :: map_values (fun counts : dict Z => len counts) rest)
                     (fst b) = Some (len (snd b))).
  { change ((k0, len v0) :: map_values (fun counts : dict Z => len counts) rest)
      with (map_values (fun counts : dict Z => len counts) ((k0, v0) :: rest)).
    now rewrite get_map_values, Eget. }
  rewrite Estats.
  exists (fst b), (snd b), l1, l2.
  split; [exact Eget|]. split; [exact (Hinner _ _ Eget)|].
  split; [rewrite E; now destruct b|].
  split; [exact H1|]. split; [exact H2|].
  destruct (aggregate_emotion_counts interactions rituals);
    destruct (ritual_success_by_emotion rituals);
    cbn [app]; auto 6 with datatypes.
Qed.

(** ** Examples *)

Lemma compute_success_rate_flags_example :
  compute_success_rate [DbSpec.moon_rite; DbSpec.sun_rite]
  = compute_success_rate [DbSpec.sun_rite; DbSpec.moon_rite].
Proof.
  exact (@compute_success_rate_flags [DbSpec.moon_rite; DbSpec.sun_rite]
           [DbSpec.sun_rite; DbSpec.moon_rite] (perm_swap false true [])).
Defined.

Lemma morning_joy_occurs : exists n, occurs n [DbSpec.morning] [].
Proof.
  exists "joy". left. exists DbSpec.morning, DbSpec.half_joy.
  split; [now left|]. split; [now left|reflexivity].
Qed.

Lemma generate_insights_top_emotions_example :
  exists description rest,
    generate_insights [DbSpec.morning] []
    = PatternInsight.mk description [("joy", 1%float)]
        (Some [("emotions", ["joy"])]) :: rest
    /\ List.length (top_emotions (aggregate_emotion_counts [DbSpec.morning] []))
       = 1%nat
    /\ incl (top_emotions (aggregate_emotion_counts [DbSpec.morning] []))
         (aggregate_emotion_counts [DbSpec.morning] [])
    /\ StronglySorted (fun a b => snd b <= snd a)
         (top_emotions (aggregate_emotion_counts [DbSpec.morning] []))
    /\ (forall n c n' c',
          In (n', c') (top_emotions (aggregate_emotion_counts [DbSpec.morning] [])) ->
          In (n, c) (aggregate_emotion_counts [DbSpec.morning] []) ->
          ~ In n (map fst (top_emotions (aggregate_emotion_counts [DbSpec.morning] []))) ->
          c <= c').
Proof.
  exact (@generate_insights_top_emotions [DbSpec.morning] [] morning_joy_occurs).
Defined.

(** An interaction logged by a second model. *)
Definition evening : FamiliarInteraction.t :=
  FamiliarInteraction.mk (Datetime.mkdatetime 2024 1 1 20 0 0 0 None)
    "owl" "vision" [DbSpec.half_joy; EmotionIntensity.mk "awe" 0.5] None
    (Some "model-b").

Lemma generate_insights_best_model_example :
  exists best inner before after,
    get (emotion_counts_by_model [DbSpec.morning; evening] []) best = Some inner
    /\ NoDup (keys inner)
    /\ emotion_counts_by_model [DbSpec.morning; evening] []
       = (before ++ (best, inner) :: after)%list
    /\ Forall (fun m => len (snd m) < len inner) before
    /\ Forall (fun m => len (snd m) <= len inner) after
    /\ In (PatternInsight.mk
             ("Model '" ++ best
              ++ "' exhibited the broadest range of emotions ("
              ++ str_of_int (len inner) ++ " unique emotions).")
             [("model-a", 1%float); ("model-b", 2%float)]
             (Some [("models", ["model-a"; "model-b"])]))
         (generate_insights [DbSpec.morning; evening] []).
Proof.
  exact (@generate_insights_best_model [DbSpec.morning; evening] [] eq_refl).
Defined.

End InsightsSpec.

(* ================================================================== *)
(** * Properties of the server's resources and tools *)
(* ================================================================== *)

Module ServerSpec.
Import DatetimeFacts DatetimeValidity DbSpec InsightsSpec.

Section Codec.
Variable float_repr : float -> string.
Variable float_of_str : string -> option float.

Abbreviation log_interaction := (Server.log_interaction float_repr).
Abbreviation log_ritual := (Server.log_ritual float_repr).
Abbreviation emotions_text_ok := (DbSpec.emotions_text_ok float_repr float_of_str).

Lemma timestamp_or_now_valid utcnow timestamp ts :
  Datetime.valid utcnow ->
  Server.timestamp_or_now utcnow timestamp = Ok ts -> Datetime.valid ts.
Proof.
  intros Hnow. unfold Server.timestamp_or_now.
  destruct timestamp as [[|c s]|]; try (now intros [= <-]).
  apply fromisoformat_valid.
Qed.

Lemma bound_of_valid s d :
  Server.bound_of s = Ok (Some d) -> Datetime.valid d.
Proof.
  unfold Server.bound_of. destruct s as [[|c s]|]; try discriminate.
  destruct (Datetime.fromisoformat (String c s)) as [d'|] eqn:E;
    [|discriminate].
  cbn [bind]. intros [= <-]. exact (fromisoformat_valid _ E).
Qed.

(** ** Logging, then fetching *)




(** ** Bounds given as text *)

(** The offsets of the stored timestamps are the offset of the bound. *)
Definition offsets_agree (bound : option Datetime.datetime)
  (tss : list Datetime.datetime) : Prop :=
  match bound with
  | Some d => Forall (fun ts => Datetime.tzinfo ts = Datetime.tzinfo d) tss
  | None => True
  end.

Lemma offsets_agree_same_offset bound tss :
  (forall d, bound = Some d -> Datetime.valid d) ->
  offsets_agree bound tss -> same_offset bound tss.
Proof.
  unfold offsets_agree, same_offset, offset_matches.
  destruct bound as [d|]; intros Hd H.
  - eapply Forall_impl; [|exact H]. intros ts E. split; [now apply Hd|exact E].
  - rewrite Forall_forall. intros; exact I.
Qed.



(** ** Insights for one ritual *)

(** X27.  [query_ritual_insights] returns the empty list exactly when
    no ritual that [get_rituals] returns for the model has the name
    asked for; otherwise it returns the insights of these rituals alone
    (no interaction is looked at), a list that is not empty. *)
Theorem query_ritual_insights_matches ritual_name model_id db all :
  Db.get_rituals float_repr float_of_str model_id None None db = Ok all ->
  exists insights,
    Server.query_ritual_insights float_repr float_of_str ritual_name model_id db
    = Ok insights
    /\ (insights = [] <->
        forall r, In r all -> RitualOutcome.ritual_name r <> ritual_name)
    /\ (insights <> [] ->
        insights
        = Patterns.generate_insights []
            (filter (fun r => String.eqb (RitualOutcome.ritual_name r) ritual_name)
               all)).
Proof.
  intros Hall. unfold Server.query_ritual_insights. rewrite Hall. cbn [bind].
  destruct (filter (fun r => String.eqb (RitualOutcome.ritual_name r) ritual_name)
              all) as [|r0 matching] eqn:E.
  - exists []. split; [reflexivity|]. split; [|congruence].
    split; [|reflexivity]. intros _ r Hr Hname.
    assert (Hin : In r (filter (fun r => String.eqb (RitualOutcome.ritual_name r)
                                           ritual_name) all)).
    { apply filter_In. split; [exact Hr|]. now apply String.eqb_eq. }
    rewrite E in Hin. destruct Hin.
  - eexists. split; [reflexivity|]. split; [|reflexivity].
    split.
    + intros H. now apply generate_insights_not_nil in H.
    + intros H. exfalso.
      assert (Hin : In r0 (filter (fun r => String.eqb (RitualOutcome.ritual_name r)
                                              ritual_name) all))
        by (rewrite E; now left).
      apply filter_In in Hin. destruct Hin as [Hin Hname].
      apply String.eqb_eq in Hname. exact (H r0 Hin Hname).
Qed.

(** ** Insights over the store *)

(** X28.  On tables of stored records, the resource
    [sanctuary://insights] returns the insights of exactly the stored
    interactions and rituals, a list that is never empty, and the tool
    [query_emotions_by_model] returns their emotion counts by model. *)
Theorem get_insights_stored db interactions rituals :
  stored float_repr float_of_str db interactions ->
  rituals_stored float_repr float_of_str db rituals ->
  Server.get_insights float_repr float_of_str db
  = Ok (Patterns.generate_insights interactions rituals)
  /\ Patterns.generate_insights interactions rituals <> []
  /\ Server.query_emotions_by_model float_repr float_of_str db
     = Ok (Patterns.emotion_counts_by_model interactions rituals).
Proof.
  intros Hi Hr.
  assert (Ei : Db.get_interactions float_repr float_of_str None None None db
               = Ok interactions).
  { rewrite get_interactions_all. apply mapM_ok.
    eapply Forall2_impl; [|exact Hi]. intros row r H. apply H. }
  assert (Er : Db.get_rituals float_repr float_of_str None None None db
               = Ok rituals).
  { rewrite get_rituals_all. apply mapM_ok.
    eapply Forall2_impl; [|exact Hr]. intros row r H. apply H. }
  unfold Server.get_insights, Server.query_emotions_by_model.
  rewrite Ei, Er. cbn [bind].
  split; [reflexivity|]. split; [apply generate_insights_not_nil|reflexivity].
Qed.

End Codec.

(** ** Examples *)




Lemma query_ritual_insights_matches_example :
  exists insights,
    Server.query_ritual_insights sample_repr sample_of_str "Sun Rite" None two_days
    = Ok insights
    /\ (insights = [] <->
        forall r, In r [moon_rite; sun_rite] ->
                  RitualOutcome.ritual_name r <> "Sun Rite")
    /\ (insights <> [] ->
        insights = Patterns.generate_insights [] [sun_rite]).
Proof.
  exact (@query_ritual_insights_matches sample_repr sample_of_str "Sun Rite" None
           two_days [moon_rite; sun_rite] eq_refl).
Defined.

Lemma get_insights_stored_example :
  Server.get_insights sample_repr sample_of_str two_days
  = Ok (Patterns.generate_insights [morning; next_day] [moon_rite; sun_rite])
  /\ Patterns.generate_insights [morning; next_day] [moon_rite; sun_rite] <> []
  /\ Server.query_emotions_by_model sample_repr sample_of_str two_days
     = Ok (Patterns.emotion_counts_by_model [morning; next_day]
             [moon_rite; sun_rite]).
Proof.
  exact (@get_insights_stored sample_repr sample_of_str two_days
           [morning; next_day] [moon_rite; sun_rite]
           two_days_stored two_days_rituals_stored).
Defined.

End ServerSpec.
